(** * Onyxia web console: secrets-manager adapter, search bar, launcher

    A shallow embedding of the TypeScript sources

    - [src/lib/secondaryAdapters/vaultSecretsManagerClient.ts]
    - [src/app/components/pages/Catalog/SearchBar.tsx]
      (the search bar component followed by the launcher thunks)
    - [web/src/core/usecases/index.ts]

    JavaScript strings are modelled by [string], which holds the text in
    UTF-8, with their lengths counted in UTF-16 code units
    ([JS.utf16_length]); arrays by [list], objects
    used as records by [Record]s, objects used as dictionaries by association
    lists in [Object.entries] order (or by [gmap] where only lookup matters),
    [undefined] by [None]. *)

From Stdlib Require Import String Ascii List Bool Arith ZArith Lia Permutation.
From stdpp Require Import base option list strings gmap.
Import ListNotations.

Local Open Scope string_scope.
Local Open Scope list_scope.

#[local] Set Warnings "-register-all".

(** ** JavaScript string and array primitives used by the sources *)

Module JS.

Definition slash : ascii := "/"%char.
Definition dquote : ascii := ascii_of_nat 34.
Definition backslash : ascii := "\"%char.
Definition newline : ascii := ascii_of_nat 10.

Definition str (c : ascii) : string := String c EmptyString.

(** [s.startsWith(p)] *)
Fixpoint startsWith (p s : string) : bool :=
  match p, s with
  | EmptyString, _ => true
  | String a p', String b s' => Ascii.eqb a b && startsWith p' s'
  | String _ _, EmptyString => false
  end.

(** [s.endsWith(p)]: some suffix of [s] is [p]. *)
Fixpoint endsWith (p s : string) : bool :=
  String.eqb s p ||
  match s with
  | EmptyString => false
  | String _ s' => endsWith p s'
  end.

(** [s.split(sep)] for a one-character separator: never the empty array,
    [EmptyString] splits to one empty segment. *)
Fixpoint split (sep : ascii) (s : string) : list string :=
  match s with
  | EmptyString => [EmptyString]
  | String c s' =>
      if Ascii.eqb c sep then EmptyString :: split sep s'
      else match split sep s' with
           | seg :: segs => String c seg :: segs
           | [] => [str c]
           end
  end.

(** [arr.join(sep)] *)
Fixpoint join (sep : string) (l : list string) : string :=
  match l with
  | [] => EmptyString
  | [x] => x
  | x :: l' => x +:+ sep +:+ join sep l'
  end.

(** [s.replace(/"/g, '\\"')]: every double quote gets a backslash in front. *)
Fixpoint escapeDoubleQuotes (s : string) : string :=
  match s with
  | EmptyString => EmptyString
  | String c s' =>
      if Ascii.eqb c dquote
      then String backslash (String dquote (escapeDoubleQuotes s'))
      else String c (escapeDoubleQuotes s')
  end.

(** [arr.reduce(...partition(matcher))] of evt/tools/reducers: one pass that
    pushes each element on the first array when it matches and on the second
    otherwise, starting from two empty arrays. *)
Definition partition {A} (matcher : A -> bool) (arr : list A) : list A * list A :=
  fold_left
    (fun (previousValue : list A * list A) currentValue =>
       if matcher currentValue
       then (fst previousValue ++ [currentValue], snd previousValue)
       else (fst previousValue, snd previousValue ++ [currentValue]))
    arr ([], []).

(** [arr.find(pred)] *)
Definition find {A} (pred : A -> bool) (arr : list A) : option A :=
  List.find pred arr.

(** [s.length]: the number of UTF-16 code units of the text. A [string]
    holds the text in UTF-8, as the literals of this file do: a character
    below U+10000 is one code unit and starts with a byte below 128 or from
    192 to 239; any other character is two code units, a surrogate pair, and
    starts with a byte from 240; the bytes from 128 to 191 continue a
    character. *)
Definition codeUnits (byte : ascii) : nat :=
  let n := nat_of_ascii byte in
  if Nat.ltb n 128 then 1
  else if Nat.ltb n 192 then 0
  else if Nat.ltb n 240 then 1
  else 2.

Fixpoint utf16_length (s : string) : nat :=
  match s with
  | EmptyString => 0
  | String byte s' => codeUnits byte + utf16_length s'
  end.

(** [s.padEnd(targetLength)] with the default filler, a space. A target of
    [-Infinity], [None] here, pads nothing; neither does a target below the
    length. *)
Fixpoint spaces (n : nat) : string :=
  match n with
  | O => EmptyString
  | S n' => String " " (spaces n')
  end.

Definition padEnd (s : string) (targetLength : option nat) : string :=
  match targetLength with
  | None => s
  | Some n => s +:+ spaces (n - utf16_length s)
  end.

(** [Math.max(...numbers)] on lengths: [-Infinity], [None] here, when there
    is no number. *)
Definition Math_max (numbers : list nat) : option nat :=
  match numbers with
  | [] => None
  | _ => Some (list_max numbers)
  end.

(** Reading back [escapeDoubleQuotes]: a backslash in front of a double
    quote is dropped. *)
Fixpoint unescapeDoubleQuotes (s : string) : string :=
  match s with
  | EmptyString => EmptyString
  | String c s' =>
      match s' with
      | String c' s'' =>
          if Ascii.eqb c backslash && Ascii.eqb c' dquote
          then String dquote (unescapeDoubleQuotes s'')
          else String c (unescapeDoubleQuotes s')
      | EmptyString => String c EmptyString
      end
  end.

(** *** Facts on these primitives *)

Lemma append_cons x (a b : string) : String x a +:+ b = String x (a +:+ b).
Proof. reflexivity. Qed.

Lemma append_assoc (a b c : string) : (a +:+ b) +:+ c = a +:+ b +:+ c.
Proof.
  induction a as [|x a IH]; [reflexivity|]. rewrite !append_cons. now rewrite IH.
Qed.

Lemma append_inj_l (p a b : string) : p +:+ a = p +:+ b -> a = b.
Proof.
  induction p as [|x p IH]; [auto|]. rewrite !append_cons. intros [= H]. auto.
Qed.

Lemma length_append (a b : string) :
  String.length (a +:+ b) = String.length a + String.length b.
Proof.
  induction a as [|x a IH]; [reflexivity|]. rewrite append_cons. cbn [String.length].
  now rewrite IH.
Qed.

Lemma length_spaces n : String.length (spaces n) = n.
Proof. induction n as [|n IH]; [reflexivity|]. cbn [spaces String.length]. now rewrite IH. Qed.

Lemma lookup_map {A B} (f : A -> B) (l : list A) : forall i,
  map f l !! i = f <$> (l !! i).
Proof.
  induction l as [|x l IH]; intros [|i]; try reflexivity. apply IH.
Qed.

Lemma lookup_skip3 {A} (a b c : A) (l : list A) i :
  (a :: b :: c :: l) !! (3 + i) = l !! i.
Proof. reflexivity. Qed.

Lemma utf16_length_append (a b : string) :
  utf16_length (a +:+ b) = utf16_length a + utf16_length b.
Proof.
  induction a as [|x a IH]; [reflexivity|]. rewrite append_cons.
  cbn [utf16_length]. rewrite IH. lia.
Qed.

Lemma utf16_length_spaces n : utf16_length (spaces n) = n.
Proof. induction n as [|n IH]; [reflexivity|]. cbn [spaces utf16_length]. now rewrite IH. Qed.

(** On ASCII text the code units are the bytes. *)
Lemma utf16_length_ascii s :
  Forall (fun byte => nat_of_ascii byte < 128) (list_ascii_of_string s) ->
  utf16_length s = String.length s.
Proof.
  induction s as [|byte s IH]; [reflexivity|]. cbn [list_ascii_of_string].
  intros H. apply Forall_cons_iff in H as [Hbyte H].
  cbn [utf16_length String.length]. rewrite (IH H). unfold codeUnits.
  apply Nat.ltb_lt in Hbyte. now rewrite Hbyte.
Qed.

(** A padded text has the target length, unless it was longer already. *)
Lemma length_padEnd s n :
  utf16_length (padEnd s (Some n)) = Nat.max n (utf16_length s).
Proof. cbn. rewrite utf16_length_append, utf16_length_spaces. lia. Qed.

Lemma escapeDoubleQuotes_head s :
  match escapeDoubleQuotes s with
  | String c _ => Ascii.eqb c dquote = false
  | EmptyString => True
  end.
Proof.
  destruct s as [|c s]; [exact I|]. cbn [escapeDoubleQuotes].
  destruct (Ascii.eqb c dquote) eqn:E; [reflexivity|exact E].
Qed.

Lemma unescape_escape s : unescapeDoubleQuotes (escapeDoubleQuotes s) = s.
Proof.
  induction s as [|c s IH]; [reflexivity|].
  cbn [escapeDoubleQuotes]. destruct (Ascii.eqb c dquote) eqn:E.
  - apply Ascii.eqb_eq in E. subst c.
    cbn [unescapeDoubleQuotes]. rewrite !Ascii.eqb_refl. cbn [andb].
    now rewrite IH.
  - pose proof (escapeDoubleQuotes_head s) as Hhead.
    cbn [unescapeDoubleQuotes].
    destruct (escapeDoubleQuotes s) as [|c' rest] eqn:R.
    + rewrite <- IH. reflexivity.
    + rewrite Hhead, andb_false_r. now rewrite IH.
Qed.

Lemma append_inj_r (p a b : string) : a +:+ p = b +:+ p -> a = b.
Proof.
  revert b. induction a as [|x a IH]; intros [|y b] H.
  - reflexivity.
  - apply (f_equal String.length) in H.
    change (EmptyString +:+ p) with p in H.
    rewrite append_cons in H. cbn [String.length] in H.
    rewrite length_append in H. lia.
  - apply (f_equal String.length) in H.
    change (EmptyString +:+ p) with p in H.
    rewrite append_cons in H. cbn [String.length] in H.
    rewrite length_append in H. lia.
  - rewrite !append_cons in H. injection H as -> H. f_equal. now apply IH.
Qed.

Lemma escapeDoubleQuotes_inj s s' :
  escapeDoubleQuotes s = escapeDoubleQuotes s' -> s = s'.
Proof.
  intros H. rewrite <- (unescape_escape s), <- (unescape_escape s'). now rewrite H.
Qed.







End JS.

(** ** The posix [join] of the [path] module, as used through [pathJoin] *)

Module Path.
Import JS.

Definition isDot (seg : string) : bool := String.eqb seg ".".
Definition isDotDot (seg : string) : bool := String.eqb seg "..".
Definition isEmpty (seg : string) : bool := String.eqb seg EmptyString.

(** [normalizeString]: resolves the [.] and [..] segments. [res] is the stack
    of the segments kept so far, last one first. *)
Fixpoint normalizeSegments (allowAboveRoot : bool) (res : list string)
    (segs : list string) : list string :=
  match segs with
  | [] => rev res
  | seg :: rest =>
      if isEmpty seg || isDot seg then normalizeSegments allowAboveRoot res rest
      else if isDotDot seg then
        match res with
        | lastSeg :: res' =>
            if isDotDot lastSeg then
              if allowAboveRoot
              then normalizeSegments allowAboveRoot (seg :: res) rest
              else normalizeSegments allowAboveRoot res rest
            else normalizeSegments allowAboveRoot res' rest
        | [] =>
            if allowAboveRoot
            then normalizeSegments allowAboveRoot [seg] rest
            else normalizeSegments allowAboveRoot [] rest
        end
      else normalizeSegments allowAboveRoot (seg :: res) rest
  end.

(** [posix.normalize] *)
Definition normalize (path : string) : string :=
  if isEmpty path then "."
  else
    let isAbsolute := startsWith "/" path in
    let trailingSeparator := endsWith "/" path in
    let p := join "/" (normalizeSegments (negb isAbsolute) [] (split slash path)) in
    if isEmpty p then
      if isAbsolute then "/" else if trailingSeparator then "./" else "."
    else
      let p := if trailingSeparator then p +:+ "/" else p in
      if isAbsolute then "/" +:+ p else p.

(** [posix.join(...args)]: the non-empty arguments are glued with [/] and the
    result is normalized. *)
Definition pathJoin (args : list string) : string :=
  match List.filter (fun arg => negb (isEmpty arg)) args with
  | [] => "."
  | joined => normalize (join "/" joined)
  end.

(** A path is plain when none of its [/]-separated segments is empty, [.] or
    [..]: normalization leaves such a path alone. *)
Definition plainSegment (seg : string) : bool :=
  negb (isEmpty seg) && negb (isDot seg) && negb (isDotDot seg).

Definition plainPath (path : string) : bool :=
  forallb plainSegment (split slash path).

Example pathJoin_examples :
  pathJoin ["v1"; "onyxia-kv"; "metadata"; "jdoe/db"] = "v1/onyxia-kv/metadata/jdoe/db" /\
  pathJoin ["onyxia-kv"; "/jdoe//db/"] = "onyxia-kv/jdoe/db/" /\
  pathJoin ["onyxia-kv"; EmptyString] = "onyxia-kv" /\
  pathJoin ["onyxia-kv"; "./jdoe/../db"] = "onyxia-kv/db" /\
  pathJoin ["a"; "../../.."] = "../.." /\
  pathJoin ["/"; ".."] = "/" /\
  pathJoin [EmptyString; EmptyString] = ".".
Proof. repeat split; reflexivity. Qed.

(** *** Facts on splitting, joining and normalizing *)

Lemma split_not_nil sep s : split sep s <> [].
Proof.
  destruct s as [|c s]; simpl; [discriminate|].
  destruct (Ascii.eqb c sep); [discriminate|].
  destruct (split sep s); discriminate.
Qed.

Lemma split_app_sep sep a b :
  split sep (a +:+ String sep b) = split sep a ++ split sep b.
Proof.
  induction a as [|c a IH]; simpl.
  - now rewrite Ascii.eqb_refl.
  - destruct (Ascii.eqb c sep); [now rewrite IH|].
    rewrite IH. pose proof (split_not_nil sep a) as Hne.
    destruct (split sep a); [congruence|reflexivity].
Qed.

Lemma join_cons sep x y l :
  join sep (x :: y :: l) = x +:+ sep +:+ join sep (y :: l).
Proof. reflexivity. Qed.

Lemma join_split s : join "/" (split slash s) = s.
Proof.
  induction s as [|c s IH]; [reflexivity|].
  cbn [split]. pose proof (split_not_nil slash s) as Hne.
  destruct (Ascii.eqb_spec c slash) as [->|Hc].
  - destruct (split slash s) as [|seg segs]; [congruence|].
    rewrite join_cons, IH. reflexivity.
  - destruct (split slash s) as [|seg [|seg' segs]]; [congruence| |].
    + simpl in *. now rewrite IH.
    + rewrite <- IH. reflexivity.
Qed.

(** [join] is the concatenation with a separator of the standard library. *)
Lemma join_concat sep l : join sep l = String.concat sep l.
Proof.
  induction l as [|x l IH]; [reflexivity|]. destruct l as [|y l]; [reflexivity|].
  rewrite join_cons, IH. reflexivity.
Qed.

(** No segment of a split holds the separator. *)
Lemma split_no_sep sep s :
  Forall (fun seg => ~ In sep (list_ascii_of_string seg)) (split sep s).
Proof.
  induction s as [|c s IH]; [repeat constructor; intros []|].
  cbn [split]. destruct (Ascii.eqb_spec c sep) as [->|Hc].
  - constructor; [intros []|exact IH].
  - destruct (split sep s) as [|seg segs].
    + repeat constructor. cbn. intros [?|[]]. congruence.
    + apply Forall_cons_iff in IH as [Hseg Hsegs]. constructor; [|exact Hsegs].
      cbn [list_ascii_of_string]. intros [?|?]; [congruence|contradiction].
Qed.

Lemma split_plain sep seg :
  ~ In sep (list_ascii_of_string seg) -> split sep seg = [seg].
Proof.
  induction seg as [|c seg IH]; [reflexivity|]. cbn [list_ascii_of_string split].
  intros H. destruct (Ascii.eqb_spec c sep) as [->|Hc].
  - exfalso. apply H. now left.
  - rewrite IH; [reflexivity|]. intros Hin. apply H. now right.
Qed.

(** The split is the only way to cut a text in segments without the
    separator. *)
Lemma split_unique sep segs :
  segs <> [] ->
  Forall (fun seg => ~ In sep (list_ascii_of_string seg)) segs ->
  split sep (String.concat (str sep) segs) = segs.
Proof.
  induction segs as [|seg segs IH]; [congruence|]. intros _ Hall.
  apply Forall_cons_iff in Hall as [Hseg Hall].
  destruct segs as [|seg' segs]; [now apply split_plain|].
  change (String.concat (str sep) (seg :: seg' :: segs))
    with (seg +:+ String sep (String.concat (str sep) (seg' :: segs))).
  rewrite split_app_sep, IH by (congruence || assumption).
  now rewrite split_plain.
Qed.

Lemma split_singleton_empty s : split slash s = [EmptyString] -> s = EmptyString.
Proof. intros H. rewrite <- (join_split s), H. reflexivity. Qed.

Lemma endsWith_slash_last s :
  endsWith "/" s = true -> List.last (split slash s) "x" = EmptyString.
Proof.
  induction s as [|c s IH]; [discriminate|].
  cbn [endsWith]. intros H. apply orb_true_iff in H as [H|H].
  - apply String.eqb_eq in H. injection H as -> ->. reflexivity.
  - specialize (IH H). cbn [split].
    pose proof (split_not_nil slash s) as Hne.
    destruct (Ascii.eqb c slash).
    + destruct (split slash s); [congruence|exact IH].
    + destruct (split slash s) as [|seg [|seg' segs]] eqn:E; [congruence| |exact IH].
      simpl in IH. subst seg. apply split_singleton_empty in E. subst s.
      discriminate.
Qed.

Lemma plainPath_not_empty p : plainPath p = true -> isEmpty p = false.
Proof. destruct p; [discriminate|reflexivity]. Qed.

Lemma plainPath_not_absolute p : plainPath p = true -> startsWith "/" p = false.
Proof.
  destruct p as [|c p]; [discriminate|]. unfold plainPath. cbn [split startsWith].
  destruct (Ascii.eqb_spec c slash) as [->|Hc].
  - discriminate.
  - intros _. destruct (Ascii.eqb_spec "/"%char c) as [<-|]; [now elim Hc|reflexivity].
Qed.

Lemma plainPath_no_trailing p : plainPath p = true -> endsWith "/" p = false.
Proof.
  intros Hp. destruct (endsWith "/" p) eqn:E; [|reflexivity].
  apply endsWith_slash_last in E. unfold plainPath in Hp.
  rewrite forallb_forall in Hp.
  assert (Hin : In (List.last (split slash p) "x") (split slash p)).
  { pose proof (split_not_nil slash p) as Hne.
    destruct (exists_last Hne) as (l & x & ->). rewrite last_last.
    apply in_or_app. right. now left. }
  apply Hp in Hin. rewrite E in Hin. discriminate.
Qed.

Lemma normalizeSegments_plain allowAboveRoot segs : forall res,
  forallb plainSegment segs = true ->
  normalizeSegments allowAboveRoot res segs = rev res ++ segs.
Proof.
  induction segs as [|seg segs IH]; intros res H; simpl.
  - now rewrite app_nil_r.
  - simpl in H. apply andb_true_iff in H as [Hseg Hsegs].
    unfold plainSegment in Hseg.
    apply andb_true_iff in Hseg as [Hseg Hdd].
    apply andb_true_iff in Hseg as [He Hd].
    apply negb_true_iff in He, Hd, Hdd. rewrite He, Hd, Hdd. simpl.
    rewrite IH by assumption. simpl. now rewrite <- app_assoc.
Qed.

(** Normalization leaves a plain path as it is. *)
Lemma normalize_plain p : plainPath p = true -> normalize p = p.
Proof.
  intros Hp. unfold normalize.
  rewrite (plainPath_not_empty p Hp), (plainPath_not_absolute p Hp),
    (plainPath_no_trailing p Hp).
  cbn [negb]. rewrite normalizeSegments_plain by exact Hp.
  cbn [rev app]. rewrite join_split, (plainPath_not_empty p Hp). reflexivity.
Qed.

Lemma plainPath_app a b :
  plainPath (a +:+ "/" +:+ b) = plainPath a && plainPath b.
Proof.
  unfold plainPath. change ("/" +:+ b) with (String slash b).
  now rewrite split_app_sep, forallb_app.
Qed.

Lemma plainPath_join args :
  args <> [] -> forallb plainPath args = true -> plainPath (join "/" args) = true.
Proof.
  induction args as [|a [|b args] IH]; intros Hne H; [congruence| |].
  - simpl in *. now rewrite andb_true_r in H.
  - rewrite join_cons, plainPath_app. cbn [forallb] in H.
    apply andb_true_iff in H as [Ha H]. rewrite Ha. apply IH; [discriminate|exact H].
Qed.



(** Joining plain paths is gluing them with [/]. *)
Lemma pathJoin_plain args :
  args <> [] -> forallb plainPath args = true -> pathJoin args = join "/" args.
Proof.
  intros Hne H. unfold pathJoin.
  assert (Hf : List.filter (fun arg => negb (isEmpty arg)) args = args).
  { clear Hne. induction args as [|a args IH]; [reflexivity|].
    cbn [forallb] in H. apply andb_true_iff in H as [Ha H].
    cbn [List.filter]. rewrite (plainPath_not_empty a Ha). cbn [negb].
    now rewrite IH. }
  rewrite Hf. destruct args as [|a args]; [congruence|].
  apply normalize_plain, plainPath_join; assumption.
Qed.

End Path.

(** ** vaultSecretsManagerClient.ts *)

Module Vault.
Import JS Path.

Definition version : string := "v1".

Inductive Method := GET | POST | PUT | DELETE.

Section Client.

(** JavaScript numbers are IEEE doubles; the adapter only carries and prints
    them, so their type and their decimal rendering are left abstract, as are
    [JSON.stringify(value, null, 2)] and the metadata record of a secret. *)
Context {number Metadata : Type}.
Variable String_of_number : number -> string.

(** [Secret.Value]: what a secret may hold under a key. *)
Inductive Value :=
| VNull
| VString (s : string)
| VNumber (n : number)
| VBoolean (b : bool)
| VArray (items : list Value)
| VObject (entries : list (string * Value)).

Variable JSON_stringify_2 : Value -> string.

(** A secret, in [Object.entries] order. *)
Definition Secret := list (string * Value).

(** The body of a request: [{ role, jwt }] for the login, [{ data: secret }]
    for a put. *)
Inductive Body :=
| LoginBody (role jwt : string)
| DataBody (secret : Secret).

(** An axios request config. [headers] is the header object; [extra] holds
    the other keys the interceptor writes on the config itself. *)
Record RequestConfig := {
  method : Method;
  url : string;
  params : list (string * string);
  data : option Body;
  headers : list (string * string);
  extra : list (string * string)
}.

Definition mkRequest (m : Method) (u : string) (ps : list (string * string))
    (d : option Body) : RequestConfig :=
  {| method := m; url := u; params := ps; data := d; headers := []; extra := [] |}.

(** One awaited HTTP round trip: the request handed to the axios instance and
    what the operation returns from the response payload of type [R]. *)
Record Exchange (R A : Type) := {
  request : RequestConfig;
  onResponse : R -> A
}.
Arguments request {R A}.
Arguments onResponse {R A}.

Record ListResult := { nodes : list string; leafs : list string }.

Record SecretWithMetadata := { secret : Secret; metadata : Metadata }.

Section WithEngine.
Variable engine : string.

Definition ctxPathJoin (args : list string) : string :=
  pathJoin (version :: engine :: args).

Definition secretsManagerClient_list (path : string)
    : Exchange (list string) ListResult :=
  {| request := mkRequest GET (ctxPathJoin ["metadata"; path]) [("list", "true")] None;
     onResponse := fun keys =>
       let '(nodes, leafs) := partition (endsWith "/") keys in
       {| nodes := nodes; leafs := leafs |} |}.

Definition secretsManagerClient_get (path : string)
    : Exchange SecretWithMetadata SecretWithMetadata :=
  {| request := mkRequest GET (ctxPathJoin ["data"; path]) [] None;
     onResponse := fun r => {| secret := secret r; metadata := metadata r |} |}.

Definition secretsManagerClient_put (path : string) (secret : Secret)
    : Exchange unit unit :=
  {| request := mkRequest PUT (ctxPathJoin ["data"; path]) [] (Some (DataBody secret));
     onResponse := fun _ => tt |}.

Definition secretsManagerClient_delete (path : string) : Exchange unit unit :=
  {| request := mkRequest DELETE (ctxPathJoin ["data"; path]) [] None;
     onResponse := fun _ => tt |}.


(** *** getVaultClientTranslator, clientType "CLI" *)

(** The right-hand side of [key=value] in [vault kv put]. *)
Definition renderValue (value : Value) : string :=
  match value with
  | VString s => str dquote +:+ escapeDoubleQuotes s +:+ str dquote
  | VNumber n => String_of_number n
  | VBoolean b => if b then "true" else "false"
  | _ =>
      join (str newline)
        [ "-<<EOF";
          "heredoc > " +:+ JSON_stringify_2 value;
          "heredoc> EOF" ]
  end.

Definition renderEntry (entry : string * Value) : string :=
  fst entry +:+ "=" +:+ renderValue (snd entry).


Definition get_buildCmd (path : string) : string :=
  "vault kv get " +:+ pathJoin [engine; path].

Definition put_buildCmd (path : string) (secret : Secret) : string :=
  join (" " +:+ str backslash +:+ str newline)
    (("vault kv put " +:+ pathJoin [engine; path]) :: map renderEntry secret).


Definition put_fmtResult (path : string) : string :=
  "Success! Data written to: " +:+ pathJoin [engine; path].

Definition delete_fmtResult (path : string) : string :=
  "Success! Data deleted (if it existed) at: " +:+ pathJoin [engine; path].

(** The four operations of the port. *)
Inductive Operation := OpList | OpGet | OpPut | OpDelete.


(** The URL [secretsManagerClient[op](...)] hands to the axios instance. *)
Definition adapterUrl (op : Operation) (path : string) (secret : Secret) : string :=
  match op with
  | OpList => url (request (secretsManagerClient_list path))
  | OpGet => url (request (secretsManagerClient_get path))
  | OpPut => url (request (secretsManagerClient_put path secret))
  | OpDelete => url (request (secretsManagerClient_delete path))
  end.


Definition spec_opKind (op : Operation) : string :=
  match op with
  | OpList => "metadata"
  | _ => "data"
  end.






(** *** More on the adapter and on the translator *)

Lemma adapterUrl_plain op path secret :
  plainPath engine = true -> plainPath path = true ->
  adapterUrl op path secret
  = "v1/" +:+ engine +:+ "/" +:+ spec_opKind op +:+ "/" +:+ path.
Proof.
  intros He Hp.
  replace (adapterUrl op path secret)
    with (pathJoin [version; engine; spec_opKind op; path])
    by (destruct op; reflexivity).
  rewrite pathJoin_plain; [reflexivity|discriminate|].
  cbn [forallb]. rewrite He, Hp. destruct op; reflexivity.
Qed.

(** For a plain engine and plain paths, two round trips of the adapter ask
    for the same URL exactly when their paths are equal and both or none of
    them is a listing: [get], [put] and [delete] of a path meet on one URL,
    different paths never share one, and a listing never asks for the URL
    of a secret. *)
Theorem adapter_urls_separate (op op' : Operation) (path path' : string)
    (secret secret' : Secret) :
  plainPath engine = true -> plainPath path = true -> plainPath path' = true ->
  (adapterUrl op path secret = adapterUrl op' path' secret' <->
   path = path' /\ (op = OpList <-> op' = OpList)).
Proof.
  intros He Hp Hp'. rewrite !adapterUrl_plain by assumption.
  change ("v1/" +:+ engine +:+ "/" +:+ spec_opKind op +:+ "/" +:+ path)
    with ("v1/" +:+ (engine +:+ ("/" +:+ spec_opKind op +:+ "/" +:+ path))).
  change ("v1/" +:+ engine +:+ "/" +:+ spec_opKind op' +:+ "/" +:+ path')
    with ("v1/" +:+ (engine +:+ ("/" +:+ spec_opKind op' +:+ "/" +:+ path'))).
  split.
  - intros H. apply append_inj_l, append_inj_l in H.
    destruct op, op'; cbn [spec_opKind] in H;
      try (apply (append_inj_l "/metadata/") in H);
      try (apply (append_inj_l "/data/") in H);
      try (split; [exact H|split; congruence]);
      exfalso; revert H; clear; destruct path, path'; discriminate.
  - intros [-> Hop]. do 3 f_equal.
    destruct op, op'; try reflexivity;
      (destruct Hop as [H1 H2]; first [specialize (H1 eq_refl)|specialize (H2 eq_refl)];
       discriminate).
Qed.

(** The text of a string value tells the value: two strings that [put]
    prints alike are equal. *)
Theorem renderValue_VString_inj (s s' : string) :
  renderValue (VString s) = renderValue (VString s') -> s = s'.
Proof.
  cbn [renderValue]. intros H.
  apply append_inj_l, append_inj_r in H. now apply escapeDoubleQuotes_inj.
Qed.

End WithEngine.

(** *** getAxiosInstanceAndEvtVaultToken

    The token exchange is asynchronous in the source; here every exchange
    runs to completion before the next event is handled, and the backend
    answers every login. What the backend answers may differ from one login
    to the next: [loginResponse n req] is [data.auth.client_token] of the
    answer to [req] when [n] logins were sent before it. *)

Section Token.
Variable role : string.
Variable loginResponse : nat -> RequestConfig -> string.

Record TokenState := {
  (** the cache of the memoized [fetchVaultToken] *)
  fetchVaultToken_cache : gmap string string;
  (** the login requests sent so far with their answers, oldest first *)
  loginLog : list (RequestConfig * string);
  (** the state of [evtVaultToken] *)
  evtVaultToken : option string
}.

Definition initialTokenState : TokenState :=
  {| fetchVaultToken_cache := ∅; loginLog := []; evtVaultToken := None |}.

(** State passing for the adapter's mutable parts. *)
Definition M (A : Type) : Type := TokenState -> A * TokenState.

#[local] Instance M_ret : MRet M := fun A a st => (a, st).

#[local] Instance M_bind : MBind M :=
  fun A B k m st => let '(a, st') := m st in k a st'.

Definition loginRequest (oidcAccessToken : string) : RequestConfig :=
  mkRequest POST ("/" +:+ version +:+ "/auth/jwt/login") []
    (Some (LoginBody role oidcAccessToken)).

(** [createAxiosInstance().post(...)], then [axiosResponse.data.auth.client_token] *)
Definition postLogin (oidcAccessToken : string) : M string :=
  fun st =>
    let req := loginRequest oidcAccessToken in
    let client_token := loginResponse (length (loginLog st)) req in
    (client_token,
     {| fetchVaultToken_cache := fetchVaultToken_cache st;
        loginLog := loginLog st ++ [(req, client_token)];
        evtVaultToken := evtVaultToken st |}).

Definition cacheLookup (oidcAccessToken : string) : M (option string) :=
  fun st => (fetchVaultToken_cache st !! oidcAccessToken, st).

Definition cacheStore (oidcAccessToken vaultToken : string) : M unit :=
  fun st =>
    (tt,
     {| fetchVaultToken_cache := <[oidcAccessToken := vaultToken]> (fetchVaultToken_cache st);
        loginLog := loginLog st;
        evtVaultToken := evtVaultToken st |}).

(** [memoizee(async oidcAccessToken => ..., { promise: true })] *)
Definition fetchVaultToken (oidcAccessToken : string) : M string :=
  cached ← cacheLookup oidcAccessToken;
  match cached with
  | Some vaultToken => mret vaultToken
  | None =>
      vaultToken ← postLogin oidcAccessToken;
      cacheStore oidcAccessToken vaultToken;;
      mret vaultToken
  end.

Definition postVaultToken (vaultToken : option string) : M unit :=
  fun st =>
    (tt,
     {| fetchVaultToken_cache := fetchVaultToken_cache st;
        loginLog := loginLog st;
        evtVaultToken := vaultToken |}).

(** The handler [Evt.asyncPipe] attaches to [evtOidcAccessToken.evtChange]. *)
Definition onOidcAccessTokenChange (oidcAccessToken : option string) : M unit :=
  match oidcAccessToken with
  | None => postVaultToken None
  | Some oidcAccessToken =>
      vaultToken ← fetchVaultToken oidcAccessToken;
      postVaultToken (Some vaultToken)
  end.

Fixpoint onOidcAccessTokenChanges (changes : list (option string)) : M unit :=
  match changes with
  | [] => mret tt
  | change :: changes' =>
      onOidcAccessTokenChange change;; onOidcAccessTokenChanges changes'
  end.

Definition readVaultToken : M (option string) :=
  fun st => (evtVaultToken st, st).

(** [{ ...config, key: value }] on the keys outside [headers]. *)
Definition setKey (key value : string) (config : list (string * string))
    : list (string * string) :=
  List.filter (fun kv => negb (String.eqb (fst kv) key)) config ++ [(key, value)].

(** The request interceptor of the adapter's axios instance. The renewal of
    the OIDC token it awaits first shows here as the changes of the OIDC
    token it causes, [renewal]. [evtVaultToken.waitFor(nonNullable())] has no
    value to give while the state is [undefined]: the request is then not
    sent yet, [None]. *)
Definition requestInterceptor (renewal : list (option string))
    (axiosRequestConfig : RequestConfig) : M (option RequestConfig) :=
  onOidcAccessTokenChanges renewal;;
  state ← readVaultToken;
  mret (match state with
        | None => None
        | Some vaultToken =>
            Some {| method := method axiosRequestConfig;
                    url := url axiosRequestConfig;
                    params := params axiosRequestConfig;
                    data := data axiosRequestConfig;
                    headers := [("X-Vault-Token", vaultToken)];
                    extra :=
                      setKey "Accept" "application/json;charset=utf-8"
                        (setKey "Content-Type" "application/json;charset=utf-8"
                           (extra axiosRequestConfig)) |}
        end).

(** A round trip of the adapter goes through the interceptor: what is sent
    for it. *)
Definition send {R A} (renewal : list (option string)) (ex : Exchange R A)
    : M (option RequestConfig) :=
  requestInterceptor renewal (request ex).

(** The OIDC token a login request carries. *)
Definition jwtOf (req : RequestConfig) : option string :=
  match data req with
  | Some (LoginBody _ jwt) => Some jwt
  | _ => None
  end.

(** The vault token the backend returned for an OIDC token, if that token
    was exchanged. *)
Definition exchanged (log : list (RequestConfig * string))
    (oidcAccessToken : string) : option string :=
  snd <$> List.find
    (fun entry =>
       match jwtOf (fst entry) with
       | Some jwt => String.eqb jwt oidcAccessToken
       | None => false
       end) log.

(** How many login requests were sent for an OIDC token. *)
Definition exchangeCount (log : list (RequestConfig * string))
    (oidcAccessToken : string) : nat :=
  length (List.filter (fun entry => bool_decide (jwtOf (fst entry) = Some oidcAccessToken)) log).

Definition stateAfter (changes : list (option string)) (st : TokenState)
    : TokenState :=
  snd (onOidcAccessTokenChanges changes st).

(** What holds of the cache and of the log whatever the changes were. *)
Record Consistent (st : TokenState) : Prop := {
  cached_exchanged : forall t tok,
    fetchVaultToken_cache st !! t = Some tok -> exchanged (loginLog st) t = Some tok;
  uncached_not_sent : forall t,
    fetchVaultToken_cache st !! t = None -> exchangeCount (loginLog st) t = 0;
  sent_once : forall t, exchangeCount (loginLog st) t <= 1;
  sent_logins : forall n entry,
    loginLog st !! n = Some entry ->
    exists t, entry = (loginRequest t, loginResponse n (loginRequest t))
}.


Lemma exchanged_app log log' t :
  exchanged (log ++ log') t
  = match exchanged log t with
    | Some tok => Some tok
    | None => exchanged log' t
    end.
Proof.
  unfold exchanged. induction log as [|e log IH]; [reflexivity|].
  cbn [app List.find]. destruct (jwtOf (fst e)) as [jwt|]; [|exact IH].
  destruct (String.eqb jwt t); [reflexivity|exact IH].
Qed.

Lemma exchangeCount_app log log' t :
  exchangeCount (log ++ log') t = exchangeCount log t + exchangeCount log' t.
Proof. unfold exchangeCount. now rewrite List.filter_app, length_app. Qed.

Lemma exchangeCount_0_exchanged log t :
  exchangeCount log t = 0 -> exchanged log t = None.
Proof.
  unfold exchangeCount, exchanged. induction log as [|e log IH]; [reflexivity|].
  cbn [List.filter List.find]. destruct (jwtOf (fst e)) as [jwt|].
  - destruct (String.eqb_spec jwt t) as [->|Hne].
    + rewrite bool_decide_eq_true_2 by reflexivity. discriminate.
    + rewrite bool_decide_eq_false_2 by congruence. exact IH.
  - rewrite bool_decide_eq_false_2 by discriminate. exact IH.
Qed.


Lemma Consistent_initial : Consistent initialTokenState.
Proof.
  split; cbn [initialTokenState fetchVaultToken_cache loginLog].
  - intros t tok H. now rewrite lookup_empty in H.
  - reflexivity.
  - intros t. cbn. lia.
  - intros n entry H. now rewrite lookup_nil in H.
Qed.

(** The state after one change, case by case. *)
Lemma onOidcAccessTokenChange_None st :
  snd (onOidcAccessTokenChange None st)
  = {| fetchVaultToken_cache := fetchVaultToken_cache st;
       loginLog := loginLog st;
       evtVaultToken := None |}.
Proof. reflexivity. Qed.

Lemma onOidcAccessTokenChange_hit st t tok :
  fetchVaultToken_cache st !! t = Some tok ->
  snd (onOidcAccessTokenChange (Some t) st)
  = {| fetchVaultToken_cache := fetchVaultToken_cache st;
       loginLog := loginLog st;
       evtVaultToken := Some tok |}.
Proof.
  intros H. unfold onOidcAccessTokenChange, fetchVaultToken, cacheLookup.
  unfold mbind, M_bind. rewrite H. reflexivity.
Qed.

Lemma onOidcAccessTokenChange_miss st t :
  fetchVaultToken_cache st !! t = None ->
  let tok := loginResponse (length (loginLog st)) (loginRequest t) in
  snd (onOidcAccessTokenChange (Some t) st)
  = {| fetchVaultToken_cache := <[t := tok]> (fetchVaultToken_cache st);
       loginLog := loginLog st ++ [(loginRequest t, tok)];
       evtVaultToken := Some tok |}.
Proof.
  intros H. unfold onOidcAccessTokenChange, fetchVaultToken, cacheLookup.
  unfold mbind, M_bind. rewrite H. reflexivity.
Qed.

Lemma Consistent_frame st st' :
  fetchVaultToken_cache st' = fetchVaultToken_cache st ->
  loginLog st' = loginLog st ->
  Consistent st -> Consistent st'.
Proof.
  intros Hc Hl [I1 I2 I3 I4]. split; rewrite ?Hc, ?Hl; assumption.
Qed.

Lemma Consistent_change st change :
  Consistent st -> Consistent (snd (onOidcAccessTokenChange change st)).
Proof.
  intros Hst. destruct change as [t|].
  2:{ rewrite onOidcAccessTokenChange_None.
      now apply (Consistent_frame st). }
  destruct (fetchVaultToken_cache st !! t) as [tok|] eqn:Hc.
  { rewrite (onOidcAccessTokenChange_hit st t tok Hc).
    now apply (Consistent_frame st). }
  rewrite (onOidcAccessTokenChange_miss st t Hc). cbn zeta.
  destruct Hst as [I1 I2 I3 I4].
  pose proof (I2 t Hc) as Hzero.
  split; cbn [fetchVaultToken_cache loginLog].
  - intros t' tok'. rewrite exchanged_app.
    destruct (decide (t = t')) as [<-|Hne].
    + rewrite lookup_insert_eq. intros [= <-].
      rewrite (exchangeCount_0_exchanged _ _ Hzero).
      unfold exchanged. cbn. now rewrite String.eqb_refl.
    + rewrite lookup_insert_ne by exact Hne. intros H.
      now rewrite (I1 _ _ H).
  - intros t'. destruct (decide (t = t')) as [<-|Hne].
    + now rewrite lookup_insert_eq.
    + rewrite lookup_insert_ne by exact Hne. intros H.
      rewrite exchangeCount_app, (I2 _ H). unfold exchangeCount. cbn.
      rewrite bool_decide_eq_false_2 by congruence. reflexivity.
  - intros t'. rewrite exchangeCount_app.
    destruct (decide (t = t')) as [<-|Hne].
    + rewrite Hzero. unfold exchangeCount. cbn.
      rewrite bool_decide_eq_true_2 by reflexivity. cbn. lia.
    + specialize (I3 t'). unfold exchangeCount at 2. cbn.
      rewrite bool_decide_eq_false_2 by congruence. cbn. lia.
  - intros n entry H. apply lookup_snoc_Some in H as [[_ H]|[-> <-]].
    + now apply I4.
    + now exists t.
Qed.

Lemma stateAfter_cons change changes st :
  stateAfter (change :: changes) st
  = stateAfter changes (snd (onOidcAccessTokenChange change st)).
Proof.
  unfold stateAfter. cbn [onOidcAccessTokenChanges].
  unfold mbind, M_bind. now destruct (onOidcAccessTokenChange change st).
Qed.

Lemma stateAfter_app changes changes' : forall st,
  stateAfter (changes ++ changes') st = stateAfter changes' (stateAfter changes st).
Proof.
  induction changes as [|c changes IH]; intros st; [reflexivity|].
  cbn [app]. now rewrite !stateAfter_cons, IH.
Qed.

Lemma Consistent_stateAfter changes : forall st,
  Consistent st -> Consistent (stateAfter changes st).
Proof.
  induction changes as [|c changes IH]; intros st Hst; [exact Hst|].
  rewrite stateAfter_cons. apply IH, Consistent_change, Hst.
Qed.


Lemma requestInterceptor_eq renewal axiosRequestConfig st :
  requestInterceptor renewal axiosRequestConfig st
  = (match evtVaultToken (stateAfter renewal st) with
     | None => None
     | Some vaultToken =>
         Some {| method := method axiosRequestConfig;
                 url := url axiosRequestConfig;
                 params := params axiosRequestConfig;
                 data := data axiosRequestConfig;
                 headers := [("X-Vault-Token", vaultToken)];
                 extra :=
                   setKey "Accept" "application/json;charset=utf-8"
                     (setKey "Content-Type" "application/json;charset=utf-8"
                        (extra axiosRequestConfig)) |}
     end, stateAfter renewal st).
Proof.
  unfold requestInterceptor, stateAfter, mbind, M_bind.
  destruct (onOidcAccessTokenChanges renewal st) as [[] st']. reflexivity.
Qed.


(** What is sent for a round trip of the adapter has the vault token as its
    only header. *)
Lemma send_headers {R A} renewal (ex : Exchange R A) st sent :
  fst (send renewal ex st) = Some sent ->
  exists vaultToken,
    evtVaultToken (snd (send renewal ex st)) = Some vaultToken /\
    headers sent = [("X-Vault-Token", vaultToken)] /\
    url sent = url (request ex) /\ method sent = method (request ex).
Proof.
  unfold send. rewrite requestInterceptor_eq. cbn [fst snd].
  destruct (evtVaultToken (stateAfter renewal st)) as [vaultToken|];
    [|discriminate].
  intros [= <-]. now exists vaultToken.
Qed.


(** *** More on the token exchange *)

Lemma cache_kept change st t tok :
  fetchVaultToken_cache st !! t = Some tok ->
  fetchVaultToken_cache (snd (onOidcAccessTokenChange change st)) !! t = Some tok.
Proof.
  intros H. destruct change as [t'|]; [|exact H].
  destruct (fetchVaultToken_cache st !! t') as [tok'|] eqn:E.
  - now rewrite (onOidcAccessTokenChange_hit st t' tok' E).
  - rewrite (onOidcAccessTokenChange_miss st t' E). cbn.
    rewrite lookup_insert_ne; [exact H|]. intros ->. congruence.
Qed.

Lemma cache_kept_stateAfter changes : forall st t tok,
  fetchVaultToken_cache st !! t = Some tok ->
  fetchVaultToken_cache (stateAfter changes st) !! t = Some tok.
Proof.
  induction changes as [|c changes IH]; intros st t tok H; [exact H|].
  rewrite stateAfter_cons. now apply IH, cache_kept.
Qed.

Lemma change_cached st t :
  exists tok,
    fetchVaultToken_cache (snd (onOidcAccessTokenChange (Some t) st)) !! t = Some tok /\
    evtVaultToken (snd (onOidcAccessTokenChange (Some t) st)) = Some tok.
Proof.
  destruct (fetchVaultToken_cache st !! t) as [tok|] eqn:E.
  - rewrite (onOidcAccessTokenChange_hit st t tok E). now exists tok.
  - rewrite (onOidcAccessTokenChange_miss st t E). cbn. eexists.
    split; [apply lookup_insert_eq|reflexivity].
Qed.

Lemma stateAfter_nil st : stateAfter [] st = st.
Proof. reflexivity. Qed.

Lemma exchanged_sent log t tok :
  exchanged log t = Some tok -> 1 <= exchangeCount log t.
Proof.
  unfold exchanged, exchangeCount. induction log as [|e log IH]; [discriminate|].
  cbn [List.find List.filter]. destruct (jwtOf (fst e)) as [jwt|].
  - destruct (String.eqb_spec jwt t) as [->|Hne].
    + intros _. rewrite bool_decide_eq_true_2 by reflexivity. cbn. lia.
    + intros H. specialize (IH H). destruct (bool_decide _); cbn; lia.
  - intros H. specialize (IH H). destruct (bool_decide _); cbn; lia.
Qed.

(** Once an OIDC token was exchanged, whatever happens to the OIDC token
    in between, its coming back brings back the vault token of the first
    exchange and sends no login: the log is after it what it was before it,
    and holds one login for the token, the first. A vault token is never
    renewed for the same OIDC token. *)
Theorem vaultToken_never_renewed (changes changes' : list (option string))
    (t : string) :
  let st1 := stateAfter (changes ++ [Some t]) initialTokenState in
  let between := stateAfter changes' st1 in
  let st2 := stateAfter (changes' ++ [Some t]) st1 in
  is_Some (evtVaultToken st1) /\
  evtVaultToken st2 = evtVaultToken st1 /\
  exchanged (loginLog st2) t = evtVaultToken st1 /\
  loginLog st2 = loginLog between /\
  exchangeCount (loginLog st1) t = 1 /\
  exchangeCount (loginLog st2) t = 1.
Proof.
  cbn zeta. rewrite !stateAfter_app, !stateAfter_cons, !stateAfter_nil.
  set (st0 := stateAfter changes initialTokenState).
  assert (Hst0 : Consistent st0)
    by apply Consistent_stateAfter, Consistent_initial.
  destruct (change_cached st0 t) as (tok & Hcache & Hevt).
  set (st1 := snd (onOidcAccessTokenChange (Some t) st0)) in *.
  assert (Hst1 : Consistent st1) by now apply Consistent_change.
  pose proof (cache_kept_stateAfter changes' st1 t tok Hcache) as Hkept.
  set (st1' := stateAfter changes' st1) in *.
  assert (Hst1' : Consistent st1') by now apply Consistent_stateAfter.
  rewrite (onOidcAccessTokenChange_hit st1' t tok Hkept), Hevt.
  cbn [evtVaultToken loginLog]. split; [now eexists|]. split; [reflexivity|].
  split; [now apply (cached_exchanged st1' Hst1')|]. split; [reflexivity|].
  split.
  - pose proof (sent_once st1 Hst1 t).
    pose proof (exchanged_sent _ _ _ (cached_exchanged st1 Hst1 _ _ Hcache)). lia.
  - pose proof (sent_once st1' Hst1' t).
    pose proof (exchanged_sent _ _ _ (cached_exchanged st1' Hst1' _ _ Hkept)). lia.
Qed.

(** The OIDC tokens seen in a sequence of changes. *)
Definition tokensSeen (changes : list (option string)) : gset string :=
  list_to_set (omap id changes).

Lemma logins_count_step change st :
  length (loginLog st) = size (dom (fetchVaultToken_cache st)) ->
  let st' := snd (onOidcAccessTokenChange change st) in
  length (loginLog st') = size (dom (fetchVaultToken_cache st')) /\
  dom (fetchVaultToken_cache st')
  = dom (fetchVaultToken_cache st) ∪ tokensSeen [change].
Proof.
  intros H. cbn zeta. destruct change as [t|].
  2:{ rewrite onOidcAccessTokenChange_None. cbn. split; [exact H|].
      unfold tokensSeen. cbn. set_solver. }
  destruct (fetchVaultToken_cache st !! t) as [tok|] eqn:E.
  - rewrite (onOidcAccessTokenChange_hit st t tok E). cbn.
    split; [exact H|]. unfold tokensSeen. cbn.
    assert (t ∈ dom (fetchVaultToken_cache st)) by (apply elem_of_dom; eauto).
    set_solver.
  - rewrite (onOidcAccessTokenChange_miss st t E). cbn.
    assert (Hnot : t ∉ dom (fetchVaultToken_cache st)) by now apply not_elem_of_dom.
    rewrite dom_insert_L. split.
    + rewrite length_app, size_union by set_solver.
      rewrite size_singleton, H. cbn. lia.
    + unfold tokensSeen. cbn. set_solver.
Qed.

Lemma logins_count_steps changes : forall st,
  length (loginLog st) = size (dom (fetchVaultToken_cache st)) ->
  let st' := stateAfter changes st in
  length (loginLog st') = size (dom (fetchVaultToken_cache st')) /\
  dom (fetchVaultToken_cache st')
  = dom (fetchVaultToken_cache st) ∪ tokensSeen changes.
Proof.
  induction changes as [|c changes IH]; intros st H; cbn zeta.
  - change (stateAfter [] st) with st. split; [exact H|].
    unfold tokensSeen. cbn. set_solver.
  - rewrite stateAfter_cons.
    destruct (logins_count_step c st H) as [H1 H2].
    destruct (IH _ H1) as [H3 H4]. split; [exact H3|].
    rewrite H4, H2. unfold tokensSeen. destruct c; cbn; set_solver.
Qed.

(** After any sequence of changes, as many logins were sent as there are
    different OIDC tokens in the sequence: changing back and forth between
    tokens already seen, or to [undefined], sends nothing. *)
Theorem one_login_per_token (changes : list (option string)) :
  length (loginLog (stateAfter changes initialTokenState))
  = size (tokensSeen changes).
Proof.
  destruct (logins_count_steps changes initialTokenState) as [H1 H2].
  { cbn. now rewrite dom_empty_L, size_empty. }
  cbn zeta in H1, H2. rewrite H1, H2. cbn [initialTokenState fetchVaultToken_cache].
  rewrite dom_empty_L. f_equal. set_solver.
Qed.

End Token.

(** *** The texts of results: [get.fmtResult] *)

Section FmtResult.
Variable JSON_stringify : Value -> string.

(** [typeof value === "string" ? value : JSON.stringify(value)] *)
Definition valueText (value : Value) : string :=
  match value with
  | VString s => s
  | _ => JSON_stringify value
  end.

(** The lines [get.fmtResult] joins with a newline. *)
Definition get_fmtResult_lines (secret : Secret) : list string :=
  let n :=
    (fun longest => longest + 2)
    <$> Math_max (map (fun entry => utf16_length (fst entry)) secret) in
  "==== Data ===="
  :: (padEnd "Key" n +:+ "Value")
  :: (padEnd "---" n +:+ "-----")
  :: map (fun entry => padEnd (fst entry) n +:+ valueText (snd entry)) secret.

Definition get_fmtResult (secretWithMetadata : SecretWithMetadata) : string :=
  join (str newline) (get_fmtResult_lines (secret secretWithMetadata)).

(** The table of a secret has three lines of heading and one line per
    entry. Lengths are those of JavaScript, in UTF-16 code units. Every
    entry's key is padded with spaces to the length of the longest key plus
    two, so that every value starts in the same column; [Key] and [---] are
    padded to that length too, and are left as they are when it is below
    three, that is when every key is empty. For a secret without entries,
    where the length is [-Infinity], nothing is padded. *)
Theorem get_fmtResult_columns (secret : Secret) :
  let lines := get_fmtResult_lines secret in
  let width := list_max (map (fun entry => utf16_length (fst entry)) secret) + 2 in
  length lines = 3 + length secret /\
  (secret = [] -> lines = ["==== Data ===="; "KeyValue"; "--------"]) /\
  (forall i key value, secret !! i = Some (key, value) ->
     exists pad,
       lines !! (3 + i) = Some (key +:+ spaces pad +:+ valueText value) /\
       utf16_length key + pad = width /\
       utf16_length (key +:+ spaces pad) = width) /\
  (secret <> [] ->
   lines !! 1 = Some ("Key" +:+ spaces (width - 3) +:+ "Value") /\
   lines !! 2 = Some ("---" +:+ spaces (width - 3) +:+ "-----")).
Proof.
  cbn zeta. unfold get_fmtResult_lines.
  split; [cbn [length]; now rewrite length_map|].
  split; [now intros ->|].
  set (lengths := map (fun entry => utf16_length (fst entry)) secret).
  split.
  - intros i key value Hi. unfold Secret in Hi.
    assert (Hle : utf16_length key <= list_max lengths).
    { assert (Hall : Forall (fun k => k <= list_max lengths) lengths)
        by now apply list_max_le.
      rewrite Forall_lookup in Hall. apply (Hall i).
      unfold lengths. now rewrite lookup_map, Hi. }
    exists (list_max lengths + 2 - utf16_length key).
    split; [|split; [lia|rewrite utf16_length_append, utf16_length_spaces; lia]].
    rewrite lookup_skip3, lookup_map, Hi. cbn [fmap option_fmap option_map fst snd].
    destruct secret as [|entry secret']; [now rewrite lookup_nil in Hi|].
    unfold lengths. cbn [map Math_max]. cbn [fmap option_fmap option_map padEnd].
    now rewrite append_assoc.
  - intros Hne. destruct secret as [|entry secret']; [congruence|].
    unfold lengths in *. cbn [map Math_max fmap option_fmap option_map padEnd].
    change (utf16_length "Key") with 3. change (utf16_length "---") with 3.
    cbn [lookup list_lookup]. now rewrite !append_assoc.
Qed.

End FmtResult.

End Client.

Arguments VNull {number}.
Arguments VString {number}.
Arguments VBoolean {number}.
Arguments request {number R A}.
Arguments onResponse {number R A}.


Example put_buildCmd_example :
  put_buildCmd (number := Z) (fun n => "1") (fun _ => "[]") "onyxia-kv" "jdoe/db"
    [("user", VString ("j" +:+ str dquote +:+ "doe")); ("port", VNumber 1%Z);
     ("tls", VBoolean true); ("hosts", VArray [])]
  = "vault kv put onyxia-kv/jdoe/db \" +:+ str newline
    +:+ "user=" +:+ str dquote +:+ "j\" +:+ str dquote +:+ "doe" +:+ str dquote
    +:+ " \" +:+ str newline
    +:+ "port=1 \" +:+ str newline
    +:+ "tls=true \" +:+ str newline
    +:+ "hosts=-<<EOF" +:+ str newline
    +:+ "heredoc > []" +:+ str newline
    +:+ "heredoc> EOF".
Proof. reflexivity. Qed.

(** With [..] in the path the two joins are normalized apart: the command
    leaves the engine, the adapter leaves [data]. *)
Remark buildCmd_dotdot_path :
  get_buildCmd "secret" "../x" = "vault kv get x" /\
  ctxPathJoin "secret" ["data"; "../x"] = "v1/secret/x".
Proof. split; reflexivity. Qed.




Example get_fmtResult_example :
  get_fmtResult (number := Z) (Metadata := unit) (fun _ => "8080")
    {| secret := [("user", VString "jdoe"); ("port", VNumber 8080%Z)]; metadata := tt |}
  = "==== Data ====" +:+ str newline
    +:+ "Key   Value" +:+ str newline
    +:+ "---   -----" +:+ str newline
    +:+ "user  jdoe" +:+ str newline
    +:+ "port  8080".
Proof. reflexivity. Qed.

(** A key with an accent: [e] with an acute accent is two bytes of UTF-8
    and one code unit, so the longest key has length three and every key is
    padded to length five. *)
Example get_fmtResult_accent :
  let cle := "cl" +:+ String (ascii_of_nat 195) (String (ascii_of_nat 169) EmptyString) in
  utf16_length cle = 3 /\
  get_fmtResult_lines (number := Z) (fun _ => "0")
    [(cle, VString "a"); ("ab", VString "b")]
  = [ "==== Data ====";
      "Key  Value";
      "---  -----";
      cle +:+ "  a";
      "ab   b" ].
Proof. split; reflexivity. Qed.

(** Reading and writing [jdoe/db]. *)
Lemma adapter_urls_separate_witness :
  adapterUrl (number := Z) (Metadata := unit) "onyxia-kv" OpGet "jdoe/db" []
  = adapterUrl (number := Z) (Metadata := unit) "onyxia-kv" OpPut "jdoe/db"
      [("user", VString "jdoe")]
  <-> "jdoe/db" = "jdoe/db" /\ (OpGet = OpList <-> OpPut = OpList).
Proof.
  refine (adapter_urls_separate (number := Z) (Metadata := unit) "onyxia-kv"
            OpGet OpPut "jdoe/db" "jdoe/db" [] [("user", VString "jdoe")] _ _ _);
    reflexivity.
Defined.

Lemma renderValue_VString_inj_witness : "jdoe" = "jdoe".
Proof.
  refine (renderValue_VString_inj (number := Z) (fun _ => "0") (fun _ => "{}")
            "jdoe" "jdoe" _).
  reflexivity.
Defined.

End Vault.

(** ** SearchBar.tsx: the search bar component *)

Module SearchBar.

(** The two [useState] cells of the component. *)
Record State := { isActive : bool; search : string }.

Definition initialState : State :=
  {| isActive := false; search := EmptyString |}.

(** What a handler does besides setting state. *)
Inductive Effect :=
| CallOnSearchChange (search : string)
| Focus
| SetSelectionRange (from to : nat).

(** The handlers the component hands to React and to [useClickAway]. *)
Inductive Event :=
| ClearButtonClick
| RootClick
| IconClick
| InputChange (value : string)
| InputKeyDown (key : string)
| ClickAway.

Definition setSearch (value : string) (st : State) : State :=
  {| isActive := isActive st; search := value |}.

Definition setIsActive (value : bool) (st : State) : State :=
  {| isActive := value; search := search st |}.

(** The [input] element is mounted, and [inputRef.current] is it, exactly
    in the active rendering. *)
Definition inputMounted (st : State) : bool := isActive st.

Definition onClearButtonClick (st : State) : State * list Effect :=
  (setSearch EmptyString st, if inputMounted st then [Focus] else []).

Definition onRootClick (st : State) : State * list Effect :=
  (setIsActive true st, []).

Definition onIconClick (st : State) : State * list Effect :=
  if inputMounted st
  then (st, [Focus; SetSelectionRange 0 (JS.utf16_length (search st))])
  else (st, []).

Definition onInputChange (value : string) (st : State) : State * list Effect :=
  (setSearch value st, [CallOnSearchChange value]).

(** The handler reads [search] as it was rendered: the [setSearch] of the
    Escape case does not show in the test that follows it. *)
Definition onInputKeyDown (eventKey : string) (st : State) : State * list Effect :=
  let key :=
    if String.eqb eventKey "Escape" || String.eqb eventKey "Enter"
    then eventKey else "irrelevant" in
  if String.eqb key "irrelevant" then (st, [])
  else
    let st1 := if String.eqb key "Escape" then setSearch EmptyString st else st in
    if negb (String.eqb (search st) EmptyString) then (st1, [])
    else (setIsActive false st1, []).

Definition onClickAway (st : State) : State * list Effect :=
  if negb (String.eqb (search st) EmptyString) then (st, [])
  else (setIsActive false st, []).

Definition handle (ev : Event) (st : State) : State * list Effect :=
  match ev with
  | ClearButtonClick => onClearButtonClick st
  | RootClick => onRootClick st
  | IconClick => onIconClick st
  | InputChange value => onInputChange value st
  | InputKeyDown key => onInputKeyDown key st
  | ClickAway => onClickAway st
  end.

(** What is on screen decides which handlers can fire: the input and the
    clear button exist in the active rendering only, and the button is
    disabled while the text is empty. *)
Definition canFire (st : State) (ev : Event) : bool :=
  match ev with
  | ClearButtonClick => isActive st && negb (String.eqb (search st) EmptyString)
  | InputChange _ | InputKeyDown _ => isActive st
  | RootClick | IconClick | ClickAway => true
  end.

(** Runs of the component: the events handled, the state reached and the
    effects caused, oldest first. *)
Inductive run : State -> list Event -> State -> list Effect -> Prop :=
| run_done st : run st [] st []
| run_step st ev st1 effs evs st2 effs' :
    canFire st ev = true ->
    handle ev st = (st1, effs) ->
    run st1 evs st2 effs' ->
    run st (ev :: evs) st2 (effs ++ effs').

(** The values the parent was notified of. *)
Fixpoint notified (effs : list Effect) : list string :=
  match effs with
  | [] => []
  | CallOnSearchChange value :: effs' => value :: notified effs'
  | _ :: effs' => notified effs'
  end.

(** The values typed in the input. *)
Fixpoint typed (evs : list Event) : list string :=
  match evs with
  | [] => []
  | InputChange value :: evs' => value :: typed evs'
  | _ :: evs' => typed evs'
  end.

Lemma notified_app effs effs' :
  notified (effs ++ effs') = notified effs ++ notified effs'.
Proof.
  induction effs as [|[] effs IH]; cbn [app notified]; [reflexivity| |exact IH|exact IH].
  now rewrite IH.
Qed.

Lemma handle_notified ev st :
  notified (snd (handle ev st))
  = match ev with InputChange value => [value] | _ => [] end.
Proof.
  destruct ev; cbn [handle]; try reflexivity.
  - unfold onClearButtonClick. now destruct (inputMounted st).
  - unfold onIconClick. now destruct (inputMounted st).
  - unfold onInputKeyDown.
    repeat match goal with |- context [if ?b then _ else _] => destruct b end;
      reflexivity.
  - unfold onClickAway. now destruct (negb _).
Qed.

Lemma run_notified st evs st' effs :
  run st evs st' effs -> notified effs = typed evs.
Proof.
  induction 1 as [|st ev st1 effs evs st2 effs' Hfire Hhandle Hrun IH];
    [reflexivity|].
  rewrite notified_app, IH.
  pose proof (handle_notified ev st) as Hn. rewrite Hhandle in Hn.
  cbn [snd] in Hn. rewrite Hn. now destruct ev.
Qed.

(** C10. [onSearchChange] is called from input change events only: in every
    run the parent was notified of exactly the values typed, in order.
    Clearing the text with the clear button or with the Escape key sets the
    local text to the empty string without notifying the parent, so that
    after typing [abc] and clearing, the text shown is empty while the last
    value the parent heard of is [abc]. *)
Theorem onSearchChange_only_on_input_change :
  (forall st evs st' effs, run st evs st' effs -> notified effs = typed evs) /\
  (forall ev st value,
     In (CallOnSearchChange value) (snd (handle ev st)) -> ev = InputChange value) /\
  (forall st, search (fst (handle ClearButtonClick st)) = EmptyString /\
              notified (snd (handle ClearButtonClick st)) = []) /\
  (forall st, search (fst (handle (InputKeyDown "Escape") st)) = EmptyString /\
              notified (snd (handle (InputKeyDown "Escape") st)) = []) /\
  (exists st effs,
     run initialState [RootClick; InputChange "abc"; ClearButtonClick] st effs /\
     search st = EmptyString /\
     List.last (notified effs) EmptyString = "abc") /\
  (exists st effs,
     run initialState [RootClick; InputChange "abc"; InputKeyDown "Escape"] st effs /\
     search st = EmptyString /\
     List.last (notified effs) EmptyString = "abc").
Proof.
  split; [exact run_notified|]. split; [|split; [|split; [|split]]].
  - intros ev st value Hin.
    assert (Hn : In value (notified (snd (handle ev st)))).
    { induction (snd (handle ev st)) as [|eff effs IH]; [contradiction|].
      destruct Hin as [->|Hin]; [now left|].
      destruct eff; cbn [notified]; [right| |]; now apply IH. }
    rewrite handle_notified in Hn.
    destruct ev; try contradiction. destruct Hn as [->|[]]. reflexivity.
  - intros st. split; [reflexivity|apply (handle_notified ClearButtonClick)].
  - intros st. split; [|apply (handle_notified (InputKeyDown "Escape"))].
    cbn. now destruct (negb _).
  - eexists. eexists. split; [|split].
    + eapply run_step; [reflexivity|reflexivity|].
      eapply run_step; [reflexivity|reflexivity|].
      eapply run_step; [reflexivity|reflexivity|].
      apply run_done.
    + reflexivity.
    + reflexivity.
  - eexists. eexists. split; [|split].
    + eapply run_step; [reflexivity|reflexivity|].
      eapply run_step; [reflexivity|reflexivity|].
      eapply run_step; [reflexivity|reflexivity|].
      apply run_done.
    + reflexivity.
    + reflexivity.
Qed.

(** Typing [abc] in the opened bar. *)
Lemma onSearchChange_only_on_input_change_witness :
  notified [CallOnSearchChange "abc"] = typed [RootClick; InputChange "abc"].
Proof.
  apply (proj1 onSearchChange_only_on_input_change initialState _
           {| isActive := true; search := "abc" |}).
  change [CallOnSearchChange "abc"] with ([] ++ [CallOnSearchChange "abc"] ++ []).
  eapply run_step; [reflexivity|reflexivity|].
  eapply run_step; [reflexivity|reflexivity|].
  apply run_done.
Defined.

(** *** More on the handlers *)

(** The state after an event. *)
Definition next (ev : Event) (st : State) : State := fst (handle ev st).

Lemma isEmptyText_spec s : String.eqb s EmptyString = false <-> s <> EmptyString.
Proof. destruct (String.eqb_spec s EmptyString); split; congruence. Qed.

(** One event keeps "a bar that holds text is open". *)
Lemma handle_keeps_text_visible ev st :
  canFire st ev = true ->
  (search st <> EmptyString -> isActive st = true) ->
  search (next ev st) <> EmptyString -> isActive (next ev st) = true.
Proof.
  unfold next. intros Hfire Hinv.
  destruct ev; cbn [handle canFire] in *.
  - intros H. now elim H.
  - reflexivity.
  - unfold onIconClick. destruct (inputMounted st); exact Hinv.
  - intros _. exact Hfire.
  - unfold onInputKeyDown.
    destruct (String.eqb key "Escape" || String.eqb key "Enter");
      [|cbn; exact Hinv].
    destruct (String.eqb key "irrelevant"); [exact Hinv|].
    destruct (String.eqb (search st) EmptyString) eqn:E; cbn [negb fst].
    + apply String.eqb_eq in E.
      destruct (String.eqb key "Escape"); cbn; intros H; now elim H.
    + destruct (String.eqb key "Escape"); cbn; [intros H; now elim H|exact Hinv].
  - unfold onClickAway.
    destruct (String.eqb (search st) EmptyString) eqn:E; cbn [negb fst].
    + apply String.eqb_eq in E. cbn. intros H. now elim H.
    + exact Hinv.
Qed.

(** In every run of the component from its initial state, a bar that holds
    text is open: the input that shows the text is mounted. *)
Theorem text_is_never_hidden evs st effs :
  run initialState evs st effs ->
  search st <> EmptyString -> isActive st = true.
Proof.
  assert (H : forall st0 evs st effs, run st0 evs st effs ->
            (search st0 <> EmptyString -> isActive st0 = true) ->
            search st <> EmptyString -> isActive st = true).
  { clear. induction 1 as [|st0 ev st1 effs evs st2 effs' Hfire Hhandle Hrun IH];
      [auto|].
    intros Hinv. apply IH.
    pose proof (handle_keeps_text_visible ev st0 Hfire Hinv) as Hstep.
    unfold next in Hstep. now rewrite Hhandle in Hstep. }
  intros Hrun. apply (H _ _ _ _ Hrun). intros Hne. now elim Hne.
Qed.

(** The bar closes only on a click away, Enter or Escape, and only when its
    text was empty; no other handler and no non-empty text lets it close. *)
Theorem closes_only_when_empty ev st :
  isActive st = true -> isActive (next ev st) = false ->
  search st = EmptyString /\
  (ev = ClickAway \/ ev = InputKeyDown "Enter" \/ ev = InputKeyDown "Escape").
Proof.
  unfold next. intros Hact.
  destruct ev; cbn [handle].
  - cbn. congruence.
  - cbn. discriminate.
  - unfold onIconClick. destruct (inputMounted st); cbn; congruence.
  - cbn. congruence.
  - unfold onInputKeyDown.
    destruct (String.eqb_spec key "Escape") as [->|Hesc].
    + cbn [orb]. cbn [String.eqb Ascii.eqb Bool.eqb andb].
      destruct (String.eqb_spec (search st) EmptyString) as [E|E]; cbn; [auto|congruence].
    + destruct (String.eqb_spec key "Enter") as [->|Hent].
      * cbn [orb]. cbn [String.eqb Ascii.eqb Bool.eqb andb].
        destruct (String.eqb_spec (search st) EmptyString) as [E|E]; cbn; [auto|congruence].
      * cbn. congruence.
  - unfold onClickAway.
    destruct (String.eqb_spec (search st) EmptyString) as [E|E]; cbn; [auto|congruence].
Qed.

(** Escape with text in the bar clears the text and leaves the bar open; it
    closes the bar exactly when the text was already empty. Two Escapes in a
    row always end with an empty, closed bar. *)
Theorem escape_clears_then_closes st :
  let st1 := next (InputKeyDown "Escape") st in
  let st2 := next (InputKeyDown "Escape") st1 in
  search st1 = EmptyString /\
  isActive st1 = isActive st && negb (String.eqb (search st) EmptyString) /\
  st2 = {| isActive := false; search := EmptyString |}.
Proof.
  cbn zeta. unfold next. destruct st as [active shown]. cbn.
  destruct (String.eqb shown EmptyString); cbn;
    rewrite ?andb_true_r, ?andb_false_r; repeat split; reflexivity.
Qed.

(** The bar after opening it and typing [abc]. *)
Lemma text_is_never_hidden_witness :
  isActive {| isActive := true; search := "abc" |} = true.
Proof.
  refine (text_is_never_hidden [RootClick; InputChange "abc"]
            {| isActive := true; search := "abc" |}
            ([] ++ [CallOnSearchChange "abc"] ++ []) _ _).
  - eapply run_step; [reflexivity|reflexivity|].
    eapply run_step; [reflexivity|reflexivity|].
    apply run_done.
  - discriminate.
Defined.

(** A click away from the open, empty bar. *)
Lemma closes_only_when_empty_witness :
  search {| isActive := true; search := EmptyString |} = EmptyString /\
  (ClickAway = ClickAway \/ ClickAway = InputKeyDown "Enter"
   \/ ClickAway = InputKeyDown "Escape").
Proof.
  apply (closes_only_when_empty ClickAway {| isActive := true; search := EmptyString |});
    reflexivity.
Defined.

End SearchBar.

(** ** usecases/index.ts *)

Module Usecases.

(** The statements of the file. *)
Inductive Statement :=
| ImportNamespace (binding from : string)
    (** [import * as binding from "from"] *)
| ExportConst (name : string) (properties : list (string * string))
    (** [export const name = { key, ... }]: each shorthand property, with the
        binding it reads *).

(** A shorthand property [key] reads the binding of that name. *)
Definition shorthand (key : string) : string * string := (key, key).

Definition index_ts : list Statement :=
  [ ImportNamespace "catalog" "./catalog";
    ImportNamespace "deploymentRegionManagement" "./deploymentRegionManagement";
    ImportNamespace "fileExplorer" "./fileExplorer";
    ImportNamespace "secretExplorer" "./secretExplorer";
    ImportNamespace "launcher" "./launcher";
    ImportNamespace "publicIp" "./publicIp";
    ImportNamespace "restorableConfigManagement" "./restorableConfigManagement";
    ImportNamespace "serviceManagement" "./serviceManagement";
    ImportNamespace "userAuthentication" "./userAuthentication";
    ImportNamespace "userConfigs" "./userConfigs";
    ImportNamespace "secretsEditor" "./secretsEditor";
    ImportNamespace "s3Credentials" "./s3Credentials";
    ImportNamespace "k8sCredentials" "./k8sCredentials";
    ImportNamespace "vaultCredentials" "./vaultCredentials";
    ImportNamespace "userAccountManagement" "./userAccountManagement";
    ImportNamespace "sqlOlapShell" "./sqlOlapShell";
    ImportNamespace "dataExplorer" "./dataExplorer";
    ImportNamespace "projectManagement" "./projectManagement";
    ExportConst "usecases"
      (map shorthand
         [ "catalog"; "deploymentRegionManagement"; "fileExplorer";
           "secretExplorer"; "launcher"; "publicIp";
           "restorableConfigManagement"; "serviceManagement";
           "userAuthentication"; "userConfigs"; "secretsEditor";
           "s3Credentials"; "k8sCredentials"; "vaultCredentials";
           "userAccountManagement"; "sqlOlapShell"; "dataExplorer";
           "projectManagement" ]) ].

(** The namespace bindings in scope, with the module each one names. *)
Fixpoint imports (file : list Statement) : list (string * string) :=
  match file with
  | [] => []
  | ImportNamespace binding from :: file' => (binding, from) :: imports file'
  | _ :: file' => imports file'
  end.

(** The exported objects: each key with the module its value is the
    namespace of, [None] for a key whose binding is not imported. *)
Fixpoint lookupBinding (bindings : list (string * string)) (binding : string)
    : option string :=
  match bindings with
  | [] => None
  | (b, from) :: bindings' =>
      if String.eqb b binding then Some from else lookupBinding bindings' binding
  end.

Fixpoint exports (file : list Statement) (scope : list (string * string))
    : list (string * list (string * option string)) :=
  match file with
  | [] => []
  | ExportConst name properties :: file' =>
      (name, map (fun p => (fst p, lookupBinding scope (snd p))) properties)
      :: exports file' scope
  | _ :: file' => exports file' scope
  end.

(** The object [usecases] as the file exports it. *)
Definition usecases : list (string * option string) :=
  match exports index_ts (imports index_ts) with
  | (_, object) :: _ => object
  | [] => []
  end.

(** C7. The file exports one object, [usecases]; its keys are exactly the
    names under which the file imports modules, each once and in the order of
    the imports, and the value under a key is the namespace of the module
    imported under that name. There are eighteen of them, and the file has
    no statement besides these imports and this export. *)
Theorem usecases_are_the_imports :
  map fst (exports index_ts (imports index_ts)) = ["usecases"] /\
  map fst usecases = map fst (imports index_ts) /\
  map snd usecases = map (fun i => Some (snd i)) (imports index_ts) /\
  NoDup (map fst usecases) /\
  length usecases = 18 /\
  Forall (fun statement =>
            match statement with
            | ImportNamespace binding from => from = "./" +:+ binding
            | ExportConst name _ => name = "usecases"
            end) index_ts.
Proof.
  split; [reflexivity|]. split; [reflexivity|]. split; [reflexivity|].
  split; [|split; [reflexivity|]].
  - apply (bool_decide_unpack _). vm_compute. exact I.
  - repeat constructor.
Qed.

End Usecases.

(** ** The launcher thunks *)

Module Launcher.
Import JS.

(** *** Thrown errors *)

Inductive Error := AssertionError | TypeError | SyntaxError.

Inductive Outcome (A : Type) :=
| Returned (a : A)
| Thrown (e : Error).
Arguments Returned {A}.
Arguments Thrown {A}.

Section FormFields.

(** JavaScript numbers are carried and printed, never computed on: their
    type and [String(n)] are left abstract, as are [yaml.stringify],
    regular expressions and the thunk
    [restorableConfigManager.protectedThunks.getIsRestorableConfigSaved],
    which answers from the store. *)
Context {number : Type}.
Variable String_of_number : number -> string.

Inductive JSONValue :=
| JNull
| JBoolean (b : bool)
| JNumber (n : number)
| JString (s : string)
| JArray (items : list JSONValue)
| JObject (entries : list (string * JSONValue)).

Variable yaml_stringify : option JSONValue -> string.

(** [new RegExp(pattern)] answers [None] when the pattern is not a regular
    expression: the constructor then throws a [SyntaxError].
    [RegExp_test regExp s] is [regExp.test(s)]. *)
Context {RegExp : Type}.
Variable RegExp_new : string -> option RegExp.
Variable RegExp_test : RegExp -> string -> bool.

(** [FormFieldValue]: a path in the values and the value there. *)
Inductive Value :=
| VString (s : string)
| VBoolean (b : bool)
| VNumber (n : number)
| VYaml (yamlStr : string).

Record FormFieldValue := { path : list string; value : Value }.

Variable getIsRestorableConfigSaved :
  string -> string -> string -> list FormFieldValue -> bool.

(** *** The values schema *)

Record XOnyxia := { xo_hidden : option bool; readonly : option bool }.

Record XSecurity := { xs_pattern : option string }.

(** [hidden]: a boolean, or the value of another field, whose path is
    written with [/]. *)
Inductive SchemaHidden :=
| SHBoolean (b : bool)
| SHWhen (path : string) (value : Value).

(** The keys the walk reads on a node of the schema; [None] is an absent
    key. *)
Record JSONSchemaFormFieldDescription := {
  type_ : string;
  title : option string;
  description : option string;
  x_onyxia : option XOnyxia;
  x_security : option XSecurity;
  hidden : option SchemaHidden;
  render : option string;
  default_ : option JSONValue;
  pattern : option string;
  enum : option (list JSONValue);
  listEnum : option (list JSONValue);
  minimum : option number;
  sliderExtremity : option string;
  sliderExtremitySemantic : option string;
  sliderRangeId : option string;
  sliderMin : option number;
  sliderMax : option number;
  sliderStep : option number;
  sliderUnit : option string
}.

(** A node of the schema: its own keys and, when it has the key
    [properties], its properties in [Object.entries] order. *)
Inductive JSONSchema :=
| Schema (d : JSONSchemaFormFieldDescription)
    (properties : option (list (string * JSONSchema))).

(** *** Form fields *)

Record Common := {
  c_path : list string;
  c_title : option string;
  c_description : option string;
  isReadonly : bool
}.

Record Yaml := { yamlStr : string }.

Inductive TextType := text | password.

Inductive FormField :=
| Boolean (common : Common) (value : option JSONValue)
| Integer (common : Common) (value : option JSONValue) (minimum : option number)
| Enum (common : Common) (value : option JSONValue) (enum : option (list JSONValue))
| SliderSimple (common : Common) (sliderMin sliderMax sliderStep : option number)
    (sliderUnit : option string) (value : option JSONValue)
| SliderRangeDown (common : Common)
    (sliderExtremitySemantic sliderRangeId : option string)
    (sliderMin sliderStep : option number) (sliderUnit : option string)
    (value : option JSONValue)
| SliderRangeUp (common : Common)
    (sliderExtremitySemantic sliderRangeId : option string)
    (sliderMax : option number) (value : option JSONValue)
| Text (common : Common) (pattern : option string) (value : option JSONValue)
    (type : TextType) (defaultValue : option JSONValue) (doRenderAsTextArea : bool)
| Array (common : Common) (value defaultValue : Yaml)
| Object (common : Common) (value defaultValue : Yaml).

(** [isHidden: boolean | FormFieldValue] *)
Inductive IsHidden :=
| HiddenAlways (b : bool)
| HiddenWhen (reference : FormFieldValue).

Record HiddenInfo := { h_path : list string; isHidden : IsHidden }.

(** The three arrays the walk pushes on, and the console. *)
Record Walk := {
  formFields : list FormField;
  infosAboutWhenFieldsShouldBeHidden : list HiddenInfo;
  sensitiveConfigurations : option (list FormFieldValue);
  warnings : list string
}.

(** How the walk ends. It returns, with the arrays and the console as they
    are then; or an error is thrown on the way and leaves the thunk: the
    arrays are lost with the call, what was logged stays on the console. *)
Inductive WalkOutcome :=
| Completed (w : Walk)
| Aborted (e : Error) (console : list string).

Definition andThen (outcome : WalkOutcome) (next : Walk -> WalkOutcome)
    : WalkOutcome :=
  match outcome with
  | Completed w => next w
  | Aborted e console => Aborted e console
  end.

(** *** getInitialFormFields *)

Section Walk.
Variable formFieldsValueDifferentFromDefault : list FormFieldValue.

(** [same(path, common.path)] of evt/tools/inDepth: equal arrays of strings. *)
Definition same (p q : list string) : bool := bool_decide (p = q).

(** [`${value}`] *)
Definition templateString (v : Value) : string :=
  match v with
  | VString s => s
  | VBoolean b => if b then "true" else "false"
  | VNumber n => String_of_number n
  | VYaml _ => "[object Object]"
  end.

Definition renderIs (d : JSONSchemaFormFieldDescription) (r : string) : bool :=
  match render d with
  | Some x => String.eqb x r
  | None => false
  end.

Definition typeIs (d : JSONSchemaFormFieldDescription) (t : string) : bool :=
  String.eqb (type_ d) t.

Definition mkCommon (newCurrentPath : list string)
    (d : JSONSchemaFormFieldDescription) : Common :=
  {| c_path := newCurrentPath;
     c_title := match title d with
                | Some t => Some t
                | None => last newCurrentPath
                end;
     c_description := description d;
     isReadonly := match x_onyxia d with
                   | Some x => default false (readonly x)
                   | None => false
                   end |}.

(** The console warning for a [render] the form does not know. *)
Definition renderWarning (common : Common) (d : JSONSchemaFormFieldDescription)
    : list string :=
  match render d with
  | Some r =>
      if existsb (String.eqb r) ["slider"; "textArea"; "password"; "list"]
      then []
      else [join "/" (c_path common) +:+ " has render: " +:+ str dquote +:+ r
            +:+ str dquote +:+ " and it's not supported"]
  | None => []
  end.

(** The block labelled [security_warning]: what [sensitiveConfigurations]
    is after it, unless [new RegExp] throws. *)
Definition security_warning (common : Common)
    (d : JSONSchemaFormFieldDescription)
    (sensitiveConfigurations : option (list FormFieldValue))
    : Outcome (option (list FormFieldValue)) :=
  match sensitiveConfigurations with
  | None => Returned None
  | Some pushed =>
      match x_security d ≫= xs_pattern with
      | None => Returned (Some pushed)
      | Some pattern =>
          match JS.find (fun ffv => same (path ffv) (c_path common))
                  formFieldsValueDifferentFromDefault with
          | None => Returned (Some pushed)
          | Some ffv =>
              match RegExp_new pattern with
              | None => Thrown SyntaxError
              | Some regExp =>
                  if RegExp_test regExp (templateString (value ffv))
                  then Returned (Some pushed)
                  else Returned
                         (Some (pushed
                                ++ [{| path := c_path common; value := value ffv |}]))
              end
          end
      end
  end.

(** The function whose result is pushed on [formFields]: the form field of
    a leaf, and [sensitiveConfigurations] as it leaves it. It throws when
    the block [security_warning] does. *)
Definition makeFormField (newCurrentPath : list string)
    (d : JSONSchemaFormFieldDescription)
    (sensitiveConfigurations : option (list FormFieldValue))
    : Outcome (FormField * option (list FormFieldValue)) :=
  let common := mkCommon newCurrentPath d in
  if renderIs d "slider" then
    let value := default_ d in
    let simple :=
      SliderSimple common (sliderMin d) (sliderMax d) (sliderStep d)
        (sliderUnit d) value in
    Returned
      (match sliderExtremity d with
       | Some extremity =>
           if String.eqb extremity "down" then
             SliderRangeDown common (sliderExtremitySemantic d) (sliderRangeId d)
               (sliderMin d) (sliderStep d) (sliderUnit d) value
           else if String.eqb extremity "up" then
             SliderRangeUp common (sliderExtremitySemantic d) (sliderRangeId d)
               (sliderMax d) value
           else simple
       | None => simple
       end, sensitiveConfigurations)
  else if typeIs d "boolean" then
    Returned (Boolean common (default_ d), sensitiveConfigurations)
  else if typeIs d "object" || typeIs d "array" then
    let value := {| yamlStr := yaml_stringify (default_ d) |} in
    Returned
      (if typeIs d "array" then Array common value value
       else Object common value value, sensitiveConfigurations)
  else if typeIs d "integer" || typeIs d "number" then
    Returned (Integer common (default_ d) (minimum d), sensitiveConfigurations)
  else if renderIs d "list" then
    Returned (Enum common (default_ d) (listEnum d), sensitiveConfigurations)
  else if bool_decide (is_Some (enum d)) then
    Returned (Enum common (default_ d) (enum d), sensitiveConfigurations)
  else
    match security_warning common d sensitiveConfigurations with
    | Thrown e => Thrown e
    | Returned sensitive =>
        Returned
          (Text common (pattern d) (default_ d)
             (if renderIs d "password" then password else text)
             (default_ d) (renderIs d "textArea"),
           sensitive)
    end.

(** The value pushed on [infosAboutWhenFieldsShouldBeHidden]. *)
Definition makeIsHidden (d : JSONSchemaFormFieldDescription) : IsHidden :=
  match hidden d with
  | None =>
      match x_onyxia d ≫= xo_hidden with
      | Some hidden => HiddenAlways hidden
      | None => HiddenAlways false
      end
  | Some (SHBoolean hidden) => HiddenAlways hidden
  | Some (SHWhen hiddenPath hiddenValue) =>
      HiddenWhen {| path := split slash hiddenPath; value := hiddenValue |}
  end.

(** What the callback of [forEach] does on a leaf: the warning is logged
    first, so that it is on the console also when the form field throws. *)
Definition visitLeaf (newCurrentPath : list string)
    (d : JSONSchemaFormFieldDescription) (w : Walk) : WalkOutcome :=
  let common := mkCommon newCurrentPath d in
  let console := warnings w ++ renderWarning common d in
  match makeFormField newCurrentPath d (sensitiveConfigurations w) with
  | Thrown e => Aborted e console
  | Returned (formField, sensitive) =>
      Completed
        {| formFields := formFields w ++ [formField];
           infosAboutWhenFieldsShouldBeHidden :=
             infosAboutWhenFieldsShouldBeHidden w
             ++ [{| h_path := newCurrentPath; isHidden := makeIsHidden d |}];
           sensitiveConfigurations := sensitive;
           warnings := console |}
  end.

(** The callback of [Object.entries(properties).forEach] at one entry: an
    object that has properties is walked in turn, with the key added to the
    path ([callee]); anything else is a leaf. An error thrown at an entry
    ends the [forEach]: the entries after it are not visited. *)
Fixpoint visit (currentPath : list string) (key : string) (node : JSONSchema)
    (w : Walk) {struct node} : WalkOutcome :=
  let newCurrentPath := currentPath ++ [key] in
  match node with
  | Schema d (Some properties) =>
      if typeIs d "object" then
        (fix forEach (entries : list (string * JSONSchema)) (w : Walk)
           : WalkOutcome :=
           match entries with
           | [] => Completed w
           | (key', node') :: entries' =>
               andThen (visit newCurrentPath key' node' w) (forEach entries')
           end) properties w
      else visitLeaf newCurrentPath d w
  | Schema d None => visitLeaf newCurrentPath d w
  end.

(** [callee({ jsonSchemaObject: { properties }, currentPath })] *)
Fixpoint callee (properties : list (string * JSONSchema))
    (currentPath : list string) (w : Walk) : WalkOutcome :=
  match properties with
  | [] => Completed w
  | entry :: properties' =>
      andThen (visit currentPath (fst entry) (snd entry) w)
        (callee properties' currentPath)
  end.

(** The leaves of the schema under an entry, in the order of the walk: each
    with its path and its keys. *)
Fixpoint leaves (currentPath : list string) (key : string) (node : JSONSchema)
    {struct node} : list (list string * JSONSchemaFormFieldDescription) :=
  let newCurrentPath := currentPath ++ [key] in
  match node with
  | Schema d (Some properties) =>
      if typeIs d "object" then
        (fix each (entries : list (string * JSONSchema)) :=
           match entries with
           | [] => []
           | (key', node') :: entries' =>
               leaves newCurrentPath key' node' ++ each entries'
           end) properties
      else [(newCurrentPath, d)]
  | Schema d None => [(newCurrentPath, d)]
  end.

Definition leavesOf (properties : list (string * JSONSchema))
    (currentPath : list string)
    : list (list string * JSONSchemaFormFieldDescription) :=
  flat_map (fun entry => leaves currentPath (fst entry) (snd entry)) properties.

Fixpoint visitLeaves
    (ls : list (list string * JSONSchemaFormFieldDescription)) (w : Walk)
    : WalkOutcome :=
  match ls with
  | [] => Completed w
  | l :: ls' => andThen (visitLeaf (fst l) (snd l) w) (visitLeaves ls')
  end.

(** The form field of a leaf: what [makeFormField] returns for it when no
    sensitive configurations are collected, where it never throws. *)
Definition formFieldOf (l : list string * JSONSchemaFormFieldDescription)
    : FormField :=
  match makeFormField (fst l) (snd l) None with
  | Returned (formField, _) => formField
  | Thrown _ =>
      Text (mkCommon (fst l) (snd l)) None None text None false
  end.

Definition hiddenInfoOf (l : list string * JSONSchemaFormFieldDescription)
    : HiddenInfo :=
  {| h_path := fst l; isHidden := makeIsHidden (snd l) |}.

(** The kinds of field of the form. *)
Inductive SliderVariation := simple | rangeUp | rangeDown.

Inductive Kind :=
| KBoolean
| KInteger
| KEnum
| KSlider (variation : SliderVariation)
| KText (type : TextType) (doRenderAsTextArea : bool)
| KYaml (isArray : bool).

Definition kindOf (formField : FormField) : Kind :=
  match formField with
  | Boolean _ _ => KBoolean
  | Integer _ _ _ => KInteger
  | Enum _ _ _ => KEnum
  | SliderSimple _ _ _ _ _ _ => KSlider simple
  | SliderRangeDown _ _ _ _ _ _ _ => KSlider rangeDown
  | SliderRangeUp _ _ _ _ _ => KSlider rangeUp
  | Text _ _ _ type _ doRenderAsTextArea => KText type doRenderAsTextArea
  | Array _ _ _ => KYaml true
  | Object _ _ _ => KYaml false
  end.

Definition commonOf (formField : FormField) : Common :=
  match formField with
  | Boolean c _ | Integer c _ _ | Enum c _ _ | SliderSimple c _ _ _ _ _
  | SliderRangeDown c _ _ _ _ _ _ | SliderRangeUp c _ _ _ _
  | Text c _ _ _ _ _ | Array c _ _ | Object c _ _ => c
  end.

(** The kind as a table of the declared type, of [render], of
    [sliderExtremity] and of the presence of [enum]. *)
Definition classify (type_ : string) (render sliderExtremity : option string)
    (hasEnum : bool) : Kind :=
  let renders r := bool_decide (render = Some r) in
  let typed t := String.eqb type_ t in
  if renders "slider" then
    KSlider (if bool_decide (sliderExtremity = Some "down") then rangeDown
             else if bool_decide (sliderExtremity = Some "up") then rangeUp
             else simple)
  else if typed "boolean" then KBoolean
  else if typed "object" then KYaml false
  else if typed "array" then KYaml true
  else if typed "integer" || typed "number" then KInteger
  else if renders "list" || hasEnum then KEnum
  else KText (if renders "password" then password else text) (renders "textArea").

Definition isTextLeaf (d : JSONSchemaFormFieldDescription) : bool :=
  match classify (type_ d) (render d) (sliderExtremity d)
          (bool_decide (is_Some (enum d))) with
  | KText _ _ => true
  | _ => false
  end.

(** In the words of the spec: the pair to flag at a leaf that declares a
    pattern, has a value among those different from the default, and whose
    value, as text, does not match the regular expression of the pattern. *)
Definition spec_violation (l : list string * JSONSchemaFormFieldDescription)
    : list FormFieldValue :=
  match x_security (snd l) ≫= xs_pattern,
        JS.find (fun ffv => same (path ffv) (fst l))
          formFieldsValueDifferentFromDefault with
  | Some pattern, Some ffv =>
      match RegExp_new pattern with
      | Some regExp =>
          if RegExp_test regExp (templateString (value ffv)) then []
          else [{| path := fst l; value := value ffv |}]
      | None => []
      end
  | _, _ => []
  end.

(** The leaves at which [new RegExp] throws when sensitive configurations
    are collected: those that become a text field, declare a pattern that
    is not a regular expression, and have a value among those different
    from the default. *)
Definition throwsAt (l : list string * JSONSchemaFormFieldDescription) : bool :=
  isTextLeaf (snd l) &&
  match x_security (snd l) ≫= xs_pattern,
        JS.find (fun ffv => same (path ffv) (fst l))
          formFieldsValueDifferentFromDefault with
  | Some pattern, Some _ =>
      match RegExp_new pattern with
      | Some _ => false
      | None => true
      end
  | _, _ => false
  end.

(** What a leaf adds to [sensitiveConfigurations], when they are collected
    and the walk gets past the leaf. *)
Definition flagged (l : list string * JSONSchemaFormFieldDescription)
    : list FormFieldValue :=
  if isTextLeaf (snd l) then spec_violation l else [].

(** The leaves the walk visits: all of them, or those up to the first at
    which [new RegExp] throws, that one included. *)
Fixpoint upToThrow (ls : list (list string * JSONSchemaFormFieldDescription))
    : list (list string * JSONSchemaFormFieldDescription) :=
  match ls with
  | [] => []
  | l :: ls' => if throwsAt l then [l] else l :: upToThrow ls'
  end.

End Walk.

Record Params := {
  catalogId : string;
  chartName : string;
  chartVersion : string;
  formFieldsValueDifferentFromDefault : list FormFieldValue;
  (** [valuesSchema.properties] *)
  valuesSchema : list (string * JSONSchema)
}.

(** [sensitiveConfigurations] before the walk. *)
Definition initialSensitiveConfigurations (params : Params)
    : option (list FormFieldValue) :=
  if negb (getIsRestorableConfigSaved (catalogId params) (chartName params)
             (chartVersion params) (formFieldsValueDifferentFromDefault params))
  then None
  else Some [].

Definition getInitialFormFields (params : Params) : WalkOutcome :=
  callee (formFieldsValueDifferentFromDefault params) (valuesSchema params) []
    {| formFields := [];
       infosAboutWhenFieldsShouldBeHidden := [];
       sensitiveConfigurations := initialSensitiveConfigurations params;
       warnings := [] |}.

(** *** The walk visits the leaves in order *)

(** Induction on a schema whose properties are schemas again. *)
Section SchemaInduction.
Variable P : JSONSchema -> Prop.
Hypothesis P_leaf : forall d, P (Schema d None).
Hypothesis P_properties : forall d properties,
  Forall (fun entry => P (snd entry)) properties -> P (Schema d (Some properties)).

Fixpoint JSONSchema_nested_ind (node : JSONSchema) : P node :=
  match node with
  | Schema d None => P_leaf d
  | Schema d (Some properties) =>
      P_properties d properties
        ((fix each (entries : list (string * JSONSchema))
            : Forall (fun entry => P (snd entry)) entries :=
            match entries with
            | [] => @List.Forall_nil _ _
            | entry :: entries' =>
                @List.Forall_cons _ _ entry entries'
                  (JSONSchema_nested_ind (snd entry)) (each entries')
            end) properties)
  end.

End SchemaInduction.

Section WalkFacts.
Variable ffvs : list FormFieldValue.

Lemma andThen_Completed outcome : andThen outcome Completed = outcome.
Proof. now destruct outcome. Qed.

Lemma visitLeaves_app ls ls' : forall w,
  visitLeaves ffvs (ls ++ ls') w
  = andThen (visitLeaves ffvs ls w) (visitLeaves ffvs ls').
Proof.
  induction ls as [|l ls IH]; intros w; [reflexivity|].
  cbn [app visitLeaves].
  destruct (visitLeaf ffvs (fst l) (snd l) w) as [w'|e console]; cbn [andThen];
    [apply IH|reflexivity].
Qed.

Lemma visit_leaves node : forall currentPath key w,
  visit ffvs currentPath key node w
  = visitLeaves ffvs (leaves currentPath key node) w.
Proof.
  induction node as [d|d properties IH] using JSONSchema_nested_ind;
    intros currentPath key w.
  { cbn [visit leaves visitLeaves fst snd]. now rewrite andThen_Completed. }
  cbn [visit leaves]. destruct (typeIs d "object").
  2:{ cbn [visitLeaves fst snd]. now rewrite andThen_Completed. }
  generalize (currentPath ++ [key]). intros newCurrentPath. revert w.
  induction IH as [|[key' node'] entries' Hnode' _ IHentries]; intros w;
    [reflexivity|].
  cbn [snd] in Hnode'. rewrite visitLeaves_app, <- Hnode'.
  destruct (visit ffvs newCurrentPath key' node' w) as [w'|e console];
    cbn [andThen]; [apply IHentries|reflexivity].
Qed.

Lemma callee_leaves properties : forall currentPath w,
  callee ffvs properties currentPath w
  = visitLeaves ffvs (leavesOf properties currentPath) w.
Proof.
  unfold leavesOf.
  induction properties as [|[key node] properties IH]; intros currentPath w;
    [reflexivity|].
  cbn [callee flat_map fst snd]. rewrite visitLeaves_app, <- visit_leaves.
  destruct (visit ffvs currentPath key node w) as [w'|e console];
    cbn [andThen]; [apply IH|reflexivity].
Qed.

Lemma renderIs_decide d r : renderIs d r = bool_decide (render d = Some r).
Proof.
  unfold renderIs. destruct (render d) as [x|].
  - destruct (String.eqb_spec x r) as [->|Hne].
    + now rewrite bool_decide_eq_true_2.
    + rewrite bool_decide_eq_false_2; [reflexivity|congruence].
  - now rewrite bool_decide_eq_false_2.
Qed.

(** The object returned for a leaf that comes to the end of the function. *)
Definition textField (common : Common) (d : JSONSchemaFormFieldDescription)
    : FormField :=
  Text common (pattern d) (default_ d)
    (if renderIs d "password" then password else text)
    (default_ d) (renderIs d "textArea").

(** The two ways through [makeFormField]: an early return, which leaves
    [sensitiveConfigurations] alone; or the block [security_warning] and
    the text field. *)
Lemma makeFormField_shape p d :
  let common := mkCommon p d in
  let kind := classify (type_ d) (render d) (sliderExtremity d)
                (bool_decide (is_Some (enum d))) in
  (isTextLeaf d = false /\
   exists formField,
     kindOf formField = kind /\ commonOf formField = common /\
     forall sensitive,
       makeFormField ffvs p d sensitive = Returned (formField, sensitive)) \/
  (isTextLeaf d = true /\
   kindOf (textField common d) = kind /\
   forall sensitive,
     makeFormField ffvs p d sensitive
     = match security_warning ffvs common d sensitive with
       | Thrown e => Thrown e
       | Returned sensitive' => Returned (textField common d, sensitive')
       end).
Proof.
  cbn zeta. unfold isTextLeaf, makeFormField, classify, typeIs, textField.
  rewrite !renderIs_decide.
  destruct (bool_decide (render d = Some "slider")).
  { left. split; [reflexivity|]. destruct (sliderExtremity d) as [extremity|].
    - destruct (String.eqb_spec extremity "down") as [->|Hdown].
      { eexists. split; [|split; [|intros sensitive; reflexivity]]; reflexivity. }
      rewrite bool_decide_eq_false_2 by congruence.
      destruct (String.eqb_spec extremity "up") as [->|Hup].
      { eexists. split; [|split; [|intros sensitive; reflexivity]]; reflexivity. }
      rewrite bool_decide_eq_false_2 by congruence.
      eexists. split; [|split; [|intros sensitive; reflexivity]]; reflexivity.
    - eexists. split; [|split; [|intros sensitive; reflexivity]]; reflexivity. }
  destruct (String.eqb (type_ d) "boolean").
  { left. split; [reflexivity|].
    eexists. split; [|split; [|intros sensitive; reflexivity]]; reflexivity. }
  destruct (String.eqb_spec (type_ d) "object") as [E|_].
  { left. rewrite E. split; [reflexivity|].
    eexists. split; [|split; [|intros sensitive; reflexivity]]; reflexivity. }
  destruct (String.eqb (type_ d) "array").
  { left. split; [reflexivity|].
    eexists. split; [|split; [|intros sensitive; reflexivity]]; reflexivity. }
  cbn [orb].
  destruct (String.eqb (type_ d) "integer" || String.eqb (type_ d) "number").
  { left. split; [reflexivity|].
    eexists. split; [|split; [|intros sensitive; reflexivity]]; reflexivity. }
  destruct (bool_decide (render d = Some "list")).
  { left. split; [reflexivity|].
    eexists. split; [|split; [|intros sensitive; reflexivity]]; reflexivity. }
  cbn [orb]. destruct (bool_decide (is_Some (enum d))).
  { left. split; [reflexivity|].
    eexists. split; [|split; [|intros sensitive; reflexivity]]; reflexivity. }
  right. split; [reflexivity|]. split; [reflexivity|]. intros sensitive.
  reflexivity.
Qed.

(** Without sensitive configurations to collect, nothing throws. *)
Lemma makeFormField_None p d :
  makeFormField ffvs p d None = Returned (formFieldOf ffvs (p, d), None).
Proof.
  unfold formFieldOf. cbn [fst snd].
  destruct (makeFormField_shape p d) as [(_ & ff & _ & _ & H)|(_ & _ & H)];
    rewrite H; reflexivity.
Qed.

Lemma formFieldOf_kind l :
  kindOf (formFieldOf ffvs l)
  = classify (type_ (snd l)) (render (snd l)) (sliderExtremity (snd l))
      (bool_decide (is_Some (enum (snd l)))).
Proof.
  destruct l as [p d]. unfold formFieldOf. cbn [fst snd].
  destruct (makeFormField_shape p d) as [(_ & ff & Hk & _ & H)|(_ & Hk & H)];
    rewrite H; [exact Hk|exact Hk].
Qed.

Lemma formFieldOf_common l :
  commonOf (formFieldOf ffvs l) = mkCommon (fst l) (snd l).
Proof.
  destruct l as [p d]. unfold formFieldOf. cbn [fst snd].
  destruct (makeFormField_shape p d) as [(_ & ff & _ & Hc & H)|(_ & _ & H)];
    rewrite H; [exact Hc|reflexivity].
Qed.

Lemma formFieldOf_path l : c_path (commonOf (formFieldOf ffvs l)) = fst l.
Proof. now rewrite formFieldOf_common. Qed.

(** The form field of a leaf and what the leaf adds to
    [sensitiveConfigurations], or the error thrown. *)
Lemma makeFormField_eq p d sensitive :
  makeFormField ffvs p d sensitive
  = if bool_decide (is_Some sensitive) && throwsAt ffvs (p, d)
    then Thrown SyntaxError
    else Returned (formFieldOf ffvs (p, d),
                   (fun pushed => pushed ++ flagged ffvs (p, d)) <$> sensitive).
Proof.
  pose proof (makeFormField_None p d) as Hnone.
  unfold throwsAt, flagged. cbn [fst snd].
  destruct (makeFormField_shape p d) as [(Htext & ff & _ & _ & H)|(Htext & _ & H)];
    rewrite Htext.
  - rewrite H in *. injection Hnone as <-. rewrite andb_false_r.
    destruct sensitive as [pushed|]; cbn; [now rewrite app_nil_r|reflexivity].
  - rewrite H in *. cbn [security_warning] in Hnone. injection Hnone as <-.
    cbn [andb]. unfold security_warning, spec_violation.
    cbn [fst snd mkCommon c_path].
    destruct sensitive as [pushed|]; [|reflexivity].
    rewrite bool_decide_eq_true_2 by eauto. cbn [andb fmap option_fmap option_map].
    destruct (x_security d ≫= xs_pattern) as [pat|]; [|now rewrite app_nil_r].
    destruct (JS.find _ ffvs) as [ffv|]; [|now rewrite app_nil_r].
    destruct (RegExp_new pat) as [regExp|]; [|reflexivity].
    destruct (RegExp_test regExp _); [now rewrite app_nil_r|reflexivity].
Qed.

(** The arrays and the console after the visits of the leaves [ls], when
    none throws. *)
Definition pushed (ls : list (list string * JSONSchemaFormFieldDescription))
    (w : Walk) : Walk :=
  {| formFields := formFields w ++ map (formFieldOf ffvs) ls;
     infosAboutWhenFieldsShouldBeHidden :=
       infosAboutWhenFieldsShouldBeHidden w ++ map hiddenInfoOf ls;
     sensitiveConfigurations :=
       (fun flaggedBefore => flaggedBefore ++ flat_map (flagged ffvs) ls)
       <$> sensitiveConfigurations w;
     warnings :=
       warnings w
       ++ flat_map (fun l => renderWarning (mkCommon (fst l) (snd l)) (snd l)) ls |}.

Lemma visitLeaf_eq p d w :
  visitLeaf ffvs p d w
  = if bool_decide (is_Some (sensitiveConfigurations w)) && throwsAt ffvs (p, d)
    then Aborted SyntaxError (warnings w ++ renderWarning (mkCommon p d) d)
    else Completed (pushed [(p, d)] w).
Proof.
  unfold visitLeaf. rewrite makeFormField_eq.
  destruct (bool_decide _ && throwsAt ffvs (p, d)); [reflexivity|].
  unfold pushed. cbn [map flat_map fst snd]. rewrite !app_nil_r. reflexivity.
Qed.

Lemma pushed_cons l ls w : pushed (l :: ls) w = pushed ls (pushed [l] w).
Proof.
  unfold pushed. cbn [formFields infosAboutWhenFieldsShouldBeHidden
    sensitiveConfigurations warnings map flat_map].
  rewrite !app_nil_r, <- !app_assoc. f_equal.
  destruct (sensitiveConfigurations w); cbn; [|reflexivity].
  now rewrite <- app_assoc.
Qed.

(** The walk over a run of leaves: it stops at the first leaf at which
    [new RegExp] throws, with the warnings of the leaves up to that one on
    the console; without such a leaf, or when sensitive configurations are
    not collected, it visits them all. *)
Lemma visitLeaves_eq ls : forall w,
  visitLeaves ffvs ls w
  = if bool_decide (is_Some (sensitiveConfigurations w)) && existsb (throwsAt ffvs) ls
    then Aborted SyntaxError
           (warnings w
            ++ flat_map (fun l => renderWarning (mkCommon (fst l) (snd l)) (snd l))
                 (upToThrow ffvs ls))
    else Completed (pushed ls w).
Proof.
  induction ls as [|[p d] ls IH]; intros w.
  - rewrite andb_false_r. unfold pushed. cbn [visitLeaves map flat_map].
    rewrite !app_nil_r. destruct w as [f i [s|] c]; cbn; [|reflexivity].
    now rewrite app_nil_r.
  - cbn [visitLeaves fst snd existsb upToThrow]. rewrite visitLeaf_eq.
    destruct (bool_decide (is_Some (sensitiveConfigurations w))) eqn:Hcollected.
    + cbn [andb]. destruct (throwsAt ffvs (p, d)).
      * cbn [orb flat_map fst snd]. now rewrite app_nil_r.
      * cbn [orb andThen]. rewrite IH.
        assert (Hkept : bool_decide
                  (is_Some (sensitiveConfigurations (pushed [(p, d)] w))) = true).
        { apply bool_decide_eq_true_1 in Hcollected as [s Hs].
          apply bool_decide_eq_true_2. unfold pushed.
          cbn [sensitiveConfigurations]. rewrite Hs. cbn. eauto. }
        rewrite Hkept. cbn [andb]. destruct (existsb _ ls).
        -- unfold pushed at 1. cbn [warnings flat_map fst snd].
           now rewrite !app_nil_r, <- app_assoc.
        -- now rewrite <- pushed_cons.
    + cbn [andb andThen]. rewrite IH.
      assert (Hkept : bool_decide
                (is_Some (sensitiveConfigurations (pushed [(p, d)] w))) = false).
      { apply bool_decide_eq_false_1 in Hcollected.
        apply bool_decide_eq_false_2. unfold pushed.
        cbn [sensitiveConfigurations].
        destruct (sensitiveConfigurations w); [exfalso; eauto|].
        cbn. intros [? [=]]. }
      rewrite Hkept. cbn [andb]. now rewrite <- pushed_cons.
Qed.

(** Where the walk stops. *)
Lemma upToThrow_spec ls :
  if existsb (throwsAt ffvs) ls
  then exists before l after,
         ls = before ++ l :: after /\
         Forall (fun l' => throwsAt ffvs l' = false) before /\
         throwsAt ffvs l = true /\
         upToThrow ffvs ls = before ++ [l]
  else upToThrow ffvs ls = ls /\ Forall (fun l => throwsAt ffvs l = false) ls.
Proof.
  induction ls as [|l ls IH]; [split; [reflexivity|constructor]|].
  cbn [existsb upToThrow]. destruct (throwsAt ffvs l) eqn:Hl; cbn [orb].
  - exists [], l, ls. repeat split; auto.
  - destruct (existsb (throwsAt ffvs) ls).
    + destruct IH as (before & l' & after & -> & Hbefore & Hl' & ->).
      exists (l :: before), l', after. repeat split; auto.
    + destruct IH as [-> Hall]. split; [reflexivity|]. now constructor.
Qed.

Lemma throwsAt_spec l :
  throwsAt ffvs l = true <->
  isTextLeaf (snd l) = true /\
  exists pat ffv,
    x_security (snd l) ≫= xs_pattern = Some pat /\
    JS.find (fun ffv => same (path ffv) (fst l)) ffvs = Some ffv /\
    RegExp_new pat = None.
Proof.
  unfold throwsAt. rewrite andb_true_iff.
  destruct (x_security (snd l) ≫= xs_pattern) as [pat|].
  2:{ split; [intros [_ [=]]|intros (_ & ? & ? & [=] & _)]. }
  destruct (JS.find _ ffvs) as [ffv|].
  2:{ split; [intros [_ [=]]|intros (_ & ? & ? & _ & [=] & _)]. }
  destruct (RegExp_new pat) as [regExp|] eqn:E.
  - split; [intros [_ [=]]|]. intros (_ & pat' & ffv' & [= <-] & _ & H).
    congruence.
  - split; [|tauto]. intros [H _]. split; [exact H|]. now exists pat, ffv.
Qed.

End WalkFacts.

(** A node that is not an object with properties is one leaf; an object
    with properties has the leaves of its properties, in their order. *)
Definition isObjectWithProperties (node : JSONSchema) : bool :=
  match node with
  | Schema d (Some _) => typeIs d "object"
  | Schema d None => false
  end.

Definition descriptionOf (node : JSONSchema) : JSONSchemaFormFieldDescription :=
  match node with Schema d _ => d end.

Lemma leaves_of_leaf currentPath key node :
  isObjectWithProperties node = false ->
  leaves currentPath key node = [(currentPath ++ [key], descriptionOf node)].
Proof.
  destruct node as [d [properties|]]; cbn [isObjectWithProperties leaves];
    [|reflexivity].
  now intros ->.
Qed.

Lemma leaves_of_object currentPath key d properties :
  typeIs d "object" = true ->
  leaves currentPath key (Schema d (Some properties))
  = leavesOf properties (currentPath ++ [key]).
Proof.
  intros H. cbn [leaves]. rewrite H. unfold leavesOf.
  induction properties as [|[key' node'] properties IH]; [reflexivity|].
  cbn [flat_map fst snd]. now rewrite IH.
Qed.

(** The console warnings of a run of leaves. *)
Definition renderWarnings (ls : list (list string * JSONSchemaFormFieldDescription))
    : list string :=
  flat_map (fun l => renderWarning (mkCommon (fst l) (snd l)) (snd l)) ls.

(** The whole walk: what it returns, or where it stops. *)
Lemma getInitialFormFields_eq (params : Params) :
  let ffvs := formFieldsValueDifferentFromDefault params in
  let ls := leavesOf (valuesSchema params) [] in
  getInitialFormFields params
  = if bool_decide (is_Some (initialSensitiveConfigurations params))
       && existsb (throwsAt ffvs) ls
    then Aborted SyntaxError (renderWarnings (upToThrow ffvs ls))
    else Completed
           {| formFields := map (formFieldOf ffvs) ls;
              infosAboutWhenFieldsShouldBeHidden := map hiddenInfoOf ls;
              sensitiveConfigurations :=
                (fun _ => flat_map (flagged ffvs) ls)
                <$> initialSensitiveConfigurations params;
              warnings := renderWarnings ls |}.
Proof.
  cbn zeta. unfold getInitialFormFields. rewrite callee_leaves, visitLeaves_eq.
  cbn [sensitiveConfigurations warnings app].
  destruct (bool_decide _ && existsb _ _); [reflexivity|].
  unfold pushed. cbn [formFields infosAboutWhenFieldsShouldBeHidden
    sensitiveConfigurations warnings app].
  f_equal. f_equal. unfold initialSensitiveConfigurations.
  destruct (negb _); reflexivity.
Qed.

Lemma initialSensitiveConfigurations_cases (params : Params) :
  initialSensitiveConfigurations params = None \/
  initialSensitiveConfigurations params = Some [].
Proof. unfold initialSensitiveConfigurations. destruct (negb _); auto. Qed.

Lemma getInitialFormFields_Completed (params : Params) (w : Walk) :
  let ffvs := formFieldsValueDifferentFromDefault params in
  let ls := leavesOf (valuesSchema params) [] in
  getInitialFormFields params = Completed w ->
  w = {| formFields := map (formFieldOf ffvs) ls;
         infosAboutWhenFieldsShouldBeHidden := map hiddenInfoOf ls;
         sensitiveConfigurations :=
           (fun _ => flat_map (flagged ffvs) ls)
           <$> initialSensitiveConfigurations params;
         warnings := renderWarnings ls |}.
Proof.
  cbn zeta. rewrite getInitialFormFields_eq.
  destruct (bool_decide _ && existsb _ _); [discriminate|]. now intros [= <-].
Qed.

(** The walk returns unless sensitive configurations are collected and
    [new RegExp] throws at a leaf. *)
Lemma getInitialFormFields_returns (params : Params) :
  let ffvs := formFieldsValueDifferentFromDefault params in
  let ls := leavesOf (valuesSchema params) [] in
  (exists w, getInitialFormFields params = Completed w) <->
  initialSensitiveConfigurations params = None \/
  Forall (fun l => throwsAt ffvs l = false) ls.
Proof.
  cbn zeta. rewrite getInitialFormFields_eq.
  pose proof (upToThrow_spec (formFieldsValueDifferentFromDefault params)
                (leavesOf (valuesSchema params) [])) as Hspec.
  destruct (initialSensitiveConfigurations_cases params) as [E|E]; rewrite E.
  - rewrite bool_decide_eq_false_2 by (intros [? [=]]). cbn [andb].
    split; [now left|eauto].
  - rewrite bool_decide_eq_true_2 by eauto. cbn [andb].
    destruct (existsb _ _).
    + destruct Hspec as (before & l & after & Hls & _ & Hl & _).
      split; [intros [w [=]]|]. intros [[=]|Hall]. rewrite Hls in Hall.
      apply Forall_app in Hall as [_ Hall].
      apply Forall_cons_iff in Hall as [Hl' _]. congruence.
    + destruct Hspec as [_ Hall]. split; [now right|eauto].
Qed.

(** When the walk does not return, [new RegExp] threw at a leaf, the first
    of its kind; the leaves before it and the leaf itself had their warning,
    the leaves after it were not visited. *)
Lemma getInitialFormFields_Aborted (params : Params) e console :
  let ffvs := formFieldsValueDifferentFromDefault params in
  let ls := leavesOf (valuesSchema params) [] in
  getInitialFormFields params = Aborted e console ->
  e = SyntaxError /\
  initialSensitiveConfigurations params = Some [] /\
  exists before l after,
    ls = before ++ l :: after /\
    Forall (fun l' => throwsAt ffvs l' = false) before /\
    throwsAt ffvs l = true /\
    console = renderWarnings (before ++ [l]).
Proof.
  cbn zeta. rewrite getInitialFormFields_eq.
  pose proof (upToThrow_spec (formFieldsValueDifferentFromDefault params)
                (leavesOf (valuesSchema params) [])) as Hspec.
  destruct (initialSensitiveConfigurations_cases params) as [E|E]; rewrite E.
  - rewrite bool_decide_eq_false_2 by (intros [? [=]]). discriminate.
  - rewrite bool_decide_eq_true_2 by eauto. cbn [andb].
    destruct (existsb _ _); [|discriminate].
    destruct Hspec as (before & l & after & Hls & Hbefore & Hl & Hup).
    intros [= <- <-]. split; [reflexivity|]. split; [reflexivity|].
    exists before, l, after. now rewrite Hup.
Qed.

(** C1, as the code has it. When the walk returns, it has pushed one form
    field per leaf of the values schema, the leaves being the properties
    that are not objects with properties, in the order of the walk. The
    field of a leaf carries the path of the leaf, and its kind (boolean,
    integer, enum, simple or range-up or range-down slider, text or password
    with or without text area, array or object as YAML) is a function of the
    declared type, of [render], of [sliderExtremity] and of the presence of
    [enum]. The walk returns unless sensitive configurations are collected
    and [new RegExp] throws at a leaf, that is at a leaf that becomes a text
    field, has a value among those different from the default and declares
    a pattern that is not a regular expression; it then throws a
    [SyntaxError] and no form field is returned. *)
Theorem formFields_one_per_leaf (params : Params) :
  let ffvs := formFieldsValueDifferentFromDefault params in
  let ls := leavesOf (valuesSchema params) [] in
  (forall w, getInitialFormFields params = Completed w ->
     formFields w = map (formFieldOf ffvs) ls /\
     length (formFields w) = length ls /\
     map (fun formField => c_path (commonOf formField)) (formFields w) = map fst ls /\
     map kindOf (formFields w)
     = map (fun l => classify (type_ (snd l)) (render (snd l))
                       (sliderExtremity (snd l))
                       (bool_decide (is_Some (enum (snd l))))) ls) /\
  ((exists w, getInitialFormFields params = Completed w) <->
   initialSensitiveConfigurations params = None \/
   Forall (fun l => throwsAt ffvs l = false) ls) /\
  (forall e console,
     getInitialFormFields params = Aborted e console -> e = SyntaxError).
Proof.
  cbn zeta. split; [|split].
  - intros w Hw. apply getInitialFormFields_Completed in Hw. subst w.
    cbn [formFields]. split; [reflexivity|]. split; [now rewrite length_map|].
    rewrite !map_map. split.
    + apply map_ext. intros l. apply formFieldOf_path.
    + apply map_ext. intros l. apply formFieldOf_kind.
  - apply getInitialFormFields_returns.
  - intros e console H. now apply getInitialFormFields_Aborted in H.
Qed.

(** C2, as the code has it. When the walk returns, it has pushed one
    visibility entry per leaf, in the order of the walk, with the path of
    the leaf. The [isHidden] of the entry of a leaf is the boolean [hidden]
    when [hidden] is a boolean; the pair of [hidden.path] split on [/] and
    of [hidden.value] when [hidden] is an object, the split being the
    segments without [/] that give [hidden.path] back when [/] is put
    between them; and, when [hidden] is absent, [x-onyxia.hidden] if that
    is present and [false] if not. The walk returns unless sensitive
    configurations are collected and [new RegExp] throws at a leaf; it then
    throws a [SyntaxError] and no entry is returned. *)
Theorem hiddenInfos_one_per_leaf (params : Params) :
  let ffvs := formFieldsValueDifferentFromDefault params in
  let ls := leavesOf (valuesSchema params) [] in
  (forall w, getInitialFormFields params = Completed w ->
     infosAboutWhenFieldsShouldBeHidden w = map hiddenInfoOf ls /\
     length (infosAboutWhenFieldsShouldBeHidden w) = length ls) /\
  (forall l,
     h_path (hiddenInfoOf l) = fst l /\
     match hidden (snd l) with
     | Some (SHBoolean b) => isHidden (hiddenInfoOf l) = HiddenAlways b
     | Some (SHWhen hiddenPath hiddenValue) =>
         exists segments,
           isHidden (hiddenInfoOf l)
           = HiddenWhen {| path := segments; value := hiddenValue |} /\
           segments <> [] /\
           Forall (fun segment => ~ In "/"%char (list_ascii_of_string segment))
             segments /\
           String.concat "/" segments = hiddenPath
     | None =>
         isHidden (hiddenInfoOf l)
         = match x_onyxia (snd l) with
           | Some {| xo_hidden := Some b |} => HiddenAlways b
           | _ => HiddenAlways false
           end
     end) /\
  ((exists w, getInitialFormFields params = Completed w) <->
   initialSensitiveConfigurations params = None \/
   Forall (fun l => throwsAt ffvs l = false) ls) /\
  (forall e console,
     getInitialFormFields params = Aborted e console -> e = SyntaxError).
Proof.
  cbn zeta. split; [|split; [|split]].
  - intros w Hw. apply getInitialFormFields_Completed in Hw. subst w.
    cbn [infosAboutWhenFieldsShouldBeHidden]. split; [reflexivity|].
    now rewrite length_map.
  - intros [p d]. split; [reflexivity|].
    unfold hiddenInfoOf, makeIsHidden. cbn [isHidden fst snd].
    destruct (hidden d) as [[b|hiddenPath hiddenValue]|]; [reflexivity| |].
    + exists (split slash hiddenPath). split; [reflexivity|].
      split; [apply Path.split_not_nil|]. split; [apply Path.split_no_sep|].
      rewrite <- Path.join_concat. apply Path.join_split.
    + destruct (x_onyxia d) as [[[b|] ro]|]; reflexivity.
  - apply getInitialFormFields_returns.
  - intros e console H. now apply getInitialFormFields_Aborted in H.
Qed.

(** Sensitive configurations are collected exactly when the thunk
    [getIsRestorableConfigSaved] answers [true] for the configuration. *)
Lemma initialSensitiveConfigurations_collected (params : Params) :
  initialSensitiveConfigurations params
  = if getIsRestorableConfigSaved (catalogId params) (chartName params)
         (chartVersion params) (formFieldsValueDifferentFromDefault params)
    then Some [] else None.
Proof. unfold initialSensitiveConfigurations. now destruct (getIsRestorableConfigSaved _ _ _ _). Qed.

(** No leaf throws exactly when every pattern that is to be tested is a
    regular expression. *)
Lemma no_throw_spec (ffvs : list FormFieldValue)
    (ls : list (list string * JSONSchemaFormFieldDescription)) :
  Forall (fun l => throwsAt ffvs l = false) ls <->
  forall l pat ffv,
    In l ls -> isTextLeaf (snd l) = true ->
    x_security (snd l) ≫= xs_pattern = Some pat ->
    JS.find (fun ffv => same (path ffv) (fst l)) ffvs = Some ffv ->
    is_Some (RegExp_new pat).
Proof.
  rewrite Forall_forall. split.
  - intros H l pat ffv Hl Htext Hpat Hfind. apply list_elem_of_In in Hl.
    specialize (H l Hl). destruct (RegExp_new pat) as [regExp|] eqn:E; [eauto|].
    assert (throwsAt ffvs l = true) by (apply throwsAt_spec; eauto 6).
    congruence.
  - intros H l Hl. apply list_elem_of_In in Hl.
    destruct (throwsAt ffvs l) eqn:E; [|reflexivity].
    apply throwsAt_spec in E as (Htext & pat & ffv & Hpat & Hfind & Hnew).
    destruct (H l pat ffv Hl Htext Hpat Hfind) as [regExp HregExp]. congruence.
Qed.

(** C3, as the code has it. Sensitive configurations are collected only when
    [sensitiveConfigurations] is an array before the walk; they stay
    [undefined] otherwise. When they are collected and the walk returns, it
    has appended, in its order, a pair exactly for the leaves that become
    text fields, declare an [x-security] pattern, have a value among those
    different from the default, and whose value, as text, does not match the
    regular expression of the pattern; the pair is the path of the leaf with
    that value. The walk returns when nothing is collected, or when every
    pattern that is to be tested, that of a leaf that becomes a text field
    and has a value among those different from the default, is a regular
    expression; otherwise [new RegExp] throws a [SyntaxError] and nothing
    is returned. *)
Theorem sensitiveConfigurations_of_text_leaves (params : Params) :
  let ffvs := formFieldsValueDifferentFromDefault params in
  let ls := leavesOf (valuesSchema params) [] in
  (forall w, getInitialFormFields params = Completed w ->
     sensitiveConfigurations w
     = (fun _ => flat_map (fun l => if isTextLeaf (snd l)
                                    then spec_violation ffvs l else []) ls)
       <$> initialSensitiveConfigurations params /\
     forall pushed, sensitiveConfigurations w = Some pushed ->
       forall pair,
         In pair pushed <->
         exists l pat regExp ffv,
           In l ls /\
           isTextLeaf (snd l) = true /\
           x_security (snd l) ≫= xs_pattern = Some pat /\
           JS.find (fun ffv => same (path ffv) (fst l)) ffvs = Some ffv /\
           RegExp_new pat = Some regExp /\
           RegExp_test regExp (templateString (value ffv)) = false /\
           pair = {| path := fst l; value := value ffv |}) /\
  ((exists w, getInitialFormFields params = Completed w) <->
   initialSensitiveConfigurations params = None \/
   forall l pat ffv,
     In l ls -> isTextLeaf (snd l) = true ->
     x_security (snd l) ≫= xs_pattern = Some pat ->
     JS.find (fun ffv => same (path ffv) (fst l)) ffvs = Some ffv ->
     is_Some (RegExp_new pat)) /\
  (forall e console,
     getInitialFormFields params = Aborted e console -> e = SyntaxError).
Proof.
  cbn zeta. split; [|split].
  - intros w Hw. apply getInitialFormFields_Completed in Hw. subst w.
    cbn [sensitiveConfigurations]. split; [reflexivity|].
    intros pushed Hpushed pair.
    destruct (initialSensitiveConfigurations_cases params) as [E|E];
      rewrite E in Hpushed; [discriminate|].
    cbn in Hpushed. injection Hpushed as <-.
    unfold flagged. rewrite in_flat_map. split.
    + intros (l & Hl & Hin). exists l.
      destruct (isTextLeaf (snd l)) eqn:Htext; [|contradiction].
      unfold spec_violation in Hin.
      destruct (x_security (snd l) ≫= xs_pattern) as [pat|]; [|contradiction].
      destruct (JS.find _ _) as [ffv|] eqn:Hfind; [|contradiction].
      destruct (RegExp_new pat) as [regExp|] eqn:Hnew; [|contradiction].
      destruct (RegExp_test regExp _) eqn:Htest; [contradiction|].
      destruct Hin as [<-|[]]. exists pat, regExp, ffv. auto 10.
    + intros (l & pat & regExp & ffv & Hl & Htext & Hpat & Hfind & Hnew & Htest & ->).
      exists l. split; [exact Hl|]. rewrite Htext. unfold spec_violation.
      rewrite Hpat, Hfind, Hnew, Htest. now left.
  - rewrite getInitialFormFields_returns, no_throw_spec. reflexivity.
  - intros e console H. now apply getInitialFormFields_Aborted in H.
Qed.
(** *** More on the walk *)

(** Keys are unique in every object the walk enters, as in any JavaScript
    object. *)
Fixpoint uniqueKeys (node : JSONSchema) : Prop :=
  match node with
  | Schema d (Some properties) =>
      List.NoDup (map fst properties) /\
      (fix each (entries : list (string * JSONSchema)) : Prop :=
         match entries with
         | [] => True
         | (_, node') :: entries' => uniqueKeys node' /\ each entries'
         end) properties
  | Schema d None => True
  end.

Definition uniqueKeysOf (properties : list (string * JSONSchema)) : Prop :=
  List.NoDup (map fst properties) /\
  Forall (fun entry => uniqueKeys (snd entry)) properties.

Lemma uniqueKeys_properties d properties :
  uniqueKeys (Schema d (Some properties)) <-> uniqueKeysOf properties.
Proof.
  unfold uniqueKeysOf. cbn [uniqueKeys].
  assert (H : (fix each (entries : list (string * JSONSchema)) : Prop :=
                 match entries with
                 | [] => True
                 | (_, node') :: entries' => uniqueKeys node' /\ each entries'
                 end) properties
              <-> Forall (fun entry => uniqueKeys (snd entry)) properties).
  { induction properties as [|[key node] properties IH].
    - split; [constructor|exact (fun _ => I)].
    - rewrite Forall_cons_iff, IH. reflexivity. }
  now rewrite H.
Qed.

Lemma leavesOf_cons key node properties currentPath :
  leavesOf ((key, node) :: properties) currentPath
  = leaves currentPath key node ++ leavesOf properties currentPath.
Proof. reflexivity. Qed.

Lemma leaves_unfold currentPath key d properties :
  leaves currentPath key (Schema d properties)
  = match properties with
    | Some entries =>
        if typeIs d "object" then leavesOf entries (currentPath ++ [key])
        else [(currentPath ++ [key], d)]
    | None => [(currentPath ++ [key], d)]
    end.
Proof.
  destruct properties as [entries|]; [|reflexivity].
  destruct (typeIs d "object") eqn:E; [now apply leaves_of_object|].
  cbn [leaves]. now rewrite E.
Qed.

(** The path of a leaf under an entry goes through the key of the entry. *)
Lemma leaves_prefix node : forall currentPath key l,
  In l (leaves currentPath key node) ->
  exists rest, fst l = currentPath ++ key :: rest.
Proof.
  induction node as [d|d properties IH] using JSONSchema_nested_ind;
    intros currentPath key l; rewrite leaves_unfold.
  - intros [<-|[]]. exists []. reflexivity.
  - destruct (typeIs d "object").
    2:{ intros [<-|[]]. exists []. reflexivity. }
    unfold leavesOf. rewrite in_flat_map. intros ([key' node'] & Hin & Hl).
    rewrite Forall_forall in IH. apply list_elem_of_In in Hin.
    destruct (IH _ Hin _ _ _ Hl) as [rest Hrest].
    exists (key' :: rest). rewrite Hrest, <- app_assoc. reflexivity.
Qed.

Lemma leavesOf_prefix properties currentPath l :
  In l (leavesOf properties currentPath) ->
  exists key rest, In key (map fst properties) /\ fst l = currentPath ++ key :: rest.
Proof.
  unfold leavesOf. rewrite in_flat_map. intros ([key node] & Hin & Hl).
  apply leaves_prefix in Hl as [rest Hrest]. exists key, rest.
  split; [|exact Hrest]. apply in_map_iff. now exists (key, node).
Qed.

Lemma leavesOf_NoDup properties : forall currentPath,
  List.NoDup (map fst properties) ->
  Forall (fun entry => forall currentPath key,
            List.NoDup (map fst (leaves currentPath key (snd entry)))) properties ->
  List.NoDup (map fst (leavesOf properties currentPath)).
Proof.
  induction properties as [|[key node] properties IH]; intros currentPath Hkeys Hall.
  - constructor.
  - rewrite leavesOf_cons, map_app. cbn [map fst] in Hkeys.
    apply List.NoDup_cons_iff in Hkeys as [Hkey Hkeys].
    apply Forall_cons_iff in Hall as [Hnode Hall].
    apply List.NoDup_app; [apply Hnode|now apply IH|].
    intros p Hp Hp'. apply in_map_iff in Hp as (l & <- & Hl).
    apply in_map_iff in Hp' as (l' & Heq & Hl').
    apply leaves_prefix in Hl as [rest Hrest].
    apply leavesOf_prefix in Hl' as (key' & rest' & Hkey' & Hrest').
    rewrite Hrest, Hrest' in Heq. apply app_inv_head in Heq.
    injection Heq as -> _. contradiction.
Qed.

Lemma leaves_NoDup node :
  uniqueKeys node ->
  forall currentPath key, List.NoDup (map fst (leaves currentPath key node)).
Proof.
  induction node as [d|d properties IH] using JSONSchema_nested_ind;
    intros Hu currentPath key; rewrite leaves_unfold.
  - repeat constructor. intros [].
  - destruct (typeIs d "object"); [|repeat constructor; intros []].
    apply uniqueKeys_properties in Hu as [Hkeys Hall].
    apply leavesOf_NoDup; [exact Hkeys|].
    rewrite Forall_forall in *. intros entry Hentry. now apply IH, Hall.
Qed.

Definition unsupportedRender (d : JSONSchemaFormFieldDescription) : bool :=
  match render d with
  | Some r => negb (existsb (String.eqb r) ["slider"; "textArea"; "password"; "list"])
  | None => false
  end.

(** The warning the console gets for a leaf. *)
Definition warningOf (l : list string * JSONSchemaFormFieldDescription) : string :=
  join "/" (fst l) +:+ " has render: " +:+ str dquote
  +:+ default EmptyString (render (snd l)) +:+ str dquote
  +:+ " and it's not supported".

Lemma renderWarnings_filter ls :
  renderWarnings ls
  = map warningOf (List.filter (fun l => unsupportedRender (snd l)) ls).
Proof.
  unfold renderWarnings. induction ls as [|[p d] rest IH]; [reflexivity|].
  cbn [flat_map List.filter fst snd]. rewrite IH.
  unfold renderWarning, unsupportedRender. cbn [mkCommon c_path].
  destruct (render d) as [r|] eqn:E; [|reflexivity].
  destruct (existsb _ _); cbn [negb map app]; [reflexivity|].
  f_equal. unfold warningOf. cbn [fst snd]. now rewrite E.
Qed.

Lemma map_filter_nil {A B} (f : A -> B) (test : A -> bool) (l : list A) :
  map f (List.filter test l) = [] <-> Forall (fun x => test x = false) l.
Proof.
  induction l as [|x l IH]; cbn [List.filter map].
  - split; [constructor|reflexivity].
  - rewrite Forall_cons_iff, <- IH. destruct (test x); cbn [map].
    + split; [discriminate|intros [? _]; discriminate].
    + tauto.
Qed.

Lemma last_nonempty {A} (l : list A) (d : A) :
  l <> [] -> last l = Some (List.last l d).
Proof.
  intros H. destruct (exists_last H) as (l' & x & ->).
  now rewrite last_snoc, List.last_last.
Qed.

Lemma leavesOf_nonempty properties currentPath l :
  In l (leavesOf properties currentPath) -> fst l <> [].
Proof.
  intros H. apply leavesOf_prefix in H as (key & rest & _ & ->).
  now destruct currentPath.
Qed.

Section WalkResults.
Variable params : Params.
Variable w : Walk.
Hypothesis returned : getInitialFormFields params = Completed w.

Let ffvs := formFieldsValueDifferentFromDefault params.
Let ls := leavesOf (valuesSchema params) [].

Lemma walk_formFields : formFields w = map (formFieldOf ffvs) ls.
Proof.
  pose proof (getInitialFormFields_Completed params w returned) as H.
  cbn zeta in H. now rewrite H.
Qed.

Lemma walk_hiddenInfos : infosAboutWhenFieldsShouldBeHidden w = map hiddenInfoOf ls.
Proof.
  pose proof (getInitialFormFields_Completed params w returned) as H.
  cbn zeta in H. now rewrite H.
Qed.

Lemma walk_sensitiveConfigurations :
  sensitiveConfigurations w
  = (fun _ => flat_map (flagged ffvs) ls) <$> initialSensitiveConfigurations params.
Proof.
  pose proof (getInitialFormFields_Completed params w returned) as H.
  cbn zeta in H. now rewrite H.
Qed.

Lemma walk_paths :
  map (fun formField => c_path (commonOf formField)) (formFields w) = map fst ls.
Proof.
  rewrite walk_formFields, map_map. apply map_ext. intros l.
  apply formFieldOf_path.
Qed.

(** When every object of the schema has its keys once, no two form fields
    have the same path. *)
Theorem formField_paths_distinct :
  uniqueKeysOf (valuesSchema params) ->
  List.NoDup (map (fun formField => c_path (commonOf formField)) (formFields w)).
Proof.
  intros [Hkeys Hall]. rewrite walk_paths. apply leavesOf_NoDup; [exact Hkeys|].
  rewrite Forall_forall in *. intros entry Hentry. now apply leaves_NoDup, Hall.
Qed.

(** Form fields and visibility entries go by pairs: the entry at a position
    has the path of the form field at that position. *)
Theorem hiddenInfos_follow_formFields :
  map h_path (infosAboutWhenFieldsShouldBeHidden w)
  = map (fun formField => c_path (commonOf formField)) (formFields w).
Proof.
  rewrite walk_paths, walk_hiddenInfos, map_map. reflexivity.
Qed.

(** The title of the form field of a leaf is the title the leaf declares
    and, only when it declares none, the key of the leaf, which ends the
    path of the field. No form field is without a title, and no path is
    empty. *)
Theorem every_formField_has_a_title :
  map (fun formField => c_title (commonOf formField)) (formFields w)
  = map (fun l => Some (match title (snd l) with
                        | Some declared => declared
                        | None => List.last (fst l) EmptyString
                        end)) ls /\
  Forall (fun formField => c_path (commonOf formField) <> []) (formFields w).
Proof.
  rewrite walk_formFields. split.
  - rewrite map_map. apply map_ext_in. intros l Hl.
    rewrite formFieldOf_common. cbn [mkCommon c_title].
    destruct (title (snd l)); [reflexivity|].
    apply last_nonempty. now apply (leavesOf_nonempty _ _ _ Hl).
  - rewrite Forall_forall. intros formField Hin.
    apply list_elem_of_In, in_map_iff in Hin as (l & <- & Hl).
    rewrite formFieldOf_path. now apply (leavesOf_nonempty _ _ _ Hl).
Qed.

(** Whatever is flagged as sensitive is one of the values given as
    different from the default, at the path of a form field that is a text
    or password field. With no such value given, nothing is flagged. *)
Theorem flagged_values_are_given (pushed : list FormFieldValue) :
  sensitiveConfigurations w = Some pushed ->
  (forall pair, In pair pushed ->
     In pair ffvs /\
     exists formField type doRenderAsTextArea,
       In formField (formFields w) /\
       c_path (commonOf formField) = path pair /\
       kindOf formField = KText type doRenderAsTextArea) /\
  (ffvs = [] -> pushed = []).
Proof.
  rewrite walk_sensitiveConfigurations. intros Hpushed.
  destruct (initialSensitiveConfigurations_cases params) as [E|E];
    rewrite E in Hpushed; [discriminate|].
  cbn in Hpushed. injection Hpushed as <-.
  assert (Hall : forall pair, In pair (flat_map (flagged ffvs) ls) ->
            In pair ffvs /\
            exists formField type doRenderAsTextArea,
              In formField (formFields w) /\
              c_path (commonOf formField) = path pair /\
              kindOf formField = KText type doRenderAsTextArea).
  { intros pair Hin. apply in_flat_map in Hin as ([p d] & Hl & Hin).
    unfold flagged in Hin. cbn [fst snd] in Hin.
    destruct (isTextLeaf d) eqn:Htext; [|contradiction].
    unfold spec_violation in Hin. cbn [fst snd] in Hin.
    destruct (x_security d ≫= xs_pattern) as [pat|]; [|contradiction].
    destruct (JS.find _ ffvs) as [ffv|] eqn:Hfind; [|contradiction].
    destruct (RegExp_new pat) as [regExp|]; [|contradiction].
    destruct (RegExp_test regExp _); [contradiction|].
    destruct Hin as [<-|[]].
    apply find_some in Hfind as [Hffv Hsame].
    apply bool_decide_eq_true_1 in Hsame. destruct ffv as [q v].
    cbn [path value] in *. subst q. split; [exact Hffv|].
    unfold isTextLeaf in Htext.
    pose proof (formFieldOf_kind ffvs (p, d)) as Hkind. cbn [fst snd] in Hkind.
    rewrite <- Hkind in Htext.
    exists (formFieldOf ffvs (p, d)).
    destruct (kindOf (formFieldOf ffvs (p, d))) as [| | | |type ta|] eqn:K;
      try discriminate.
    exists type, ta. split; [|split; [|reflexivity]].
    - rewrite walk_formFields. apply in_map_iff. exists (p, d). now split.
    - apply (formFieldOf_path ffvs (p, d)). }
  split; [exact Hall|].
  intros Hnone. destruct (flat_map (flagged ffvs) ls) as [|pair rest]; [reflexivity|].
  destruct (Hall pair (or_introl eq_refl)) as [Hin _]. rewrite Hnone in Hin.
  contradiction.
Qed.

End WalkResults.

(** The console gets one warning for each visited leaf whose [render] is
    none of [slider], [textArea], [password] and [list], in the order of the
    walk, naming the path of the leaf and the [render]; a leaf without
    [render] or with one of the four gives none. When the walk returns,
    every leaf was visited. When [new RegExp] throws, the leaves visited are
    those before the leaf at which it throws, the first of its kind, and
    that leaf: the leaves after it give no warning. *)
Theorem warnings_for_unsupported_render (params : Params) :
  let ffvs := formFieldsValueDifferentFromDefault params in
  let ls := leavesOf (valuesSchema params) [] in
  let unsupported := List.filter (fun l => unsupportedRender (snd l)) in
  (forall w, getInitialFormFields params = Completed w ->
     warnings w = map warningOf (unsupported ls) /\
     (warnings w = [] <-> Forall (fun l => unsupportedRender (snd l) = false) ls)) /\
  (forall e console, getInitialFormFields params = Aborted e console ->
     exists before l after,
       ls = before ++ l :: after /\
       Forall (fun l' => throwsAt ffvs l' = false) before /\
       throwsAt ffvs l = true /\
       console = map warningOf (unsupported (before ++ [l]))).
Proof.
  cbn zeta. split.
  - intros w Hw. apply getInitialFormFields_Completed in Hw. subst w.
    cbn [warnings]. rewrite renderWarnings_filter. split; [reflexivity|].
    apply map_filter_nil.
  - intros e console H.
    apply getInitialFormFields_Aborted in H
      as (_ & _ & before & l & after & Hls & Hbefore & Hl & ->).
    exists before, l, after. now rewrite renderWarnings_filter.
Qed.

(** A leaf with its [render] taken away. *)
Definition withoutRender (d : JSONSchemaFormFieldDescription)
    : JSONSchemaFormFieldDescription :=
  {| type_ := type_ d; title := title d; description := description d;
     x_onyxia := x_onyxia d; x_security := x_security d; hidden := hidden d;
     render := None; default_ := default_ d; pattern := pattern d;
     enum := enum d; listEnum := listEnum d; minimum := minimum d;
     sliderExtremity := sliderExtremity d;
     sliderExtremitySemantic := sliderExtremitySemantic d;
     sliderRangeId := sliderRangeId d; sliderMin := sliderMin d;
     sliderMax := sliderMax d; sliderStep := sliderStep d;
     sliderUnit := sliderUnit d |}.

Lemma unsupportedRender_renderIs d r :
  unsupportedRender d = true ->
  In r ["slider"; "textArea"; "password"; "list"] ->
  renderIs d r = false.
Proof.
  unfold unsupportedRender, renderIs. destruct (render d) as [x|]; [|discriminate].
  intros H Hin. apply negb_true_iff in H.
  destruct (String.eqb_spec x r) as [->|]; [|reflexivity].
  rewrite <- H. symmetry. apply existsb_exists. exists r.
  split; [exact Hin|apply String.eqb_refl].
Qed.

(** But for the warning, a [render] that is not supported counts for
    nothing: the leaf gives the form field, the visibility and the flagging
    it would give without [render]. *)
Theorem unsupported_render_is_ignored (ffvs : list FormFieldValue)
    (p : list string) (d : JSONSchemaFormFieldDescription)
    (sensitive : option (list FormFieldValue)) :
  unsupportedRender d = true ->
  makeFormField ffvs p d sensitive = makeFormField ffvs p (withoutRender d) sensitive /\
  makeIsHidden d = makeIsHidden (withoutRender d).
Proof.
  intros H. split; [|reflexivity]. unfold makeFormField.
  rewrite !(unsupportedRender_renderIs d) by (exact H || cbn; auto 6).
  reflexivity.
Qed.

End FormFields.

(** *** Two small charts *)

Definition leafWith (type_ : string) (render sliderExtremity : option string)
    (hidden : option (SchemaHidden (number := Z)))
    : JSONSchemaFormFieldDescription (number := Z) :=
  {| type_ := type_; title := None; description := None; x_onyxia := None;
     x_security := None; hidden := hidden; render := render; default_ := None;
     pattern := None; enum := None; listEnum := None; minimum := None;
     sliderExtremity := sliderExtremity; sliderExtremitySemantic := None;
     sliderRangeId := None; sliderMin := None; sliderMax := None;
     sliderStep := None; sliderUnit := None |}.

Definition leafOfType (type_ : string) : JSONSchemaFormFieldDescription (number := Z) :=
  leafWith type_ None None None.

(** [service.mode]: a string among [safe] and [privileged], which should be
    [safe]. *)
Definition modeLeaf : JSONSchemaFormFieldDescription (number := Z) :=
  {| type_ := "string"; title := None; description := None; x_onyxia := None;
     x_security := Some {| xs_pattern := Some "^safe$" |}; hidden := None;
     render := None; default_ := Some (JString "safe");
     pattern := None; enum := Some [JString "safe"; JString "privileged"];
     listEnum := None; minimum := None;
     sliderExtremity := None; sliderExtremitySemantic := None;
     sliderRangeId := None; sliderMin := None; sliderMax := None;
     sliderStep := None; sliderUnit := None |}.

(** [git.token]: a string that should be empty. *)
Definition tokenLeaf : JSONSchemaFormFieldDescription (number := Z) :=
  {| type_ := "string"; title := None; description := None; x_onyxia := None;
     x_security := Some {| xs_pattern := Some "^$" |}; hidden := None;
     render := Some "password"; default_ := Some (JString EmptyString);
     pattern := None; enum := None; listEnum := None; minimum := None;
     sliderExtremity := None; sliderExtremitySemantic := None;
     sliderRangeId := None; sliderMin := None; sliderMax := None;
     sliderStep := None; sliderUnit := None |}.

(** A string whose [x-security] pattern, an opening parenthesis alone, is
    not a regular expression; it is titled, hidden, and asks for a render
    the form does not have. *)
Definition brokenLeaf : JSONSchemaFormFieldDescription (number := Z) :=
  {| type_ := "string"; title := Some "Access token"; description := None;
     x_onyxia := None;
     x_security := Some {| xs_pattern := Some "(" |};
     hidden := Some (SHBoolean true);
     render := Some "secret"; default_ := Some (JString EmptyString);
     pattern := None; enum := None; listEnum := None; minimum := None;
     sliderExtremity := None; sliderExtremitySemantic := None;
     sliderRangeId := None; sliderMin := None; sliderMax := None;
     sliderStep := None; sliderUnit := None |}.

Definition exampleParams (group key : string)
    (leaf : JSONSchemaFormFieldDescription (number := Z)) (given : string)
    : Params :=
  {| catalogId := "ide"; chartName := "jupyter"; chartVersion := "1.0.0";
     formFieldsValueDifferentFromDefault :=
       [{| path := [group; key]; value := VString given |}];
     valuesSchema :=
       [(group, Schema (leafOfType "object") (Some [(key, Schema leaf None)]))] |}.

(** What [new RegExp(pattern)] and [test] answer for the patterns above: a
    regular expression is kept as its pattern, and an opening parenthesis
    alone is none. *)
Definition exampleRegExp_new (pattern : string) : option string :=
  if String.eqb pattern "(" then None else Some pattern.

Definition exampleRegExp_test (regExp s : string) : bool :=
  if String.eqb regExp "^safe$" then String.eqb s "safe"
  else if String.eqb regExp "^$" then String.eqb s EmptyString
  else false.

Definition exampleWalk (params : Params) : WalkOutcome (number := Z) :=
  getInitialFormFields (fun n => "0") (fun _ => EmptyString) exampleRegExp_new
    exampleRegExp_test (fun _ _ _ _ => true) params.

(** A chart with resources, a security block and a number of replicas. *)
Definition exampleSchema : list (string * JSONSchema (number := Z)) :=
  [ ("resources",
     Schema (leafOfType "object")
       (Some [ ("cpu", Schema (leafWith "string" (Some "slider") (Some "down") None) None);
               ("memory", Schema (leafWith "string" (Some "slider") None None) None) ]));
    ("security",
     Schema (leafOfType "object")
       (Some [ ("allowlist", Schema (leafOfType "object") None);
               ("enabled",
                Schema (leafWith "boolean" None None
                          (Some (SHWhen "security/allowlist/enabled" (VBoolean false))))
                  None) ]));
    ("replicas", Schema (leafWith "integer" None None (Some (SHBoolean true))) None);
    ("name", Schema (leafWith "string" (Some "textArea") None None) None) ].

Definition exampleChart : Params :=
  {| catalogId := "ide"; chartName := "jupyter"; chartVersion := "1.0.0";
     formFieldsValueDifferentFromDefault := [];
     valuesSchema := exampleSchema |}.

(** The same chart followed by a block [git] whose [token] has the pattern
    that is no regular expression, with a value given for the token. *)
Definition brokenChart : Params :=
  {| catalogId := "ide"; chartName := "jupyter"; chartVersion := "1.0.0";
     formFieldsValueDifferentFromDefault :=
       [{| path := ["git"; "token"]; value := VString "ghp_x" |}];
     valuesSchema :=
       [ ("notes", Schema (leafWith "string" (Some "markdown") None
                             (Some (SHBoolean true))) None);
         ("git", Schema (leafOfType "object")
                   (Some [ ("token", Schema brokenLeaf None);
                           ("branch",
                            Schema (leafWith "string" (Some "dropdown") None None)
                              None) ])) ] |}.

Example exampleSchema_walk :
  exists w,
    exampleWalk exampleChart = Completed w /\
    map (fun formField => (c_path (commonOf formField), kindOf formField))
      (formFields w)
    = [ (["resources"; "cpu"], KSlider rangeDown);
        (["resources"; "memory"], KSlider simple);
        (["security"; "allowlist"], KYaml false);
        (["security"; "enabled"], KBoolean);
        (["replicas"], KInteger);
        (["name"], KText text true) ] /\
    map isHidden (infosAboutWhenFieldsShouldBeHidden w)
    = [ HiddenAlways false; HiddenAlways false; HiddenAlways false;
        HiddenWhen {| path := ["security"; "allowlist"; "enabled"];
                      value := VBoolean false |};
        HiddenAlways true; HiddenAlways false ] /\
    sensitiveConfigurations w = Some [] /\
    warnings w = [].
Proof. eexists. split; [cbv; reflexivity|]. repeat split; reflexivity. Qed.

(** C1 as the spec states it, for every values document, fails on a
    document with a pattern that is no regular expression. The schema has
    the one leaf [git.token], a string, which would be a text field; a value
    is given for it and sensitive configurations are collected; the walk
    throws a [SyntaxError], so that no form field is pushed for the leaf and
    none is returned. *)
Lemma invalid_pattern_no_formField :
  let params := exampleParams "git" "token" brokenLeaf "ghp_x" in
  leavesOf (valuesSchema params) [] = [(["git"; "token"], brokenLeaf)] /\
  isTextLeaf brokenLeaf = true /\
  exampleRegExp_new "(" = None /\
  exampleWalk params = Aborted SyntaxError
                         ["git/token has render: " +:+ str dquote +:+ "secret"
                          +:+ str dquote +:+ " and it's not supported"] /\
  ~ exists w,
      exampleWalk params = Completed w /\
      length (formFields w) = length (leavesOf (valuesSchema params) []).
Proof.
  cbn zeta. repeat (split; [reflexivity|]). intros (w & H & _).
  vm_compute in H. discriminate.
Qed.

(** On the chart with resources, security and replicas the walk returns six
    form fields. *)
Lemma formFields_one_per_leaf_witness :
  exists w,
    exampleWalk exampleChart = Completed w /\
    length (formFields w) = 6.
Proof.
  eexists. split; [cbv; reflexivity|].
  refine (proj1 (proj2 (proj1 (formFields_one_per_leaf (fun n => "0")
                                 (fun _ => EmptyString) exampleRegExp_new
                                 exampleRegExp_test (fun _ _ _ _ => true)
                                 exampleChart) _ _))).
  reflexivity.
Defined.

(** C2 as the spec states it, for every leaf of the values schema, fails on
    the chart whose [git.token] has a pattern that is no regular
    expression: the leaves [notes] and [git.token] declare [hidden], the
    leaf [git.branch] comes after them, and the walk throws at [git.token],
    so that no visibility entry is computed for [git.token] and
    [git.branch], and none is returned, not even that of [notes]. *)
Lemma invalid_pattern_no_visibility_entry :
  map fst (leavesOf (valuesSchema brokenChart) [])
  = [["notes"]; ["git"; "token"]; ["git"; "branch"]] /\
  map (fun l => hidden (snd l)) (leavesOf (valuesSchema brokenChart) [])
  = [Some (SHBoolean true); Some (SHBoolean true); None] /\
  (exists console, exampleWalk brokenChart = Aborted SyntaxError console) /\
  ~ exists w,
      exampleWalk brokenChart = Completed w /\
      length (infosAboutWhenFieldsShouldBeHidden w)
      = length (leavesOf (valuesSchema brokenChart) []).
Proof.
  split; [reflexivity|]. split; [reflexivity|]. split.
  - eexists. reflexivity.
  - intros (w & H & _). vm_compute in H. discriminate.
Qed.

(** On the chart with resources, security and replicas the walk returns six
    visibility entries. *)
Lemma hiddenInfos_one_per_leaf_witness :
  exists w,
    exampleWalk exampleChart = Completed w /\
    length (infosAboutWhenFieldsShouldBeHidden w) = 6.
Proof.
  eexists. split; [cbv; reflexivity|].
  refine (proj2 (proj1 (hiddenInfos_one_per_leaf (fun n => "0")
                          (fun _ => EmptyString) exampleRegExp_new
                          exampleRegExp_test (fun _ _ _ _ => true)
                          exampleChart) _ _)).
  reflexivity.
Defined.

(** C3 as the spec states it fails on a leaf that does not become a text
    field: [service.mode] declares a pattern, has the value [privileged]
    among those different from the default, and [privileged] does not match
    the pattern; yet nothing is flagged, although sensitive configurations
    are collected. It also fails on [git.token] with the pattern that is no
    regular expression: the pair is neither appended nor left out, the walk
    throws. *)
Lemma sensitive_enum_leaf_not_flagged :
  let params := exampleParams "service" "mode" modeLeaf "privileged" in
  let ffvs := formFieldsValueDifferentFromDefault params in
  let ls := leavesOf (valuesSchema params) [] in
  (ls = [(["service"; "mode"], modeLeaf)] /\
   flat_map (spec_violation (fun n => "0") exampleRegExp_new exampleRegExp_test ffvs) ls
   = [{| path := ["service"; "mode"]; value := VString "privileged" |}] /\
   exists w,
     exampleWalk params = Completed w /\
     sensitiveConfigurations w = Some [] /\
     sensitiveConfigurations w
     <> Some (flat_map (spec_violation (fun n => "0") exampleRegExp_new
                          exampleRegExp_test ffvs) ls)) /\
  (exampleWalk (exampleParams "git" "token" brokenLeaf "ghp_x")
   = Aborted SyntaxError
       ["git/token has render: " +:+ str dquote +:+ "secret"
        +:+ str dquote +:+ " and it's not supported"]).
Proof.
  cbn zeta. split; [|reflexivity]. split; [reflexivity|]. split; [reflexivity|].
  eexists. split; [cbv; reflexivity|]. split; [reflexivity|]. vm_compute. discriminate.
Qed.

(** When the thunk does not report the configuration as saved, nothing is
    collected, whatever the leaves: [sensitiveConfigurations] is
    [undefined], and no pattern is handed to [new RegExp]. *)
Remark sensitive_not_collected :
  (exists w,
     getInitialFormFields (fun n => "0") (fun _ => EmptyString)
       exampleRegExp_new exampleRegExp_test (fun _ _ _ _ => false)
       (exampleParams "git" "token" tokenLeaf "ghp_x") = Completed w /\
     sensitiveConfigurations w = None) /\
  (exists w,
     getInitialFormFields (fun n => "0") (fun _ => EmptyString)
       exampleRegExp_new exampleRegExp_test (fun _ _ _ _ => false)
       (exampleParams "git" "token" brokenLeaf "ghp_x") = Completed w /\
     sensitiveConfigurations w = None).
Proof. split; eexists; split; reflexivity. Qed.

(** On a password leaf the same situation is flagged. *)
Lemma sensitiveConfigurations_of_text_leaves_witness :
  let params := exampleParams "git" "token" tokenLeaf "ghp_x" in
  let pair := {| path := ["git"; "token"]; value := VString "ghp_x" |} in
  exists w,
    exampleWalk params = Completed w /\
    sensitiveConfigurations w = Some [pair] /\
    (In pair [pair] <->
     exists l pat regExp ffv,
       In l (leavesOf (valuesSchema params) []) /\
       isTextLeaf (snd l) = true /\
       x_security (snd l) ≫= xs_pattern = Some pat /\
       JS.find (fun ffv => same (path ffv) (fst l))
         (formFieldsValueDifferentFromDefault params) = Some ffv /\
       exampleRegExp_new pat = Some regExp /\
       exampleRegExp_test regExp (templateString (fun n => "0") (value ffv)) = false /\
       pair = {| path := fst l; value := value ffv |}).
Proof.
  cbn zeta. eexists. split; [cbv; reflexivity|]. split; [reflexivity|].
  refine (proj2 (proj1 (sensitiveConfigurations_of_text_leaves
                          (fun n => "0") (fun _ => EmptyString) exampleRegExp_new
                          exampleRegExp_test (fun _ _ _ _ => true)
                          (exampleParams "git" "token" tokenLeaf "ghp_x")) _ _)
            _ _ _);
    reflexivity.
Defined.

(** The chart with resources, security and replicas has its keys once. *)
Lemma formField_paths_distinct_witness :
  exists w,
    exampleWalk exampleChart = Completed w /\
    List.NoDup (map (fun formField => c_path (commonOf formField)) (formFields w)).
Proof.
  eexists. split; [cbv; reflexivity|].
  refine (formField_paths_distinct (fun n => "0") (fun _ => EmptyString)
            exampleRegExp_new exampleRegExp_test (fun _ _ _ _ => true)
            exampleChart _ _ _); [reflexivity|].
  split.
  - repeat constructor; cbn; intuition discriminate.
  - repeat constructor; cbn; intuition discriminate.
Defined.

(** On the same chart the visibility entries have the paths of the form
    fields. *)
Lemma hiddenInfos_follow_formFields_witness :
  exists w,
    exampleWalk exampleChart = Completed w /\
    map h_path (infosAboutWhenFieldsShouldBeHidden w)
    = map (fun formField => c_path (commonOf formField)) (formFields w).
Proof.
  eexists. split; [cbv; reflexivity|].
  refine (hiddenInfos_follow_formFields (fun n => "0") (fun _ => EmptyString)
            exampleRegExp_new exampleRegExp_test (fun _ _ _ _ => true)
            exampleChart _ _).
  reflexivity.
Defined.

(** A chart with a block [git]: the branch has a title, the name has
    none. *)
Definition titledChart : Params :=
  {| catalogId := "ide"; chartName := "jupyter"; chartVersion := "1.0.0";
     formFieldsValueDifferentFromDefault := [];
     valuesSchema :=
       [("git",
         Schema (leafOfType "object")
           (Some [("branch",
                   Schema
                     {| type_ := "string"; title := Some "Git branch";
                        description := None; x_onyxia := None;
                        x_security := None; hidden := None; render := None;
                        default_ := None; pattern := None; enum := None;
                        listEnum := None; minimum := None;
                        sliderExtremity := None;
                        sliderExtremitySemantic := None;
                        sliderRangeId := None; sliderMin := None;
                        sliderMax := None; sliderStep := None;
                        sliderUnit := None |} None);
                  ("name", Schema (leafOfType "string") None)]))] |}.

(** A leaf that declares a title keeps it, a leaf that declares none is
    named after its key. *)
Lemma every_formField_has_a_title_witness :
  exists w,
    exampleWalk titledChart = Completed w /\
    map (fun formField => c_title (commonOf formField)) (formFields w)
    = [Some "Git branch"; Some "name"].
Proof.
  eexists. split; [cbv; reflexivity|].
  refine (proj1 (every_formField_has_a_title (fun n => "0") (fun _ => EmptyString)
                   exampleRegExp_new exampleRegExp_test (fun _ _ _ _ => true)
                   titledChart _ _)).
  reflexivity.
Defined.

(** The token given for [git.token] is flagged. *)
Lemma flagged_values_are_given_witness :
  let params := exampleParams "git" "token" tokenLeaf "ghp_x" in
  let pair := {| path := ["git"; "token"]; value := VString "ghp_x" |} in
  exists w,
    exampleWalk params = Completed w /\
    (forall pair', In pair' [pair] ->
       In pair' (formFieldsValueDifferentFromDefault params) /\
       exists formField type doRenderAsTextArea,
         In formField (formFields w) /\
         c_path (commonOf formField) = path pair' /\
         kindOf formField = KText type doRenderAsTextArea) /\
    (formFieldsValueDifferentFromDefault params = [] -> [pair] = []).
Proof.
  cbn zeta. eexists. split; [cbv; reflexivity|].
  refine (flagged_values_are_given (fun n => "0") (fun _ => EmptyString)
            exampleRegExp_new exampleRegExp_test (fun _ _ _ _ => true)
            (exampleParams "git" "token" tokenLeaf "ghp_x") _ _ _ _);
    reflexivity.
Defined.

(** On the chart whose [git.token] has a pattern that is no regular
    expression, the console has the warnings of [notes] and of [git.token],
    and none for [git.branch], which is not visited. *)
Lemma warnings_for_unsupported_render_witness :
  exists console,
    exampleWalk brokenChart = Aborted SyntaxError console /\
    console
    = [ "notes has render: " +:+ str dquote +:+ "markdown" +:+ str dquote
        +:+ " and it's not supported";
        "git/token has render: " +:+ str dquote +:+ "secret" +:+ str dquote
        +:+ " and it's not supported" ] /\
    exists before l after,
      leavesOf (valuesSchema brokenChart) [] = before ++ l :: after /\
      console
      = map warningOf
          (List.filter (fun l => unsupportedRender (snd l)) (before ++ [l])).
Proof.
  eexists. split; [cbv; reflexivity|]. split; [reflexivity|].
  destruct (proj2 (warnings_for_unsupported_render (fun n => "0")
                     (fun _ => EmptyString) exampleRegExp_new exampleRegExp_test
                     (fun _ _ _ _ => true) brokenChart)
              SyntaxError _ eq_refl)
    as (before & l & after & Hls & _ & _ & Hconsole).
  exists before, l, after. split; [exact Hls|exact Hconsole].
Defined.

(** A leaf that asks for a render the form does not have. *)
Lemma unsupported_render_is_ignored_witness :
  let d := leafWith "string" (Some "markdown") None None in
  makeFormField (fun n => "0") (fun _ => EmptyString) exampleRegExp_new
    exampleRegExp_test [] ["notes"] d (Some [])
  = makeFormField (fun n => "0") (fun _ => EmptyString) exampleRegExp_new
      exampleRegExp_test [] ["notes"] (withoutRender d) (Some []) /\
  makeIsHidden d = makeIsHidden (withoutRender d).
Proof.
  cbn zeta.
  refine (unsupported_render_is_ignored (fun n => "0") (fun _ => EmptyString)
            exampleRegExp_new exampleRegExp_test [] ["notes"]
            (leafWith "string" (Some "markdown") None None) (Some []) _).
  reflexivity.
Defined.

(** *** getChartInfos *)

Module GetChartInfos.

Section ChartInfos.

Record ChartVersion := { version : string; iconUrl : option string }.

Record Chart := { name : string; versions : list ChartVersion }.

Record Catalog := {
  catalog_id : string;
  catalog_name : string;
  repositoryUrl : string
}.

(** [Chart.getDefaultVersion] of core/ports/OnyxiaApi is not part of the
    sources at hand: whatever it answers is taken as it comes. *)
Variable Chart_getDefaultVersion : Chart -> string.

Record ChartInfos := {
  catalogName : string;
  catalogRepositoryUrl : string;
  chartIconUrl : option string;
  defaultChartVersion : string;
  chartVersion : string;
  availableChartVersions : list string
}.

(** [chart.versions.find(({ version }) => version === v)] *)
Definition findVersion (chart : Chart) (v : string) : option ChartVersion :=
  JS.find (fun chartVersion => String.eqb (version chartVersion) v) (versions chart).

(** The version to launch, and the alerts shown on the way. *)
Definition resolveChartVersion (catalog : Catalog) (chart : Chart)
    (chartName : string) (pinnedChartVersion : option string)
    (defaultChartVersion : string) : string * list string :=
  match pinnedChartVersion with
  | Some pinnedChartVersion =>
      match findVersion chart pinnedChartVersion with
      | None =>
          (defaultChartVersion,
           [join (str newline)
              [ "No " +:+ pinnedChartVersion +:+ " version found for "
                +:+ chartName +:+ " in " +:+ repositoryUrl catalog +:+ ".";
                "Falling back to default version " +:+ defaultChartVersion ]])
      | Some _ => (pinnedChartVersion, [])
      end
  | None => (defaultChartVersion, [])
  end.

(** [catalogs] and [chartsByCatalogId] are the answer of
    [onyxiaApi.getCatalogsAndCharts()]. *)
Definition getChartInfos (catalogs : list Catalog)
    (chartsByCatalogId : gmap string (list Chart))
    (catalogId chartName : string) (pinnedChartVersion : option string)
    : Outcome (ChartInfos * list string) :=
  match JS.find (fun catalog => String.eqb (catalog_id catalog) catalogId) catalogs with
  | None => Thrown AssertionError
  | Some catalog =>
      match chartsByCatalogId !! catalogId with
      | None => Thrown TypeError
      | Some charts =>
          match JS.find (fun chart => String.eqb (name chart) chartName) charts with
          | None => Thrown AssertionError
          | Some chart =>
              let defaultChartVersion := Chart_getDefaultVersion chart in
              let '(chartVersion, alerts) :=
                resolveChartVersion catalog chart chartName pinnedChartVersion
                  defaultChartVersion in
              match findVersion chart chartVersion with
              | None => Thrown TypeError
              | Some found =>
                  Returned
                    ({| catalogName := catalog_name catalog;
                        catalogRepositoryUrl := repositoryUrl catalog;
                        chartIconUrl := iconUrl found;
                        defaultChartVersion := defaultChartVersion;
                        chartVersion := chartVersion;
                        availableChartVersions := map version (versions chart) |},
                     alerts)
              end
          end
      end
  end.

(** The chart the thunk works on, when there is one. *)
Definition chartOf (chartsByCatalogId : gmap string (list Chart))
    (catalogId chartName : string) : option Chart :=
  chartsByCatalogId !! catalogId
  ≫= JS.find (fun chart => String.eqb (name chart) chartName).

Lemma findVersion_Some chart v found :
  findVersion chart v = Some found ->
  version found = v /\ In v (map version (versions chart)).
Proof.
  unfold findVersion, JS.find. intros H. apply find_some in H as [Hin Heq].
  apply String.eqb_eq in Heq. split; [exact Heq|].
  rewrite <- Heq. now apply in_map.
Qed.

Lemma findVersion_None chart v :
  findVersion chart v = None <-> ~ In v (map version (versions chart)).
Proof.
  unfold findVersion, JS.find. split.
  - intros H Hin. apply in_map_iff in Hin as (cv & <- & Hin).
    apply (find_none _ _ H) in Hin. now rewrite String.eqb_refl in Hin.
  - intros H. destruct (List.find _ _) as [found|] eqn:E; [|reflexivity].
    apply (findVersion_Some chart v found) in E as [_ Hin]. contradiction.
Qed.

(** C9. The version resolved is the pinned one when there is one and it is
    among the versions of the chart, and the default version of the chart
    otherwise. Whenever the thunk returns, the version it returns is among
    the versions of the chart; it returns whenever the catalog and the chart
    exist and the default version is among the versions of the chart, and it
    throws when the version resolved is not. *)
Theorem chartVersion_resolved (catalogs : list Catalog)
    (chartsByCatalogId : gmap string (list Chart))
    (catalogId chartName : string) (pinnedChartVersion : option string) :
  (forall catalog chart defaultVersion,
     fst (resolveChartVersion catalog chart chartName pinnedChartVersion defaultVersion)
     = match pinnedChartVersion with
       | Some v =>
           if bool_decide (v ∈ map version (versions chart)) then v
           else defaultVersion
       | None => defaultVersion
       end) /\
  (forall infos alerts,
     getChartInfos catalogs chartsByCatalogId catalogId chartName pinnedChartVersion
     = Returned (infos, alerts) ->
     exists catalog chart,
       chartOf chartsByCatalogId catalogId chartName = Some chart /\
       defaultChartVersion infos = Chart_getDefaultVersion chart /\
       chartVersion infos
       = fst (resolveChartVersion catalog chart chartName pinnedChartVersion
                (Chart_getDefaultVersion chart)) /\
       availableChartVersions infos = map version (versions chart) /\
       In (chartVersion infos) (availableChartVersions infos)) /\
  (forall catalog chart,
     JS.find (fun catalog => String.eqb (catalog_id catalog) catalogId) catalogs
     = Some catalog ->
     chartOf chartsByCatalogId catalogId chartName = Some chart ->
     (In (Chart_getDefaultVersion chart) (map version (versions chart)) ->
      exists infos alerts,
        getChartInfos catalogs chartsByCatalogId catalogId chartName pinnedChartVersion
        = Returned (infos, alerts)) /\
     (~ In (fst (resolveChartVersion catalog chart chartName pinnedChartVersion
                   (Chart_getDefaultVersion chart)))
           (map version (versions chart)) ->
      getChartInfos catalogs chartsByCatalogId catalogId chartName pinnedChartVersion
      = Thrown TypeError)).
Proof.
  split; [|split].
  - intros catalog chart defaultVersion. unfold resolveChartVersion.
    destruct pinnedChartVersion as [v|]; [|reflexivity].
    destruct (findVersion chart v) as [found|] eqn:E.
    + apply findVersion_Some in E as [_ Hin].
      rewrite bool_decide_eq_true_2; [reflexivity|now apply list_elem_of_In].
    + apply findVersion_None in E.
      rewrite bool_decide_eq_false_2; [reflexivity|now rewrite list_elem_of_In].
  - intros infos alerts. unfold getChartInfos, chartOf.
    destruct (JS.find _ catalogs) as [catalog|]; [|discriminate].
    destruct (chartsByCatalogId !! catalogId) as [charts|]; [|discriminate].
    cbn [mbind option_bind].
    destruct (JS.find _ charts) as [chart|]; [|discriminate].
    destruct (resolveChartVersion _ _ _ _ _) as [resolved shown] eqn:R.
    destruct (findVersion chart resolved) as [found|] eqn:F; [|discriminate].
    intros [= <- <-]. exists catalog, chart.
    cbn [defaultChartVersion chartVersion availableChartVersions].
    rewrite R. cbn [fst]. apply findVersion_Some in F as [_ Hin]. auto.
  - intros catalog chart Hcatalog Hchart. unfold getChartInfos, chartOf in *.
    rewrite Hcatalog.
    destruct (chartsByCatalogId !! catalogId) as [charts|]; [|discriminate].
    cbn [mbind option_bind] in Hchart. rewrite Hchart.
    destruct (resolveChartVersion _ _ _ _ _) as [resolved shown] eqn:R.
    cbn [fst]. split.
    + intros Hdefault.
      assert (Hin : In resolved (map version (versions chart))).
      { unfold resolveChartVersion in R.
        destruct pinnedChartVersion as [v|]; [|now injection R as <- _].
        destruct (findVersion chart v) as [found|] eqn:E.
        - injection R as <- _. now apply findVersion_Some in E as [_ Hin].
        - now injection R as <- _. }
      destruct (findVersion chart resolved) as [found|] eqn:F; [eauto|].
      apply findVersion_None in F. contradiction.
    + intros Hnot. apply findVersion_None in Hnot. now rewrite Hnot.
Qed.

(** *** More on the thunk *)

Section Outcomes.
Variable catalogs : list Catalog.
Variable chartsByCatalogId : gmap string (list Chart).
Variables catalogId chartName : string.
Variable pinnedChartVersion : option string.

Let outcome :=
  getChartInfos catalogs chartsByCatalogId catalogId chartName pinnedChartVersion.

Let catalogFound :=
  JS.find (fun catalog => String.eqb (catalog_id catalog) catalogId) catalogs.

(** What was resolved for a chart. *)
Definition resolved (chart : Chart) : string :=
  match pinnedChartVersion with
  | Some v => if bool_decide (v ∈ map version (versions chart)) then v
              else Chart_getDefaultVersion chart
  | None => Chart_getDefaultVersion chart
  end.

Lemma resolveChartVersion_resolved catalog chart :
  fst (resolveChartVersion catalog chart chartName pinnedChartVersion
         (Chart_getDefaultVersion chart))
  = resolved chart.
Proof.
  unfold resolveChartVersion, resolved.
  destruct pinnedChartVersion as [v|]; [|reflexivity].
  destruct (findVersion chart v) as [found|] eqn:E.
  - apply findVersion_Some in E as [_ Hin].
    rewrite bool_decide_eq_true_2; [reflexivity|now apply list_elem_of_In].
  - apply findVersion_None in E.
    rewrite bool_decide_eq_false_2; [reflexivity|now rewrite list_elem_of_In].
Qed.

Lemma resolveChartVersion_alerts catalog chart :
  snd (resolveChartVersion catalog chart chartName pinnedChartVersion
         (Chart_getDefaultVersion chart)) = []
  <-> (forall v, pinnedChartVersion = Some v -> In v (map version (versions chart))).
Proof.
  unfold resolveChartVersion.
  destruct pinnedChartVersion as [v|]; [|split; [discriminate|reflexivity]].
  destruct (findVersion chart v) as [found|] eqn:E.
  - apply findVersion_Some in E as [_ Hin].
    split; [now intros _ ? [= <-]|reflexivity].
  - apply findVersion_None in E. cbn [snd].
    split; [discriminate|]. intros H. elim E. now apply H.
Qed.

(** The thunk throws an assertion error when no catalog has the id, or when
    the catalog has charts but none of the name; it throws a type error
    when the catalog is there without an entry of charts, or when the
    version resolved is not a version of the chart. It returns in every
    other case, so whenever catalog and chart exist and the pinned version
    is a version of the chart, whatever the default version. *)
Theorem getChartInfos_throws :
  (outcome = Thrown AssertionError <->
   catalogFound = None \/
   (exists charts, chartsByCatalogId !! catalogId = Some charts /\
      chartOf chartsByCatalogId catalogId chartName = None)) /\
  (outcome = Thrown TypeError <->
   catalogFound <> None /\
   (chartsByCatalogId !! catalogId = None \/
    exists chart, chartOf chartsByCatalogId catalogId chartName = Some chart /\
                  ~ In (resolved chart) (map version (versions chart)))) /\
  (forall chart v,
     catalogFound <> None ->
     chartOf chartsByCatalogId catalogId chartName = Some chart ->
     pinnedChartVersion = Some v -> In v (map version (versions chart)) ->
     exists infos, outcome = Returned (infos, []) /\ chartVersion infos = v).
Proof.
  unfold outcome, catalogFound, getChartInfos, chartOf.
  destruct (JS.find _ catalogs) as [catalog|].
  2:{ split; [|split].
      - split; auto.
      - split; [discriminate|now intros [H _]].
      - intros chart v H. now elim H. }
  destruct (chartsByCatalogId !! catalogId) as [charts|]; cbn [mbind option_bind].
  2:{ split; [|split].
      - split; [discriminate|]. intros [[=]|(charts & [=] & _)].
      - split; [intros _; split; [discriminate|now left]|reflexivity].
      - intros chart v _ [=]. }
  destruct (JS.find _ charts) as [chart|].
  2:{ split; [|split].
      - split; [intros _; right; now exists charts|reflexivity].
      - split; [discriminate|]. intros [_ [[=]|(chart & [=] & _)]].
      - intros chart v _ [=]. }
  pose proof (resolveChartVersion_resolved catalog chart) as Hres.
  pose proof (resolveChartVersion_alerts catalog chart) as Halerts.
  destruct (resolveChartVersion _ _ _ _ _) as [chosen shown].
  cbn [fst snd] in Hres, Halerts. subst chosen.
  destruct (findVersion chart (resolved chart)) as [found|] eqn:F.
  - apply findVersion_Some in F as [_ Hin]. split; [|split].
    + split; [discriminate|]. intros [[=]|(charts' & _ & [=])].
    + split; [discriminate|]. intros [_ [[=]|(chart' & [= <-] & Hnot)]].
      contradiction.
    + intros chart' v _ [= <-] Hv Hvin.
      assert (Hshown : shown = []).
      { apply Halerts. intros v' Hv'. rewrite Hv in Hv'. now injection Hv' as <-. }
      subst shown. eexists. split; [reflexivity|]. cbn [chartVersion].
      unfold resolved. rewrite Hv.
      rewrite bool_decide_eq_true_2; [reflexivity|now apply list_elem_of_In].
  - apply findVersion_None in F. split; [|split].
    + split; [discriminate|]. intros [[=]|(charts' & _ & [=])].
    + split; [|reflexivity]. intros _. split; [discriminate|]. right. now exists chart.
    + intros chart' v _ [= <-] Hv Hvin. elim F. unfold resolved. rewrite Hv.
      rewrite bool_decide_eq_true_2; [exact Hvin|now apply list_elem_of_In].
Qed.

(** When the thunk returns, it has shown an alert exactly when a version
    was pinned that the chart does not have; it then shows one alert and
    returns the default version. Without an alert and with a pinned
    version, it returns the pinned version. *)
Theorem alert_for_missing_pinned_version (infos : ChartInfos) (alerts : list string) :
  outcome = Returned (infos, alerts) ->
  (alerts <> [] <->
   exists v, pinnedChartVersion = Some v /\ ~ In v (availableChartVersions infos)) /\
  length alerts <= 1 /\
  (alerts <> [] -> chartVersion infos = defaultChartVersion infos) /\
  (forall v, alerts = [] -> pinnedChartVersion = Some v -> chartVersion infos = v).
Proof.
  unfold outcome, getChartInfos.
  destruct (JS.find _ catalogs) as [catalog|]; [|discriminate].
  destruct (chartsByCatalogId !! catalogId) as [charts|]; [|discriminate].
  destruct (JS.find _ charts) as [chart|]; [|discriminate].
  unfold resolveChartVersion.
  destruct pinnedChartVersion as [v|].
  - destruct (findVersion chart v) as [found|] eqn:E.
    + rewrite E. intros [= <- <-]. cbn.
      apply findVersion_Some in E as [_ Hin].
      split; [|split; [lia|split; [congruence|now intros ? _ [= <-]]]].
      split; [congruence|]. intros (v' & [= <-] & Hnot). contradiction.
    + destruct (findVersion chart (Chart_getDefaultVersion chart)) as [found|];
        [|discriminate].
      intros [= <- <-]. cbn. apply findVersion_None in E.
      split; [|split; [lia|split; [reflexivity|discriminate]]].
      split; [intros _; now exists v|discriminate].
  - destruct (findVersion chart (Chart_getDefaultVersion chart)) as [found|];
      [|discriminate].
    intros [= <- <-]. cbn.
    split; [|split; [lia|split; [congruence|discriminate]]].
    split; [congruence|]. intros (v & [=] & _).
Qed.

End Outcomes.

End ChartInfos.

(** The catalog [ide] with one chart, and the first listed version as the
    default one. *)
Definition ideCatalog : Catalog :=
  {| catalog_id := "ide"; catalog_name := "IDE";
     repositoryUrl := "https://charts.example.org/ide" |}.

Definition jupyter : Chart :=
  {| name := "jupyter";
     versions := [ {| version := "2.0.0"; iconUrl := Some "jupyter.png" |};
                   {| version := "1.9.0"; iconUrl := None |} ] |}.

Definition firstVersion (chart : Chart) : string :=
  match versions chart with
  | chartVersion :: _ => version chartVersion
  | [] => EmptyString
  end.

(** Pinning a version the chart does not have. *)
Lemma chartVersion_resolved_witness :
  exists infos alerts,
    getChartInfos firstVersion [ideCatalog] {[ "ide" := [jupyter] ]}
      "ide" "jupyter" (Some "0.1.0")
    = Returned (infos, alerts).
Proof.
  refine (proj1 (proj2 (proj2
    (chartVersion_resolved firstVersion [ideCatalog] {[ "ide" := [jupyter] ]}
       "ide" "jupyter" (Some "0.1.0")))
    ideCatalog jupyter _ _) _).
  - reflexivity.
  - reflexivity.
  - cbn. auto.
Defined.

(** Pinning a version the chart does not have shows one alert. *)
Lemma alert_for_missing_pinned_version_witness :
  match getChartInfos firstVersion [ideCatalog] {[ "ide" := [jupyter] ]}
          "ide" "jupyter" (Some "0.1.0") with
  | Returned (infos, alerts) =>
      length alerts = 1 /\ chartVersion infos = defaultChartVersion infos
  | Thrown _ => False
  end.
Proof.
  destruct (getChartInfos firstVersion [ideCatalog] {[ "ide" := [jupyter] ]}
              "ide" "jupyter" (Some "0.1.0")) as [[infos alerts]|e] eqn:E.
  - destruct (alert_for_missing_pinned_version firstVersion [ideCatalog]
                {[ "ide" := [jupyter] ]} "ide" "jupyter" (Some "0.1.0")
                infos alerts E) as (Hiff & Hle & Hdefault & _).
    vm_compute in E. injection E as <- <-. split; reflexivity.
  - vm_compute in E. discriminate.
Defined.

End GetChartInfos.

(** *** getXOnyxiaContext *)

Module GetXOnyxiaContext.

Section Thunk.

(** The values the thunk hands over untouched have a type of their own;
    [emptyObject] is [{}]. The helpers [parseUrl],
    [bucketNameAndObjectNameFromS3Path] and the base 64 encoding
    [btoa(unescape(encodeURIComponent(s)))] are taken as they come. *)
Context {Opaque : Type}.
Variable emptyObject : Opaque.
Variable parseUrl : string -> string * option Z.
Variable bucketNameAndObjectNameFromS3Path_bucketName : string -> string.
Variable btoa_utf8 : string -> string.

(** **** What the thunk reads *)

Record User := {
  username : string;
  familyName : string;
  firstName : string;
  email : string
}.

Record UserConfigs := {
  isDarkModeEnabled : bool;
  gitName : string;
  gitEmail : string;
  gitCredentialCacheDuration : Z;
  githubPersonalAccessToken : option string;
  kaggleApiToken : option string
}.

Record VaultParams := { vault_url : string; kvEngine : string }.

Inductive WorkingDirectory :=
| multi (bucketNamePrefix bucketNamePrefixGroup : string)
| shared (bucketName : string).

Record S3Params := {
  sts : option Opaque;
  s3_url : string;
  s3_region : option string;
  s3_pathStyleAccess : bool;
  workingDirectory : WorkingDirectory
}.

Record Region := {
  vault : option VaultParams;
  s3Params : option S3Params;
  defaultIpProtection : Opaque;
  defaultNetworkPolicy : Opaque;
  allowedURIPatternForUserDefinedInitScript : Opaque;
  kafka : Opaque;
  from : Opaque;
  tolerations : Opaque;
  nodeSelector : Opaque;
  startupProbe : Opaque;
  sliders : Opaque;
  resources : Opaque;
  customValues : option Opaque;
  kubernetesClusterDomain : Opaque;
  ingressClassName : Opaque;
  ingress : Opaque;
  route : Opaque;
  istio : Opaque;
  initScriptUrl : Opaque;
  proxyInjection : Opaque;
  packageRepositoryInjection : Opaque;
  certificateAuthorityInjection : Opaque
}.

Record DataSource := {
  ds_url : string;
  accessKeyId : string;
  secretAccessKey : string;
  sessionToken : option string;
  ds_region : string;
  workingDirectoryPath : string;
  ds_pathStyleAccess : bool
}.

Record CustomS3Configs := {
  indexForXOnyxia : option nat;
  availableConfigs : list DataSource
}.

Record Project := { project_id : string; group : option string }.

(** The answer of [s3Client.getToken({ doForceRenew: false })]. *)
Record S3Token := {
  token_accessKeyId : string;
  token_secretAccessKey : string;
  token_sessionToken : option string
}.

(** The store, the parameters of the core, and what the awaited calls and
    the random generators answer in this run. *)
Record Inputs := {
  publicIp : string;
  user : User;
  userConfigs : UserConfigs;
  region : Region;
  servicePassword : string;
  customS3Configs : CustomS3Configs;
  project : Project;
  disablePersonalInfosInjectionInGroup : bool;
  currentLang : string;
  secretsManager_token : string;
  s3Client_token : S3Token;
  homeDirectoryPath : string;
  randomPassword : string;
  randomNumber : string
}.

(** **** The context *)

Record ContextUser := {
  idep : string;
  user_name : string;
  user_email : string;
  user_password : string;
  ip : string;
  darkMode : bool;
  lang : string
}.

Record ContextProject := {
  id : string;
  project_password : string;
  basic : string
}.

Record ContextGit := {
  git_name : string;
  git_email : string;
  credentials_cache_duration : Z;
  git_token : option string
}.

Record ContextVault := {
  VAULT_ADDR : string;
  VAULT_TOKEN : string;
  VAULT_MOUNT : string;
  VAULT_TOP_DIR : string
}.

Record ContextS3 := {
  AWS_ACCESS_KEY_ID : string;
  AWS_SECRET_ACCESS_KEY : string;
  AWS_SESSION_TOKEN : string;
  AWS_BUCKET_NAME : string;
  AWS_DEFAULT_REGION : string;
  AWS_S3_ENDPOINT : string;
  port : Z;
  pathStyleAccess : bool
}.

Record ContextRegion := {
  r_defaultIpProtection : Opaque;
  r_defaultNetworkPolicy : Opaque;
  r_allowedURIPattern : Opaque;
  r_kafka : Opaque;
  r_from : Opaque;
  r_tolerations : Opaque;
  r_nodeSelector : Opaque;
  r_startupProbe : Opaque;
  r_sliders : Opaque;
  r_resources : Opaque;
  r_customValues : Opaque
}.

Record ContextK8s := {
  k8s_domain : Opaque;
  k8s_ingressClassName : Opaque;
  k8s_ingress : Opaque;
  k8s_route : Opaque;
  k8s_istio : Opaque;
  k8s_randomSubdomain : string;
  k8s_initScriptUrl : Opaque
}.

Record XOnyxiaContext := {
  x_user : ContextUser;
  x_service_oneTimePassword : string;
  x_project : ContextProject;
  x_git : ContextGit;
  x_vault : ContextVault;
  x_kaggleApiToken : option string;
  x_s3 : ContextS3;
  x_region : ContextRegion;
  x_k8s : ContextK8s;
  x_proxyInjection : Opaque;
  x_packageRepositoryInjection : Opaque;
  x_certificateAuthorityInjection : Opaque
}.

(** The calls for a token the thunk awaits. *)
Inductive Call := secretsManager_getToken | s3Client_getToken.

(** **** The thunk *)

Definition doInjectPersonalInfos (i : Inputs) : bool :=
  bool_decide (group (project i) = None)
  || negb (disablePersonalInfosInjectionInGroup i).

Definition makeGit (i : Inputs) : ContextGit :=
  if negb (doInjectPersonalInfos i) then
    {| git_name := EmptyString; git_email := EmptyString;
       credentials_cache_duration := 0; git_token := None |}
  else
    {| git_name := gitName (userConfigs i);
       git_email := gitEmail (userConfigs i);
       credentials_cache_duration := gitCredentialCacheDuration (userConfigs i);
       git_token := githubPersonalAccessToken (userConfigs i) |}.

Definition makeVault (i : Inputs) : ContextVault * list Call :=
  match vault (region i) with
  | None =>
      ({| VAULT_ADDR := EmptyString; VAULT_TOKEN := EmptyString;
          VAULT_MOUNT := EmptyString; VAULT_TOP_DIR := EmptyString |}, [])
  | Some vault =>
      let '(token, calls) :=
        if negb (doInjectPersonalInfos i) then (EmptyString, [])
        else (secretsManager_token i, [secretsManager_getToken]) in
      ({| VAULT_ADDR := vault_url vault;
          VAULT_TOKEN := token;
          VAULT_MOUNT := kvEngine vault;
          VAULT_TOP_DIR := homeDirectoryPath i |}, calls)
  end.

(** [`${prefix}${project.group}`] prints an absent group as [undefined]. *)
Definition templateOfGroup (group : option string) : string :=
  match group with
  | Some g => g
  | None => "undefined"
  end.

Definition makeS3 (i : Inputs) : Outcome (ContextS3 * list Call) :=
  match indexForXOnyxia (customS3Configs i) with
  | Some index =>
      (* the block labelled inject_from_project_config *)
      match availableConfigs (customS3Configs i) !! index with
      | None => Thrown AssertionError
      | Some dataSource =>
          let '(host, parsedPort) := parseUrl (ds_url dataSource) in
          Returned
            ({| AWS_ACCESS_KEY_ID := accessKeyId dataSource;
                AWS_BUCKET_NAME :=
                  bucketNameAndObjectNameFromS3Path_bucketName
                    (workingDirectoryPath dataSource);
                AWS_SECRET_ACCESS_KEY := secretAccessKey dataSource;
                AWS_SESSION_TOKEN := default EmptyString (sessionToken dataSource);
                AWS_DEFAULT_REGION := ds_region dataSource;
                AWS_S3_ENDPOINT := host;
                port := default 443%Z parsedPort;
                pathStyleAccess := ds_pathStyleAccess dataSource |}, [])
      end
  | None =>
      match s3Params (region i) with
      | Some s3Params =>
          match sts s3Params with
          | Some _ =>
              let '(host, parsedPort) := parseUrl (s3_url s3Params) in
              let bucket :=
                match workingDirectory s3Params with
                | multi bucketNamePrefix bucketNamePrefixGroup =>
                    if bool_decide (group (project i) = None)
                    then bucketNamePrefixGroup +:+ templateOfGroup (group (project i))
                    else bucketNamePrefix +:+ username (user i)
                | shared bucketName => bucketName
                end in
              let rest keyId secret session :=
                {| AWS_ACCESS_KEY_ID := keyId;
                   AWS_SECRET_ACCESS_KEY := secret;
                   AWS_SESSION_TOKEN := session;
                   AWS_BUCKET_NAME := bucket;
                   AWS_DEFAULT_REGION := default EmptyString (s3_region s3Params);
                   AWS_S3_ENDPOINT := host;
                   port := default 443%Z parsedPort;
                   pathStyleAccess := s3_pathStyleAccess s3Params |} in
              if negb (doInjectPersonalInfos i) then
                Returned (rest EmptyString EmptyString EmptyString, [])
              else
                match token_sessionToken (s3Client_token i) with
                | None => Thrown AssertionError
                | Some sessionToken =>
                    Returned
                      (rest (token_accessKeyId (s3Client_token i))
                         (token_secretAccessKey (s3Client_token i)) sessionToken,
                       [s3Client_getToken])
                end
          | None =>
              Returned
                ({| AWS_ACCESS_KEY_ID := EmptyString;
                    AWS_SECRET_ACCESS_KEY := EmptyString;
                    AWS_SESSION_TOKEN := EmptyString;
                    AWS_BUCKET_NAME := EmptyString;
                    AWS_DEFAULT_REGION := EmptyString;
                    AWS_S3_ENDPOINT := EmptyString;
                    port := 0;
                    pathStyleAccess := true |}, [])
          end
      | None =>
          Returned
            ({| AWS_ACCESS_KEY_ID := EmptyString;
                AWS_SECRET_ACCESS_KEY := EmptyString;
                AWS_SESSION_TOKEN := EmptyString;
                AWS_BUCKET_NAME := EmptyString;
                AWS_DEFAULT_REGION := EmptyString;
                AWS_S3_ENDPOINT := EmptyString;
                port := 0;
                pathStyleAccess := true |}, [])
      end
  end.

(** The context, with the calls awaited on the way, oldest first. *)
Definition getXOnyxiaContext (i : Inputs) : Outcome (XOnyxiaContext * list Call) :=
  let '(contextVault, vaultCalls) := makeVault i in
  match makeS3 i with
  | Thrown e => Thrown e
  | Returned (contextS3, s3Calls) =>
      Returned
        ({| x_user :=
              {| idep := username (user i);
                 user_name := familyName (user i) +:+ " " +:+ firstName (user i);
                 user_email := email (user i);
                 user_password := servicePassword i;
                 ip := if negb (doInjectPersonalInfos i) then "0.0.0.0"
                       else publicIp i;
                 darkMode := isDarkModeEnabled (userConfigs i);
                 lang := currentLang i |};
            x_service_oneTimePassword := randomPassword i;
            x_project :=
              {| id := project_id (project i);
                 project_password := servicePassword i;
                 basic := btoa_utf8 (project_id (project i) +:+ ":"
                                     +:+ servicePassword i) |};
            x_git := makeGit i;
            x_vault := contextVault;
            x_kaggleApiToken :=
              if negb (doInjectPersonalInfos i) then None
              else kaggleApiToken (userConfigs i);
            x_s3 := contextS3;
            x_region :=
              {| r_defaultIpProtection := defaultIpProtection (region i);
                 r_defaultNetworkPolicy := defaultNetworkPolicy (region i);
                 r_allowedURIPattern :=
                   allowedURIPatternForUserDefinedInitScript (region i);
                 r_kafka := kafka (region i);
                 r_from := from (region i);
                 r_tolerations := tolerations (region i);
                 r_nodeSelector := nodeSelector (region i);
                 r_startupProbe := startupProbe (region i);
                 r_sliders := sliders (region i);
                 r_resources := resources (region i);
                 r_customValues := default emptyObject (customValues (region i)) |};
            x_k8s :=
              {| k8s_domain := kubernetesClusterDomain (region i);
                 k8s_ingressClassName := ingressClassName (region i);
                 k8s_ingress := ingress (region i);
                 k8s_route := route (region i);
                 k8s_istio := istio (region i);
                 k8s_randomSubdomain := randomNumber i;
                 k8s_initScriptUrl := initScriptUrl (region i) |};
            x_proxyInjection := proxyInjection (region i);
            x_packageRepositoryInjection := packageRepositoryInjection (region i);
            x_certificateAuthorityInjection :=
              certificateAuthorityInjection (region i) |},
         vaultCalls ++ s3Calls)
  end.

(** **** Redaction *)

(** The personal inputs behind the fields that are redacted: the public IP,
    the git identity and token, the Kaggle token, and the tokens of the
    secrets manager and of the S3 client. [erasePersonal] blanks them and
    keeps all the rest. *)
Definition erasePersonal (i : Inputs) : Inputs :=
  {| publicIp := EmptyString;
     user := user i;
     userConfigs :=
       {| isDarkModeEnabled := isDarkModeEnabled (userConfigs i);
          gitName := EmptyString;
          gitEmail := EmptyString;
          gitCredentialCacheDuration := 0;
          githubPersonalAccessToken := None;
          kaggleApiToken := None |};
     region := region i;
     servicePassword := servicePassword i;
     customS3Configs := customS3Configs i;
     project := project i;
     disablePersonalInfosInjectionInGroup := disablePersonalInfosInjectionInGroup i;
     currentLang := currentLang i;
     secretsManager_token := EmptyString;
     s3Client_token :=
       {| token_accessKeyId := EmptyString;
          token_secretAccessKey := EmptyString;
          token_sessionToken := None |};
     homeDirectoryPath := homeDirectoryPath i;
     randomPassword := randomPassword i;
     randomNumber := randomNumber i |}.

(** Two runs differ only in the personal inputs. *)
Definition samePublicInputs (i i' : Inputs) : Prop :=
  erasePersonal i = erasePersonal i'.

Definition redactedGit : ContextGit :=
  {| git_name := EmptyString; git_email := EmptyString;
     credentials_cache_duration := 0; git_token := None |}.

Lemma doInjectPersonalInfos_false i g :
  group (project i) = Some g ->
  disablePersonalInfosInjectionInGroup i = true ->
  doInjectPersonalInfos i = false.
Proof.
  intros Hg Hd. unfold doInjectPersonalInfos. rewrite Hg, Hd.
  now rewrite bool_decide_eq_false_2.
Qed.

Lemma doInjectPersonalInfos_erasePersonal i :
  doInjectPersonalInfos (erasePersonal i) = doInjectPersonalInfos i.
Proof. reflexivity. Qed.

(** With the redaction on, the thunk does not look at the personal inputs. *)
Lemma getXOnyxiaContext_erasePersonal i :
  doInjectPersonalInfos i = false ->
  getXOnyxiaContext (erasePersonal i) = getXOnyxiaContext i.
Proof.
  intros H. unfold getXOnyxiaContext, makeVault, makeS3, makeGit.
  rewrite !doInjectPersonalInfos_erasePersonal, !H.
  cbn [negb erasePersonal region vault customS3Configs project user
       servicePassword homeDirectoryPath randomPassword randomNumber
       currentLang userConfigs isDarkModeEnabled].
  reflexivity.
Qed.

(** C8, as the code has it. When the project has a group and the injection
    of personal information in groups is disabled, the context has the IP
    [0.0.0.0], an empty git block, an empty [VAULT_TOKEN] and no Kaggle
    token, and no token was asked for. The three AWS credentials are empty
    strings when the project configuration selects no S3 configuration of
    its own for the context; when it selects one, they are the credentials
    of that configuration. The thunk returns unless the selected index is out
    of range. In all cases two runs that differ only in the personal inputs
    end the same. *)
Theorem personal_fields_redacted (i : Inputs) (g : string) :
  group (project i) = Some g ->
  disablePersonalInfosInjectionInGroup i = true ->
  (forall ctx calls, getXOnyxiaContext i = Returned (ctx, calls) ->
     ip (x_user ctx) = "0.0.0.0" /\
     x_git ctx = redactedGit /\
     VAULT_TOKEN (x_vault ctx) = EmptyString /\
     x_kaggleApiToken ctx = None /\
     calls = [] /\
     match indexForXOnyxia (customS3Configs i) with
     | None =>
         AWS_ACCESS_KEY_ID (x_s3 ctx) = EmptyString /\
         AWS_SECRET_ACCESS_KEY (x_s3 ctx) = EmptyString /\
         AWS_SESSION_TOKEN (x_s3 ctx) = EmptyString
     | Some index =>
         exists dataSource,
           availableConfigs (customS3Configs i) !! index = Some dataSource /\
           AWS_ACCESS_KEY_ID (x_s3 ctx) = accessKeyId dataSource /\
           AWS_SECRET_ACCESS_KEY (x_s3 ctx) = secretAccessKey dataSource /\
           AWS_SESSION_TOKEN (x_s3 ctx) = default EmptyString (sessionToken dataSource)
     end) /\
  ((exists ctx calls, getXOnyxiaContext i = Returned (ctx, calls)) <->
   (forall index, indexForXOnyxia (customS3Configs i) = Some index ->
      is_Some (availableConfigs (customS3Configs i) !! index))) /\
  (forall i', samePublicInputs i i' -> getXOnyxiaContext i' = getXOnyxiaContext i).
Proof.
  intros Hg Hd. pose proof (doInjectPersonalInfos_false i g Hg Hd) as Hno.
  split; [|split].
  - intros ctx calls. unfold getXOnyxiaContext, makeVault, makeS3, makeGit.
    rewrite !Hno. cbn [negb].
    destruct (vault (region i)) as [v|];
      destruct (indexForXOnyxia (customS3Configs i)) as [index|].
    all: try (destruct (availableConfigs (customS3Configs i) !! index)
                as [dataSource|]; [|discriminate];
              destruct (parseUrl (ds_url dataSource)) as [host parsedPort]).
    all: try (destruct (s3Params (region i)) as [s3|];
              [destruct (sts s3);
               [destruct (parseUrl (s3_url s3)) as [host parsedPort]|]|]).
    all: intros [= <- <-]; cbn; repeat split; eauto.
  - unfold getXOnyxiaContext. destruct (makeVault i) as [contextVault vaultCalls].
    assert (HS3 : (exists r, makeS3 i = Returned r) <->
                  (forall index, indexForXOnyxia (customS3Configs i) = Some index ->
                     is_Some (availableConfigs (customS3Configs i) !! index))).
    { unfold makeS3. rewrite !Hno. cbn [negb].
      destruct (indexForXOnyxia (customS3Configs i)) as [index|].
      - destruct (availableConfigs (customS3Configs i) !! index)
          as [dataSource|] eqn:E.
        + destruct (parseUrl (ds_url dataSource)) as [host parsedPort].
          split; [intros _ ? [= <-]; rewrite E|]; eauto.
        + split; [intros [? [=]]|].
          intros H. destruct (H index eq_refl) as [dataSource H'].
          rewrite E in H'. discriminate.
      - split; [intros _ ? [=]|intros _].
        destruct (s3Params (region i)) as [s3|];
          [destruct (sts s3);
           [destruct (parseUrl (s3_url s3)) as [host parsedPort]|]|]; eauto. }
    rewrite <- HS3. split.
    + intros (ctx & calls & H).
      destruct (makeS3 i) as [[contextS3 s3Calls]|]; [eauto|discriminate].
    + intros [[contextS3 s3Calls] H]. rewrite H. eauto.
  - intros i' Hsame. unfold samePublicInputs in Hsame.
    assert (Hno' : doInjectPersonalInfos i' = false).
    { rewrite <- doInjectPersonalInfos_erasePersonal, <- Hsame.
      now rewrite doInjectPersonalInfos_erasePersonal. }
    rewrite <- (getXOnyxiaContext_erasePersonal i' Hno'), <- Hsame.
    now apply getXOnyxiaContext_erasePersonal.
Qed.

(** **** More on the thunk *)

(** The S3 block made from a configuration of the project. *)
Definition s3OfDataSource (dataSource : DataSource) : ContextS3 :=
  {| AWS_ACCESS_KEY_ID := accessKeyId dataSource;
     AWS_BUCKET_NAME :=
       bucketNameAndObjectNameFromS3Path_bucketName (workingDirectoryPath dataSource);
     AWS_SECRET_ACCESS_KEY := secretAccessKey dataSource;
     AWS_SESSION_TOKEN := default EmptyString (sessionToken dataSource);
     AWS_DEFAULT_REGION := ds_region dataSource;
     AWS_S3_ENDPOINT := fst (parseUrl (ds_url dataSource));
     port := default 443%Z (snd (parseUrl (ds_url dataSource)));
     pathStyleAccess := ds_pathStyleAccess dataSource |}.

(** Whether the region hands out S3 tokens. *)
Definition regionHasSts (i : Inputs) : bool :=
  match s3Params (region i) with
  | Some s3Params => bool_decide (is_Some (sts s3Params))
  | None => false
  end.

Lemma getXOnyxiaContext_Returned i ctx calls :
  getXOnyxiaContext i = Returned (ctx, calls) ->
  exists contextS3 s3Calls,
    makeS3 i = Returned (contextS3, s3Calls) /\
    x_s3 ctx = contextS3 /\
    x_vault ctx = fst (makeVault i) /\
    x_git ctx = makeGit i /\
    calls = snd (makeVault i) ++ s3Calls.
Proof.
  unfold getXOnyxiaContext. destruct (makeVault i) as [contextVault vaultCalls].
  destruct (makeS3 i) as [[contextS3 s3Calls]|]; [|discriminate].
  intros [= <- <-]. exists contextS3, s3Calls. auto.
Qed.

(** The thunk never fails but by an assertion, and it fails in two cases
    only: the S3 configuration selected by the project does not exist; or,
    no configuration being selected, the region hands out tokens, personal
    information is injected and the token got has no session token. *)
Theorem getXOnyxiaContext_throws (i : Inputs) (e : Error) :
  getXOnyxiaContext i = Thrown e <->
  e = AssertionError /\
  ((exists index, indexForXOnyxia (customS3Configs i) = Some index /\
      availableConfigs (customS3Configs i) !! index = None) \/
   (indexForXOnyxia (customS3Configs i) = None /\
    regionHasSts i = true /\
    doInjectPersonalInfos i = true /\
    token_sessionToken (s3Client_token i) = None)).
Proof.
  unfold getXOnyxiaContext, makeS3, regionHasSts.
  destruct (makeVault i) as [contextVault vaultCalls].
  destruct (indexForXOnyxia (customS3Configs i)) as [index|].
  - destruct (availableConfigs (customS3Configs i) !! index) as [dataSource|] eqn:E.
    + destruct (parseUrl (ds_url dataSource)) as [host parsedPort].
      split; [discriminate|].
      intros [_ [(index' & [= <-] & H)|([=] & _)]]. congruence.
    + split; [intros [= <-]; split; [reflexivity|left; eauto]|now intros [-> _]].
  - destruct (s3Params (region i)) as [s3|].
    2:{ split; [discriminate|]. intros [_ [(? & [=] & _)|(_ & [=] & _)]]. }
    destruct (sts s3) as [o|].
    2:{ split; [discriminate|]. intros [_ [(? & [=] & _)|(_ & H & _)]].
        rewrite bool_decide_eq_false_2 in H; [discriminate|]. now intros [? [=]]. }
    destruct (parseUrl (s3_url s3)) as [host parsedPort].
    destruct (doInjectPersonalInfos i); cbn [negb].
    + destruct (token_sessionToken (s3Client_token i)) as [session|].
      * split; [discriminate|]. intros [_ [(? & [=] & _)|(_ & _ & _ & [=])]].
      * split; [intros [= <-]|now intros [-> _]].
        split; [reflexivity|right]. repeat split.
    + split; [discriminate|]. intros [_ [(? & [=] & _)|(_ & _ & [=] & _)]].
Qed.

(** A token is asked from the secrets manager exactly when personal
    information is injected and the region has a vault, and from the S3
    client exactly when personal information is injected, the project
    selects no S3 configuration of its own and the region hands out tokens;
    in this order, each at most once. *)
Theorem tokens_asked_when_used (i : Inputs) (ctx : XOnyxiaContext) (calls : list Call) :
  getXOnyxiaContext i = Returned (ctx, calls) ->
  calls
  = (if doInjectPersonalInfos i && bool_decide (is_Some (vault (region i)))
     then [secretsManager_getToken] else [])
    ++ (if doInjectPersonalInfos i
           && bool_decide (indexForXOnyxia (customS3Configs i) = None)
           && regionHasSts i
        then [s3Client_getToken] else []).
Proof.
  intros H. apply getXOnyxiaContext_Returned in H
    as (contextS3 & s3Calls & Hs3 & _ & _ & _ & ->).
  f_equal.
  - unfold makeVault. destruct (vault (region i)) as [v|].
    + rewrite bool_decide_eq_true_2 by now eexists.
      now destruct (doInjectPersonalInfos i).
    + rewrite bool_decide_eq_false_2 by now intros [? [=]].
      now rewrite andb_false_r.
  - revert Hs3. unfold makeS3, regionHasSts.
    destruct (indexForXOnyxia (customS3Configs i)) as [index|].
    + rewrite (bool_decide_eq_false_2 (Some index = None)) by discriminate.
      rewrite andb_false_r. cbn [andb].
      destruct (availableConfigs (customS3Configs i) !! index) as [dataSource|];
        [|discriminate].
      destruct (parseUrl (ds_url dataSource)). now intros [= _ <-].
    + rewrite (bool_decide_eq_true_2 (@None nat = None)) by reflexivity.
      rewrite andb_true_r.
      destruct (s3Params (region i)) as [s3|];
        [|rewrite andb_false_r; now intros [= _ <-]].
      destruct (sts s3) as [o|].
      * rewrite (bool_decide_eq_true_2 (is_Some (Some o))) by now eexists.
        rewrite andb_true_r.
        destruct (parseUrl (s3_url s3)).
        destruct (doInjectPersonalInfos i); cbn [negb]; [|now intros [= _ <-]].
        destruct (token_sessionToken (s3Client_token i)); [|discriminate].
        now intros [= _ <-].
      * rewrite (bool_decide_eq_false_2 (is_Some (@None Opaque)))
          by now intros [? [=]].
        rewrite andb_false_r. now intros [= _ <-].
Qed.

(** A configuration selected by the project wins over everything else: the
    S3 block of the context is made of it alone, whatever the region, the
    injection of personal information and the tokens. *)
Theorem selected_s3_configuration_wins (i : Inputs) (index : nat)
    (dataSource : DataSource) :
  indexForXOnyxia (customS3Configs i) = Some index ->
  availableConfigs (customS3Configs i) !! index = Some dataSource ->
  exists ctx calls,
    getXOnyxiaContext i = Returned (ctx, calls) /\
    x_s3 ctx = s3OfDataSource dataSource /\
    ~ In s3Client_getToken calls.
Proof.
  intros Hindex Hds. unfold getXOnyxiaContext, makeS3. rewrite Hindex, Hds.
  unfold s3OfDataSource. destruct (parseUrl (ds_url dataSource)) as [host parsedPort].
  unfold makeVault.
  destruct (vault (region i)) as [v|]; [destruct (negb (doInjectPersonalInfos i))|];
    eexists; eexists; (split; [reflexivity|]); (split; [reflexivity|]);
    cbn; intuition discriminate.
Qed.

(** The name of the bucket, when the region hands out tokens and the
    project selects no configuration: the bucket of the region in shared
    mode; in multi mode the user prefix followed by the user name for a
    project with a group, the group prefix followed by [undefined] for a
    project without one. *)
Theorem bucket_name_of_region (i : Inputs) (s3 : S3Params) (ctx : XOnyxiaContext)
    (calls : list Call) :
  indexForXOnyxia (customS3Configs i) = None ->
  s3Params (region i) = Some s3 ->
  is_Some (sts s3) ->
  getXOnyxiaContext i = Returned (ctx, calls) ->
  AWS_BUCKET_NAME (x_s3 ctx)
  = match workingDirectory s3, group (project i) with
    | shared bucketName, _ => bucketName
    | multi bucketNamePrefix _, Some _ => bucketNamePrefix +:+ username (user i)
    | multi _ bucketNamePrefixGroup, None => bucketNamePrefixGroup +:+ "undefined"
    end.
Proof.
  intros Hindex Hs3 [o Hsts] H.
  apply getXOnyxiaContext_Returned in H as (contextS3 & s3Calls & H & -> & _).
  revert H. unfold makeS3. rewrite Hindex, Hs3, Hsts.
  destruct (parseUrl (s3_url s3)) as [host parsedPort].
  destruct (negb (doInjectPersonalInfos i)).
  - intros [= <- _]. cbn [AWS_BUCKET_NAME].
    destruct (workingDirectory s3); [|reflexivity].
    now destruct (group (project i)).
  - destruct (token_sessionToken (s3Client_token i)); [|discriminate].
    intros [= <- _]. cbn [AWS_BUCKET_NAME].
    destruct (workingDirectory s3); [|reflexivity].
    now destruct (group (project i)).
Qed.

(** What the context tells of the user. Whether personal information is
    injected or not, it carries the user name, full name, e-mail and the
    service password, the latter also as the password of the project. The
    public IP, the git settings, the Kaggle token and the vault token are
    the user's own when personal information is injected, that is when the
    project has no group or the injection in groups is not disabled. *)
Theorem context_user_fields (i : Inputs) (ctx : XOnyxiaContext) (calls : list Call) :
  getXOnyxiaContext i = Returned (ctx, calls) ->
  (idep (x_user ctx) = username (user i) /\
   user_name (x_user ctx) = familyName (user i) +:+ " " +:+ firstName (user i) /\
   user_email (x_user ctx) = email (user i) /\
   user_password (x_user ctx) = servicePassword i /\
   project_password (x_project ctx) = user_password (x_user ctx)) /\
  (doInjectPersonalInfos i = true <->
   group (project i) = None \/ disablePersonalInfosInjectionInGroup i = false) /\
  (doInjectPersonalInfos i = true ->
   ip (x_user ctx) = publicIp i /\
   git_name (x_git ctx) = gitName (userConfigs i) /\
   git_email (x_git ctx) = gitEmail (userConfigs i) /\
   credentials_cache_duration (x_git ctx) = gitCredentialCacheDuration (userConfigs i) /\
   git_token (x_git ctx) = githubPersonalAccessToken (userConfigs i) /\
   x_kaggleApiToken ctx = kaggleApiToken (userConfigs i) /\
   VAULT_TOKEN (x_vault ctx)
   = if bool_decide (is_Some (vault (region i))) then secretsManager_token i
     else EmptyString).
Proof.
  intros H. split; [|split].
  - revert H. unfold getXOnyxiaContext. destruct (makeVault i).
    destruct (makeS3 i) as [[? ?]|]; [|discriminate].
    intros [= <- _]. cbn. auto.
  - unfold doInjectPersonalInfos. rewrite orb_true_iff, negb_true_iff.
    rewrite bool_decide_eq_true. reflexivity.
  - intros Hinject. revert H. unfold getXOnyxiaContext, makeVault, makeGit.
    rewrite !Hinject. cbn [negb].
    destruct (vault (region i)) as [v|];
      (destruct (makeS3 i) as [[? ?]|]; [|discriminate]);
      intros [= <- _]; cbn; repeat split.
Qed.

End Thunk.

(** **** A group project with the injection of personal information off *)

Definition exampleRegion : Region (Opaque := unit) :=
  {| vault := Some {| vault_url := "https://vault.example.org"; kvEngine := "onyxia-kv" |};
     s3Params :=
       Some {| sts := Some tt; s3_url := "https://minio.example.org";
               s3_region := Some "us-east-1"; s3_pathStyleAccess := true;
               workingDirectory := multi "user-" "projet-" |};
     defaultIpProtection := tt; defaultNetworkPolicy := tt;
     allowedURIPatternForUserDefinedInitScript := tt; kafka := tt; from := tt;
     tolerations := tt; nodeSelector := tt; startupProbe := tt; sliders := tt;
     resources := tt; customValues := None; kubernetesClusterDomain := tt;
     ingressClassName := tt; ingress := tt; route := tt; istio := tt;
     initScriptUrl := tt; proxyInjection := tt;
     packageRepositoryInjection := tt; certificateAuthorityInjection := tt |}.

Definition exampleDataSource : DataSource :=
  {| ds_url := "https://s3.example.org"; accessKeyId := "AKIAEXAMPLE";
     secretAccessKey := "s3cr3t"; sessionToken := Some "session-1";
     ds_region := "eu-west-1"; workingDirectoryPath := "bucket/dir";
     ds_pathStyleAccess := false |}.

(** [selected] is [customS3Configs.indexForXOnyxia]. *)
Definition exampleInputs (selected : option nat) : Inputs (Opaque := unit) :=
  {| publicIp := "203.0.113.7";
     user := {| username := "jdoe"; familyName := "Doe"; firstName := "John";
                email := "jdoe@example.org" |};
     userConfigs :=
       {| isDarkModeEnabled := true; gitName := "John Doe";
          gitEmail := "jdoe@example.org"; gitCredentialCacheDuration := 3600;
          githubPersonalAccessToken := Some "ghp_x";
          kaggleApiToken := Some "kaggle-1" |};
     region := exampleRegion;
     servicePassword := "pw";
     customS3Configs :=
       {| indexForXOnyxia := selected; availableConfigs := [exampleDataSource] |};
     project := {| project_id := "datalab"; group := Some "datalab" |};
     disablePersonalInfosInjectionInGroup := true;
     currentLang := "en";
     secretsManager_token := "s.vault-1";
     s3Client_token :=
       {| token_accessKeyId := "STSKEY"; token_secretAccessKey := "stssecret";
          token_sessionToken := Some "sts-session" |};
     homeDirectoryPath := "/projet-datalab";
     randomPassword := "otp";
     randomNumber := "123456" |}.

Definition exampleContext (i : Inputs (Opaque := unit))
    : Outcome (XOnyxiaContext * list Call) :=
  getXOnyxiaContext tt (fun url => (url, None)) (fun s3Path => "bucket")
    (fun s => s) i.

(** C8 as the spec states it fails when the project configuration selects an
    S3 configuration of its own: the project has a group, the injection is
    off, and the three AWS credentials of the context are those of the
    selected configuration, not empty strings. *)
Lemma custom_s3_credentials_not_redacted :
  let i := exampleInputs (Some 0) in
  group (project i) = Some "datalab" /\
  disablePersonalInfosInjectionInGroup i = true /\
  doInjectPersonalInfos i = false /\
  exists ctx calls,
    exampleContext i = Returned (ctx, calls) /\
    AWS_ACCESS_KEY_ID (x_s3 ctx) = "AKIAEXAMPLE" /\
    AWS_SECRET_ACCESS_KEY (x_s3 ctx) = "s3cr3t" /\
    AWS_SESSION_TOKEN (x_s3 ctx) = "session-1" /\
    AWS_ACCESS_KEY_ID (x_s3 ctx) <> EmptyString /\
    AWS_SECRET_ACCESS_KEY (x_s3 ctx) <> EmptyString /\
    AWS_SESSION_TOKEN (x_s3 ctx) <> EmptyString.
Proof.
  cbn zeta. repeat (split; [reflexivity|]).
  eexists. eexists. split; [reflexivity|]. cbn.
  repeat split; discriminate.
Qed.

(** Without a selected configuration the run does not depend on the
    personal inputs. *)
Lemma personal_fields_redacted_witness :
  exampleContext (erasePersonal (exampleInputs None))
  = exampleContext (exampleInputs None).
Proof.
  refine (proj2 (proj2
    (personal_fields_redacted tt (fun url => (url, None)) (fun s3Path => "bucket")
       (fun s => s) (exampleInputs None) "datalab" _ _)) _ _);
    reflexivity.
Defined.

(** The same project with the injection of personal information on. *)
Definition exampleInputsInjecting (selected : option nat) : Inputs (Opaque := unit) :=
  {| publicIp := publicIp (exampleInputs selected);
     user := user (exampleInputs selected);
     userConfigs := userConfigs (exampleInputs selected);
     region := region (exampleInputs selected);
     servicePassword := servicePassword (exampleInputs selected);
     customS3Configs := customS3Configs (exampleInputs selected);
     project := project (exampleInputs selected);
     disablePersonalInfosInjectionInGroup := false;
     currentLang := currentLang (exampleInputs selected);
     secretsManager_token := secretsManager_token (exampleInputs selected);
     s3Client_token := s3Client_token (exampleInputs selected);
     homeDirectoryPath := homeDirectoryPath (exampleInputs selected);
     randomPassword := randomPassword (exampleInputs selected);
     randomNumber := randomNumber (exampleInputs selected) |}.

Lemma tokens_asked_when_used_witness :
  match exampleContext (exampleInputsInjecting None) with
  | Returned (ctx, calls) => calls = [secretsManager_getToken; s3Client_getToken]
  | Thrown _ => False
  end.
Proof.
  destruct (exampleContext (exampleInputsInjecting None)) as [[ctx calls]|e] eqn:E.
  - exact (tokens_asked_when_used tt (fun url => (url, None))
             (fun s3Path => "bucket") (fun s => s)
             (exampleInputsInjecting None) ctx calls E).
  - vm_compute in E. discriminate.
Defined.

Lemma selected_s3_configuration_wins_witness :
  exists ctx calls,
    exampleContext (exampleInputs (Some 0)) = Returned (ctx, calls) /\
    x_s3 ctx
    = s3OfDataSource (fun url => (url, None)) (fun s3Path => "bucket")
        exampleDataSource /\
    ~ In s3Client_getToken calls.
Proof.
  refine (selected_s3_configuration_wins tt (fun url => (url, None))
            (fun s3Path => "bucket") (fun s => s)
            (exampleInputs (Some 0)) 0 exampleDataSource _ _);
    reflexivity.
Defined.

Lemma bucket_name_of_region_witness :
  match exampleContext (exampleInputs None) with
  | Returned (ctx, calls) => AWS_BUCKET_NAME (x_s3 ctx) = "user-jdoe"
  | Thrown _ => False
  end.
Proof.
  destruct (exampleContext (exampleInputs None)) as [[ctx calls]|e] eqn:E.
  - refine (bucket_name_of_region tt (fun url => (url, None))
              (fun s3Path => "bucket") (fun s => s)
              (exampleInputs None)
              {| sts := Some tt; s3_url := "https://minio.example.org";
                 s3_region := Some "us-east-1"; s3_pathStyleAccess := true;
                 workingDirectory := multi "user-" "projet-" |}
              ctx calls _ _ _ E).
    + reflexivity.
    + reflexivity.
    + now exists tt.
  - vm_compute in E. discriminate.
Defined.

Lemma context_user_fields_witness :
  match exampleContext (exampleInputsInjecting None) with
  | Returned (ctx, calls) =>
      ip (x_user ctx) = "203.0.113.7" /\ VAULT_TOKEN (x_vault ctx) = "s.vault-1"
  | Thrown _ => False
  end.
Proof.
  destruct (exampleContext (exampleInputsInjecting None)) as [[ctx calls]|e] eqn:E.
  - destruct (context_user_fields tt (fun url => (url, None))
                (fun s3Path => "bucket") (fun s => s)
                (exampleInputsInjecting None) ctx calls E) as (_ & _ & H).
    destruct (H eq_refl) as (Hip & _ & _ & _ & _ & _ & Hvault).
    split; [exact Hip|exact Hvault].
  - vm_compute in E. discriminate.
Defined.

End GetXOnyxiaContext.

(** *** initialize: the part that runs after the awaits *)

Module Initialize.
Import GetChartInfos GetXOnyxiaContext.

Section Initialize.

Context {number RegExp Opaque Dependencies SourceUrls : Type}.
Variable String_of_number : number -> string.
Variable yaml_stringify : option (JSONValue (number := number)) -> string.
Variable RegExp_new : string -> option RegExp.
Variable RegExp_test : RegExp -> string -> bool.
Variable getIsRestorableConfigSaved :
  string -> string -> string -> list (FormFieldValue (number := number)) -> bool.
Variable Chart_getDefaultVersion : Chart -> string.
Variable emptyObject : Opaque.
Variable parseUrl : string -> string * option Z.
Variable bucketNameAndObjectNameFromS3Path_bucketName : string -> string.
Variable btoa_utf8 : string -> string.

(** The answer of [onyxiaApi.getHelmChartDetails]; the API is taken to
    answer every call. *)
Record HelmChartDetails := {
  nonLibraryDependencies : Dependencies;
  sourceUrls : SourceUrls;
  getChartValuesSchemaJson :
    XOnyxiaContext (Opaque := Opaque) -> list (string * JSONSchema (number := number))
}.

Variable getHelmChartDetails : string -> string -> string -> HelmChartDetails.

(** The parameters of [initialize]. *)
Record InitializeParams := {
  i_catalogId : string;
  i_chartName : string;
  i_chartVersion : option string;
  i_formFieldsValueDifferentFromDefault : list (FormFieldValue (number := number))
}.

(** The payload of [actions.initialized]. *)
Record Initialized := {
  p_catalogId : string;
  p_catalogName : string;
  p_catalogRepositoryUrl : string;
  p_chartIconUrl : option string;
  p_chartName : string;
  p_defaultChartVersion : string;
  p_chartVersion : string;
  p_availableChartVersions : list string;
  p_chartSourceUrls : SourceUrls;
  p_formFields : list (FormField (number := number));
  p_infosAboutWhenFieldsShouldBeHidden : list (HiddenInfo (number := number));
  p_valuesSchema : list (string * JSONSchema (number := number));
  p_nonLibraryChartDependencies : Dependencies;
  p_formFieldsValueDifferentFromDefault : list (FormFieldValue (number := number));
  p_sensitiveConfigurations : list (FormFieldValue (number := number));
  p_k8sRandomSubdomain : string
}.

Inductive Action :=
| initialized (payload : Initialized)
| defaultChartVersionSelected.

(** What [initialize] hands to [getInitialFormFields]. *)
Definition walkParams (params : InitializeParams) (chartVersion : string)
    (valuesSchema : list (string * JSONSchema (number := number))) : Params :=
  {| catalogId := i_catalogId params;
     chartName := i_chartName params;
     Launcher.chartVersion := chartVersion;
     formFieldsValueDifferentFromDefault :=
       i_formFieldsValueDifferentFromDefault params;
     valuesSchema := valuesSchema |}.

(** The asynchronous function [initialize] starts: the actions it
    dispatches, oldest first. [catalogs] and [chartsByCatalogId] are what
    the API answers to [getChartInfos], [inputs] what [getXOnyxiaContext]
    reads, [completed] whether [ctx.completionStatus] is set when the awaits
    are over. A thunk that throws rejects the function: nothing more is
    dispatched. *)
Definition initializeAsync (params : InitializeParams)
    (catalogs : list Catalog) (chartsByCatalogId : gmap string (list Chart))
    (inputs : Inputs (Opaque := Opaque)) (completed : bool) : list Action :=
  match getChartInfos Chart_getDefaultVersion catalogs chartsByCatalogId
          (i_catalogId params) (i_chartName params) (i_chartVersion params) with
  | Thrown _ => []
  | Returned (infos, _) =>
      let details :=
        getHelmChartDetails (i_catalogId params) (i_chartName params)
          (chartVersion infos) in
      match getXOnyxiaContext emptyObject parseUrl
              bucketNameAndObjectNameFromS3Path_bucketName btoa_utf8 inputs with
      | Thrown _ => []
      | Returned (xOnyxiaContext, _) =>
          if completed then []
          else
            let valuesSchema := getChartValuesSchemaJson details xOnyxiaContext in
            match getInitialFormFields String_of_number yaml_stringify
                    RegExp_new RegExp_test getIsRestorableConfigSaved
                    (walkParams params (chartVersion infos) valuesSchema) with
            | Aborted _ _ => []
            | Completed w =>
                initialized
                  {| p_catalogId := i_catalogId params;
                     p_catalogName := catalogName infos;
                     p_catalogRepositoryUrl := catalogRepositoryUrl infos;
                     p_chartIconUrl := chartIconUrl infos;
                     p_chartName := i_chartName params;
                     p_defaultChartVersion := defaultChartVersion infos;
                     p_chartVersion := chartVersion infos;
                     p_availableChartVersions := availableChartVersions infos;
                     p_chartSourceUrls := sourceUrls details;
                     p_formFields := formFields w;
                     p_infosAboutWhenFieldsShouldBeHidden :=
                       infosAboutWhenFieldsShouldBeHidden w;
                     p_valuesSchema := valuesSchema;
                     p_nonLibraryChartDependencies := nonLibraryDependencies details;
                     p_formFieldsValueDifferentFromDefault :=
                       i_formFieldsValueDifferentFromDefault params;
                     p_sensitiveConfigurations :=
                       default [] (sensitiveConfigurations w);
                     p_k8sRandomSubdomain :=
                       k8s_randomSubdomain (x_k8s xOnyxiaContext) |}
                :: match i_chartVersion params with
                   | None => [defaultChartVersionSelected]
                   | Some _ => []
                   end
            end
      end
  end.

Lemma getChartInfos_Returned_version catalogs chartsByCatalogId catalogId chartName
    pinned infos alerts :
  getChartInfos Chart_getDefaultVersion catalogs chartsByCatalogId catalogId
    chartName pinned = Returned (infos, alerts) ->
  In (chartVersion infos) (availableChartVersions infos).
Proof.
  unfold getChartInfos.
  destruct (JS.find _ catalogs) as [catalog|]; [|discriminate].
  destruct (chartsByCatalogId !! catalogId) as [charts|]; [|discriminate].
  destruct (JS.find _ charts) as [chart|]; [|discriminate].
  destruct (resolveChartVersion _ _ _ _ _) as [chosen shown].
  destruct (findVersion chart chosen) as [found|] eqn:F; [|discriminate].
  intros [= <- _]. cbn. now apply findVersion_Some in F as [_ Hin].
Qed.

(** What [initialize] hands to the store hangs together. The version in the
    payload is one of the available versions of the payload, and it is for
    this version, not for the pinned one, that the details of the chart
    were asked; the schema of the payload is the schema of these details;
    the form fields are those of the leaves of this schema, in order, each
    with its visibility entry at the same position; and every sensitive
    configuration is one of the values the caller gave as different from
    the default. *)
Theorem initialized_payload_consistent (params : InitializeParams)
    (catalogs : list Catalog) (chartsByCatalogId : gmap string (list Chart))
    (inputs : Inputs) (completed : bool) (payload : Initialized) :
  In (initialized payload)
     (initializeAsync params catalogs chartsByCatalogId inputs completed) ->
  In (p_chartVersion payload) (p_availableChartVersions payload) /\
  (exists xOnyxiaContext calls,
     getXOnyxiaContext emptyObject parseUrl
       bucketNameAndObjectNameFromS3Path_bucketName btoa_utf8 inputs
     = Returned (xOnyxiaContext, calls) /\
     p_valuesSchema payload
     = getChartValuesSchemaJson
         (getHelmChartDetails (i_catalogId params) (i_chartName params)
            (p_chartVersion payload))
         xOnyxiaContext) /\
  map (fun formField => c_path (commonOf formField)) (p_formFields payload)
  = map fst (leavesOf (p_valuesSchema payload) []) /\
  map h_path (p_infosAboutWhenFieldsShouldBeHidden payload)
  = map (fun formField => c_path (commonOf formField)) (p_formFields payload) /\
  (forall pair, In pair (p_sensitiveConfigurations payload) ->
     In pair (p_formFieldsValueDifferentFromDefault payload)).
Proof.
  unfold initializeAsync.
  destruct (getChartInfos _ _ _ _ _ _) as [[infos alerts]|] eqn:Hinfos;
    [|contradiction].
  destruct (getXOnyxiaContext _ _ _ _ _) as [[xOnyxiaContext calls]|] eqn:Hctx;
    [|contradiction].
  destruct completed; [contradiction|].
  set (valuesSchema :=
         getChartValuesSchemaJson
           (getHelmChartDetails (i_catalogId params) (i_chartName params)
              (chartVersion infos)) xOnyxiaContext).
  destruct (getInitialFormFields _ _ _ _ _ _) as [w|e console] eqn:Hwalk;
    [|contradiction].
  intros Hin. destruct Hin as [Hin|Hin].
  2:{ destruct (i_chartVersion params); [contradiction|].
      destruct Hin as [Hin|[]]. discriminate. }
  injection Hin as <-.
  cbn [p_chartVersion p_availableChartVersions p_valuesSchema p_formFields
       p_infosAboutWhenFieldsShouldBeHidden p_sensitiveConfigurations
       p_formFieldsValueDifferentFromDefault].
  split; [now apply getChartInfos_Returned_version in Hinfos|].
  split; [now exists xOnyxiaContext, calls|].
  pose proof (walk_paths String_of_number yaml_stringify RegExp_new RegExp_test
                getIsRestorableConfigSaved _ w Hwalk) as Hpaths.
  pose proof (walk_hiddenInfos String_of_number yaml_stringify RegExp_new
                RegExp_test getIsRestorableConfigSaved _ w Hwalk) as Hinfos'.
  pose proof (walk_sensitiveConfigurations String_of_number yaml_stringify
                RegExp_new RegExp_test getIsRestorableConfigSaved _ w Hwalk)
    as Hsens.
  cbn [walkParams Launcher.valuesSchema formFieldsValueDifferentFromDefault]
    in Hpaths, Hinfos', Hsens.
  split; [exact Hpaths|]. split.
  - rewrite Hpaths, Hinfos', map_map. reflexivity.
  - intros pair. rewrite Hsens.
    unfold initialSensitiveConfigurations. destruct (negb _); [intros []|].
    cbn. rewrite in_flat_map. intros ([q d] & _ & Hflag).
    unfold flagged in Hflag. cbn [fst snd] in Hflag.
    destruct (isTextLeaf d); [|contradiction].
    unfold spec_violation in Hflag. cbn [fst snd] in Hflag.
    destruct (x_security d ≫= xs_pattern) as [pat|]; [|contradiction].
    destruct (JS.find _ _) as [ffv|] eqn:Hfind; [|contradiction].
    destruct (RegExp_new pat) as [regExp|]; [|contradiction].
    destruct (RegExp_test regExp _); [contradiction|].
    destruct Hflag as [<-|[]].
    apply find_some in Hfind as [Hffv Hsame].
    apply bool_decide_eq_true_1 in Hsame. destruct ffv as [q' v].
    cbn [path value] in *. now subst q'.
Qed.

(** The function dispatches nothing, or [initialized] once, followed by
    [defaultChartVersionSelected] exactly when no version was pinned: also
    not when the pinned version was missing and the default one was taken.
    It dispatches exactly when the launcher was not cleaned up during the
    awaits and the three thunks return: [getChartInfos],
    [getXOnyxiaContext] and, on the schema the chart gives for the context,
    [getInitialFormFields], which throws on a pattern that is no regular
    expression. *)
Theorem initializeAsync_actions (params : InitializeParams)
    (catalogs : list Catalog) (chartsByCatalogId : gmap string (list Chart))
    (inputs : Inputs) (completed : bool) :
  let actions := initializeAsync params catalogs chartsByCatalogId inputs completed in
  (actions = [] \/
   exists payload,
     actions = initialized payload
               :: (if bool_decide (i_chartVersion params = None)
                   then [defaultChartVersionSelected] else [])) /\
  (actions <> [] <->
   completed = false /\
   exists infos alerts xOnyxiaContext calls w,
     getChartInfos Chart_getDefaultVersion catalogs chartsByCatalogId
       (i_catalogId params) (i_chartName params) (i_chartVersion params)
     = Returned (infos, alerts) /\
     getXOnyxiaContext emptyObject parseUrl
       bucketNameAndObjectNameFromS3Path_bucketName btoa_utf8 inputs
     = Returned (xOnyxiaContext, calls) /\
     getInitialFormFields String_of_number yaml_stringify RegExp_new RegExp_test
       getIsRestorableConfigSaved
       (walkParams params (chartVersion infos)
          (getChartValuesSchemaJson
             (getHelmChartDetails (i_catalogId params) (i_chartName params)
                (chartVersion infos))
             xOnyxiaContext))
     = Completed w).
Proof.
  cbn zeta. unfold initializeAsync.
  destruct (getChartInfos _ _ _ _ _ _) as [[infos alerts]|].
  2:{ split; [now left|]. split; [congruence|].
      intros (_ & ? & ? & ? & ? & ? & [=] & _). }
  destruct (getXOnyxiaContext _ _ _ _ _) as [[xOnyxiaContext calls]|].
  2:{ split; [now left|]. split; [congruence|].
      intros (_ & ? & ? & ? & ? & ? & _ & [=] & _). }
  destruct completed.
  { split; [now left|]. split; [congruence|]. intros ([=] & _). }
  destruct (getInitialFormFields _ _ _ _ _ _) as [w|e console] eqn:Hwalk.
  - split.
    + right. eexists. f_equal. now destruct (i_chartVersion params).
    + split; [|discriminate]. intros _. split; [reflexivity|].
      now exists infos, alerts, xOnyxiaContext, calls, w.
  - split; [now left|]. split; [congruence|].
    intros (_ & infos' & alerts' & ctx' & calls' & w & [= <- <-] & [= <- <-] & H).
    congruence.
Qed.

End Initialize.

(** The chart [jupyter] of the catalog [ide], pinned at a version it does
    not have, for the group project with the injection of personal
    information off. *)
Definition exampleDetails (catalogId chartName chartVersion : string)
    : HelmChartDetails (number := Z) (Opaque := unit) :=
  {| nonLibraryDependencies := ["library-chart"];
     sourceUrls := ["https://git.example.org/jupyter"];
     getChartValuesSchemaJson := fun xOnyxiaContext => exampleSchema |}.

Definition exampleInitialize : list Action :=
  initializeAsync (fun n => "0") (fun _ => EmptyString) exampleRegExp_new
    exampleRegExp_test (fun _ _ _ _ => true) firstVersion tt
    (fun url => (url, None))
    (fun s3Path => "bucket") (fun s => s) exampleDetails
    {| i_catalogId := "ide"; i_chartName := "jupyter";
       i_chartVersion := Some "0.1.0";
       i_formFieldsValueDifferentFromDefault := [] |}
    [ideCatalog] {[ "ide" := [jupyter] ]} (exampleInputs None) false.

Lemma initialized_payload_consistent_witness :
  exists payload,
    In (initialized payload) exampleInitialize /\
    p_chartVersion payload = "2.0.0" /\
    In (p_chartVersion payload) (p_availableChartVersions payload) /\
    map h_path (p_infosAboutWhenFieldsShouldBeHidden payload)
    = map (fun formField => c_path (commonOf formField)) (p_formFields payload).
Proof.
  assert (H : exists payload,
            In (initialized payload) exampleInitialize /\
            p_chartVersion payload = "2.0.0").
  { eexists. split; [left; vm_compute; reflexivity|reflexivity]. }
  destruct H as (payload & Hin & Hversion). exists payload.
  split; [exact Hin|]. split; [exact Hversion|].
  pose proof (initialized_payload_consistent (fun n => "0") (fun _ => EmptyString)
                exampleRegExp_new exampleRegExp_test (fun _ _ _ _ => true)
                firstVersion tt
                (fun url => (url, None)) (fun s3Path => "bucket") (fun s => s)
                exampleDetails _ _ _ _ _ payload Hin)
    as (Hlisted & _ & _ & Hhidden & _).
  split; assumption.
Defined.

(** The same call for a chart whose schema has a pattern that is no regular
    expression, with a value given for its leaf. *)
Definition brokenDetails (catalogId chartName chartVersion : string)
    : HelmChartDetails (number := Z) (Opaque := unit) :=
  {| nonLibraryDependencies := ["library-chart"];
     sourceUrls := ["https://git.example.org/jupyter"];
     getChartValuesSchemaJson := fun xOnyxiaContext => valuesSchema brokenChart |}.

Definition brokenInitialize : list Action :=
  initializeAsync (fun n => "0") (fun _ => EmptyString) exampleRegExp_new
    exampleRegExp_test (fun _ _ _ _ => true) firstVersion tt
    (fun url => (url, None))
    (fun s3Path => "bucket") (fun s => s) brokenDetails
    {| i_catalogId := "ide"; i_chartName := "jupyter";
       i_chartVersion := None;
       i_formFieldsValueDifferentFromDefault :=
         formFieldsValueDifferentFromDefault brokenChart |}
    [ideCatalog] {[ "ide" := [jupyter] ]} (exampleInputs None) false.

(** The first call dispatches, the second does not: both thunks before the
    walk return, the walk throws. *)
Lemma initializeAsync_actions_witness :
  exampleInitialize <> [] /\ brokenInitialize = [].
Proof.
  split.
  - refine (proj2 (proj2 (initializeAsync_actions (fun n => "0")
                            (fun _ => EmptyString) exampleRegExp_new
                            exampleRegExp_test (fun _ _ _ _ => true)
                            firstVersion tt (fun url => (url, None))
                            (fun s3Path => "bucket") (fun s => s)
                            exampleDetails _ _ _ _ _)) _).
    split; [reflexivity|]. do 5 eexists.
    split; [cbv; reflexivity|]. split; [cbv; reflexivity|]. cbv. reflexivity.
  - destruct (proj1 (initializeAsync_actions (fun n => "0")
                       (fun _ => EmptyString) exampleRegExp_new
                       exampleRegExp_test (fun _ _ _ _ => true)
                       firstVersion tt (fun url => (url, None))
                       (fun s3Path => "bucket") (fun s => s)
                       brokenDetails
                       {| i_catalogId := "ide"; i_chartName := "jupyter";
                          i_chartVersion := None;
                          i_formFieldsValueDifferentFromDefault :=
                            formFieldsValueDifferentFromDefault brokenChart |}
                       [ideCatalog] {[ "ide" := [jupyter] ]} (exampleInputs None)
                       false))
      as [H|[payload H]]; [exact H|].
    vm_compute in H. discriminate.
Defined.

End Initialize.

End Launcher.
